(** * Model backends of Ghostpad-KoboldAI-GPTQ: ExLlama (local GPU) and Horde (remote cluster)

    A shallow embedding of
      - [modeling/inference_models/exllama/class.py] (tokenizer wrappers
        installed by [_post_load], the sampling loop of [_raw_generate]);
      - [modeling/inference_models/horde.py] (model discovery at
        construction, the submit / poll / collect protocol of
        [_raw_generate]);
      - of the same two files, the warpers of [_apply_warpers], the
        model menu of the Horde adapter ([is_valid]), and the
        validation, configuration and layer placement of the ExLlama
        adapter ([load_model_gptq_settings], [is_valid], [_load_config],
        [_get_model], [get_requested_parameters],
        [set_input_parameters]);
    followed by the properties established for them.

    Python values are modelled by an inductive type, dictionaries by
    finite maps, exceptions by an outcome type, and the mutable host
    state ([utils.koboldai_vars], the logger, the network, the torch
    random generator) by explicit state passing. *)

From Stdlib Require Import ZArith QArith String Ascii List Lia.
From Stdlib Require Import DecimalString DecimalNat.
From stdpp Require Import base option list strings gmap.

#[local] Set Warnings "-register-all".
#[local] Open Scope Z_scope.

(* ===================================================================== *)
(** * Python values, exceptions and outcomes                              *)
(* ===================================================================== *)

Module Py.

(** Values as [json.loads] produces them and as the adapters pass them
    around: [None], booleans, numbers, strings, lists, dictionaries. *)
Inductive value : Type :=
  | VNone
  | VBool (b : bool)
  | VNum (q : Q)
  | VStr (s : string)
  | VList (l : list value)
  | VDict (kv : gmap string value).

(** The exception classes that occur in the two adapters. *)
Inductive exn : Type :=
  | HordeException (msg : string)
  | ConnectionError          (* requests.exceptions.ConnectionError *)
  | ReadTimeout              (* a requests error that is no ConnectionError *)
  | JSONDecodeError          (* requests.exceptions.JSONDecodeError *)
  | KeyError (key : string)
  | TypeError (what : string)
  | ValueError (what : string)
  | NameError (name : string).

Definition is_HordeException (e : exn) : bool :=
  match e with HordeException _ => true | _ => false end.

Definition is_ConnectionError (e : exn) : bool :=
  match e with ConnectionError => true | _ => false end.

(** What a call does: it returns, it raises, or the scripted
    environment has no further answer for it ([Starved]). *)
Inductive outcome (A : Type) : Type :=
  | Returns (a : A)
  | Raises (e : exn)
  | Starved.
Arguments Returns {A} a.
Arguments Raises {A} e.
Arguments Starved {A}.

(** Python truthiness ([if x:], [not x], [while not x]). *)
Definition truthy (v : value) : bool :=
  match v with
  | VNone => false
  | VBool b => b
  | VNum q => negb (Qeq_bool q 0)
  | VStr s => negb (String.eqb s "")
  | VList l => match l with [] => false | _ => true end
  | VDict kv => negb (bool_decide (kv = ∅))
  end.

(** [if seed:] on an [Optional[int]]. *)
Definition truthy_opt_int (o : option Z) : bool :=
  match o with
  | None => false
  | Some z => negb (z =? 0)
  end.

Definition is_VStr (s : string) (v : value) : bool :=
  match v with VStr s' => String.eqb s s' | _ => false end.

Definition substring_of (needle hay : string) : bool :=
  match String.index 0 needle hay with Some _ => true | None => false end.

(** [key in v] for a string key. *)
Definition contains (key : string) (v : value) : exn + bool :=
  match v with
  | VDict kv => inr (bool_decide (is_Some (kv !! key)))
  | VList l => inr (existsb (is_VStr key) l)
  | VStr s => inr (substring_of key s)
  | _ => inl (TypeError "argument is not iterable")
  end.

(** [v[key]] for a string key. *)
Definition getitem (v : value) (key : string) : exn + value :=
  match v with
  | VDict kv =>
      match kv !! key with
      | Some x => inr x
      | None => inl (KeyError key)
      end
  | VList _ => inl (TypeError "list indices must be integers or slices, not str")
  | VStr _ => inl (TypeError "string indices must be integers")
  | _ => inl (TypeError "object is not subscriptable")
  end.

Definition chars (s : string) : list value :=
  (fun c => VStr (String c EmptyString)) <$> list_ascii_of_string s.

(** [for x in v]: the elements a comprehension ranges over. *)
Definition iterate (v : value) : exn + list value :=
  match v with
  | VList l => inr l
  | VDict kv => inr ((fun p => VStr p.1) <$> map_to_list kv)
  | VStr s => inr (chars s)
  | _ => inl (TypeError "object is not iterable")
  end.

(** [int(q)]: truncation toward zero. *)
Definition int_of (q : Q) : Z := Z.quot (Qnum q) (Zpos (Qden q)).

End Py.

Import Py.

(* ===================================================================== *)
(** * exllama/class.py                                                    *)
(* ===================================================================== *)

Module ExLlama.

Definition token := Z.

(** ** Tokenizer wrappers installed by [_post_load] *)

(** What callers hand to [decode]: a Python int, a 0-dimensional
    tensor, a tensor of rank 1 (the case [len(token_ids) > 0] and
    [int(token_ids[0])] is written for), another sequence, or [None]. *)
Inductive token_ids : Type :=
  | IdsInt (t : token)
  | IdsTensor0 (t : token)
  | IdsTensor (l : list token)
  | IdsSeq (l : list token)
  | IdsNone.

(** What callers hand to [encode]: a [str] or anything else
    (pre-tokenized input, a list of strings, ...). *)
Inductive encode_input (other : Type) : Type :=
  | TextStr (s : string)
  | TextOther (x : other).
Arguments TextStr {other} s.
Arguments TextOther {other} x.

(** The library tokenizer behind [self.tokenizer.tokenizer]
    ([LlamaTokenizer], loaded from the model directory).  [call_args]
    stands for the positional and keyword arguments the wrappers
    forward unchanged. *)
Class Tokenizer := {
  call_args : Type;
  other_input : Type;
  vocab : list string;   (* convert_ids_to_tokens(range(vocab_size)) *)
  original_decode : token_ids -> call_args -> string;
  original_encode : encode_input other_input -> call_args -> list token;
  bos_token_id : token;
  eos_token_id : token
}.

(** The word-boundary marker U+2581, as its UTF-8 bytes. *)
Definition marker : string :=
  String (ascii_of_nat 226) (String (ascii_of_nat 150)
    (String (ascii_of_nat 129) EmptyString)).

Definition startswith (tok pre : string) : bool := String.prefix pre tok.

(** [{i for i, tok in enumerate(vocab) if tok.startswith(marker)}] *)
Fixpoint prefix_space_from (i : Z) (v : list string) : gset Z :=
  match v with
  | [] => ∅
  | tok :: rest =>
      if startswith tok marker
      then {[ i ]} ∪ prefix_space_from (i + 1) rest
      else prefix_space_from (i + 1) rest
  end.

Definition has_prefix_space `{Tokenizer} : gset Z :=
  prefix_space_from 0 vocab.

Definition decode_wrapper `{Tokenizer}
    (ids : token_ids) (args : call_args) : string :=
  let '(first, ids) :=
    match ids with
    | IdsInt t => (Some t, IdsSeq [t])
    | IdsTensor0 t => (Some t, IdsSeq [t])
    | IdsTensor l => (head l, IdsTensor l)
    | IdsSeq l => (head l, IdsSeq l)
    | IdsNone => (None, IdsNone)
    end in
  let result := original_decode ids args in
  match first with
  | Some f =>
      if bool_decide (f ∈ has_prefix_space)
      then (" " +:+ result)%string
      else result
  | None => result
  end.

Definition encode_wrapper `{Tokenizer}
    (text : encode_input other_input) (args : call_args) : list token :=
  match text with
  | TextStr s =>
      let text := TextStr ("," +:+ s) in
      let result := original_encode text args in
      drop 1 result
  | TextOther _ => original_encode text args
  end.

(** ** The sampling loop of [_raw_generate] *)

(** The compute provider and the sampler framework: tensors, the
    key/value cache, the torch random generator and the warpers are
    opaque; only the way [_raw_generate] and [_apply_warpers] chain
    them is modelled.  [warper_torch w scores None] is
    [warper.torch(scores)] and [warper_torch w scores (Some ids)] is
    [warper.torch(scores, input_ids=ids)]; its result is a tensor, so
    the assertion [scores is not None] of [_apply_warpers] holds by
    typing. *)
Class Engine := {
  tensor : Type;
  cache_t : Type;
  rng_state : Type;
  warper : Type;
  manual_seed : Z -> rng_state;                    (* torch.manual_seed *)
  prefill : list token -> cache_t -> list token -> cache_t;
                              (* cache after gen_begin_reuse, given the old sequence *)
  forward : list token -> cache_t -> tensor * cache_t;   (* model.forward *)
  mask_token : tensor -> token -> tensor;          (* logits[:, :, t] = -10000.0 *)
  last_position : tensor -> tensor;                (* unsqueeze(logits[0, -1, :], 0) *)
  softmax : tensor -> tensor;
  multinomial : tensor -> rng_state -> token * rng_state;
  from_id : Z -> warper;                           (* Warper.from_id *)
  value_is_valid : warper -> bool;
  is_repetition_penalty : warper -> bool;          (* warper == warpers.RepetitionPenalty *)
  warper_torch : warper -> tensor -> option (list token) -> tensor
}.

Inductive event : Type :=
  | EvManualSeed (seed : Z)
  | EvGenBegin (prompt : list token)
  | EvForward (ids : list token)
  | EvAccept (t : token)
  | EvPostTokenGen (seq : list token).

(** The mutable state [_raw_generate] works on: the process-wide torch
    generator, [self.generator.sequence] and [self.generator.cache]
    (batch size 1), [utils.koboldai_vars.generated_tkns], and the
    calls made so far. *)
Record state `{Engine} := mkState {
  rng : rng_state;
  sequence : list token;
  cache : cache_t;
  generated_tkns : Z;
  events : list event
}.
Arguments mkState {_} _ _ _ _ _.
Arguments rng {_} _.
Arguments sequence {_} _.
Arguments cache {_} _.
Arguments generated_tkns {_} _.
Arguments events {_} _.

Record GenerationResult := mkResult {
  out_batches : list (list token);
  prompt : list token;
  is_whole_generation : bool;
  single_line : bool
}.

Section Generate.
Context `{Tok : Tokenizer} `{Eng : Engine}.

(** [utils.koboldai_vars.sampler_order] *)
Variable sampler_order : list Z.

(** [for sid in utils.koboldai_vars.sampler_order: ...].  The call
    [warpers.update_settings()] that precedes the loop refreshes the
    settings [value_is_valid] and [warper_torch] read; the logging under
    [LOG_SAMPLER_NO_EFFECT], which the module sets to [False], is left
    out. *)
Fixpoint apply_warpers_from (order : list Z)
    (scores : tensor) (input_ids : list token) : tensor :=
  match order with
  | [] => scores
  | sid :: rest =>
      let w := from_id sid in
      if negb (value_is_valid w) then
        apply_warpers_from rest scores input_ids
      else
        let scores :=
          if is_repetition_penalty w
          then warper_torch w scores (Some input_ids)
          else warper_torch w scores None in
        apply_warpers_from rest scores input_ids
  end.

Definition _apply_warpers (scores : tensor) (input_ids : list token) : tensor :=
  apply_warpers_from sampler_order scores input_ids.

Definition emit_event (e : event) (st : state) : state :=
  mkState (rng st) (sequence st) (cache st) (generated_tkns st)
          (events st ++ [e]).

(** [torch.manual_seed(seed)] *)
Definition seed_rng (s : Z) (st : state) : state :=
  emit_event (EvManualSeed s)
    (mkState (manual_seed s) (sequence st) (cache st) (generated_tkns st)
             (events st)).

(** [self.generator.gen_begin_reuse(gen_in)], by the contract of the
    ExLlama generator: its sequence becomes the prompt, and the cache is
    primed with it (reusing what it shares with the old sequence). *)
Definition gen_begin_reuse (gen_in : list token) (st : state) : state :=
  emit_event (EvGenBegin gen_in)
    (mkState (rng st) gen_in (prefill (sequence st) (cache st) gen_in)
             (generated_tkns st) (events st)).

(** [self.generator.gen_accept_token(token)], by the contract of the
    ExLlama generator: the token is appended to its sequence. *)
Definition gen_accept_token (t : token) (st : state) : state :=
  emit_event (EvAccept t)
    (mkState (rng st) (sequence st ++ [t]) (cache st)
             (generated_tkns st) (events st)).

(** [sequence[:, -1:]] *)
Definition last_token (seq : list token) : list token :=
  drop (length seq - 1)%nat seq.

(** One pass through the body of [for i in range(max_new)], up to
    and including the counter increment; returns the sampled token. *)
Definition loop_body (gen_in : list token) (st : state) : token * state :=
  let ids := last_token (sequence st) in
  let '(logits, cache') := forward ids (cache st) in
  let st := emit_event (EvForward ids)
              (mkState (rng st) (sequence st) cache'
                       (generated_tkns st) (events st)) in
  let logits := mask_token logits bos_token_id in
  let logits := last_position logits in
  let scores := _apply_warpers logits gen_in in
  let scores := softmax scores in
  let '(tok, rng') := multinomial scores (rng st) in
  let st := mkState rng' (sequence st) (cache st)
                    (generated_tkns st) (events st) in
  let st := gen_accept_token tok st in
  let st := emit_event (EvPostTokenGen (sequence st)) st in
  let st := mkState (rng st) (sequence st) (cache st)
                    (generated_tkns st + 1) (events st) in
  (tok, st).

(** [for i in range(max_new): ...; if token.item() == eos: break] *)
Fixpoint gen_loop (n : nat) (gen_in : list token) (st : state) : state :=
  match n with
  | O => st
  | S n' =>
      let '(tok, st') := loop_body gen_in st in
      if tok =? eos_token_id then st' else gen_loop n' gen_in st'
  end.

(** [if seed: torch.manual_seed(seed)] *)
Definition seeded (seed : option Z) (st : state) : state :=
  match seed with
  | Some s => if truthy_opt_int seed then seed_rng s st else st
  | None => st
  end.

Definition _raw_generate
    (prompt_tokens : list token) (max_new : Z)
    (single : bool) (batch_count : Z) (seed : option Z)
    (st : state) : GenerationResult * state :=
  let st := seeded seed st in
  let gen_in := prompt_tokens in
  let st := gen_begin_reuse gen_in st in
  let st := gen_loop (Z.to_nat max_new) gen_in st in
  let st := mkState (rng st) (sequence st) (cache st) max_new (events st) in
  (mkResult [drop (length gen_in) (sequence st)] prompt_tokens true single,
   st).

(** ** Reading a run *)

(** The tokens accepted by the generator, read off the call log. *)
Definition accepted (evs : list event) : list token :=
  omap (fun e => match e with EvAccept t => Some t | _ => None end) evs.

(** [n] passes through the loop body with no stop test: the state
    reached and the tokens drawn on the way. *)
Fixpoint run (n : nat) (gen_in : list token) (st : state) : state :=
  match n with
  | O => st
  | S n' => run n' gen_in (loop_body gen_in st).2
  end.

Fixpoint sampled (n : nat) (gen_in : list token) (st : state) : list token :=
  match n with
  | O => []
  | S n' =>
      (loop_body gen_in st).1 :: sampled n' gen_in (loop_body gen_in st).2
  end.

End Generate.

End ExLlama.

(* ===================================================================== *)
(** * horde.py                                                            *)
(* ===================================================================== *)

Module Horde.

Definition token := Z.

(** ** The host and the libraries the adapter talks to *)

(** [utils.koboldai_vars], as far as the adapter reads or writes it. *)
Record koboldai_vars := mkVars {
  lastctx : string;
  max_length : Z;
  cluster_requested_models : list string;
  horde_wait_time : value;
  horde_queue_position : value;
  horde_queue_size : value
}.

Inductive level := Debug | Info | Warning | Error | InitOk | InitErr.

Inductive event : Type :=
  | EvLog (lvl : level) (msg : string)
  | EvLogStatus (lvl : level) (msg status : string)
  | EvEmit (name : string) (data : value) (room : option string)
  | EvGet (url : string) (headers : list (string * string))
  | EvPost (url : string) (body : value) (headers : list (string * string))
  | EvSleep (seconds : Z).

Record world := mkWorld {
  vars : koboldai_vars;
  trace : list event
}.

(** A [requests.Response].  [json_body = None] stands for a body that
    [req.json()] cannot decode. *)
Record response := mkResponse {
  status_code : Z;
  url_of : string;
  text : string;
  json_body : option value
}.

(** [Response.ok]: [raise_for_status] does not raise, that is the
    status is not in 400..599. *)
Definition ok (r : response) : bool :=
  negb ((400 <=? status_code r) && (status_code r <? 600)).

(** What one HTTP call meets: an exception out of [requests], or a
    response. *)
Inductive net_result : Type :=
  | NetRaises (e : exn)
  | NetResponse (r : response).

(** Python built-ins, the tokenizer of the base class, [utils] and
    numpy.  [numpy_ragged] tells whether [np.array] builds an object
    array from rows of different lengths (numpy before 1.24) or
    raises [ValueError]. *)
Class Host := {
  py_repr : value -> string;
  tokenizer_decode : list token -> string;
  tokenizer_encode : value -> list token;
  decodenewlines : string -> string;
  numpy_ragged : bool
}.

Record GenerationSettings := mkSettings {
  rep_pen : Q;
  rep_pen_slope : Q;
  rep_pen_range : Q;
  temp : Q;
  top_p : Q;
  top_k : Q;
  top_a : Q;
  tfs : Q;
  typical : Q
}.

Record GenerationResult := mkResult {
  out_batches : list (list token);
  prompt : list token;
  is_whole_generation : bool;
  single_line : bool
}.

(** The adapter object: [self.url], [self.key], [self.models], and
    the [api_host] capability. *)
Record model_backend := mkBackend {
  url : string;
  key : string;
  models : value;
  api_host : bool
}.

(** ** Effects: a state and exception monad over [world] *)

Definition M (A : Type) : Type := world -> outcome A * world.

Definition ret {A} (a : A) : M A := fun w => (Returns a, w).
Definition raise {A} (e : exn) : M A := fun w => (Raises e, w).
Definition starve {A} : M A := fun w => (Starved, w).

Definition bind {A B} (m : M A) (k : A -> M B) : M B :=
  fun w =>
    match m w with
    | (Returns a, w') => k a w'
    | (Raises e, w') => (Raises e, w')
    | (Starved, w') => (Starved, w')
    end.

(** [try: m  except <class>: handler] *)
Definition catch {A} (caught : exn -> bool) (m : M A) (handler : exn -> M A) : M A :=
  fun w =>
    match m w with
    | (Raises e, w') => if caught e then handler e w' else (Raises e, w')
    | r => r
    end.

Definition lift {A} (r : exn + A) : M A :=
  match r with
  | inl e => raise e
  | inr a => ret a
  end.

Definition record (e : event) : M unit :=
  fun w => (Returns tt, mkWorld (vars w) (trace w ++ [e])).

Definition get_vars : M koboldai_vars := fun w => (Returns (vars w), w).

Definition set_vars (v : koboldai_vars) : M unit :=
  fun w => (Returns tt, mkWorld v (trace w)).

Declare Scope horde_scope.
Delimit Scope horde_scope with horde.
Notation "x <~ m ;; k" := (bind m (fun x => k))
  (at level 100, m at next level, right associativity) : horde_scope.
Notation "m ;; k" := (bind m (fun _ => k))
  (at level 100, right associativity) : horde_scope.
#[local] Open Scope horde_scope.

Fixpoint mapM {A B} (f : A -> M B) (l : list A) : M (list B) :=
  match l with
  | [] => ret []
  | x :: rest => y <~ f x ;; ys <~ mapM f rest ;; ret (y :: ys)
  end.

Definition log (lvl : level) (msg : string) : M unit := record (EvLog lvl msg).
Definition log_status (lvl : level) (msg status : string) : M unit :=
  record (EvLogStatus lvl msg status).

(** [time.sleep(seconds)] *)
Definition sleep (seconds : Z) : M unit := record (EvSleep seconds).

(** [requests.get(url, headers=...)] and [requests.post(url, json=...,
    headers=...)], answered by the scripted [net]. *)
Definition requests_get (u : string) (headers : list (string * string))
    (net : net_result) : M response :=
  record (EvGet u headers) ;;
  match net with
  | NetRaises e => raise e
  | NetResponse r => ret r
  end.

Definition requests_post (u : string) (body : value)
    (headers : list (string * string)) (net : net_result) : M response :=
  record (EvPost u body headers) ;;
  match net with
  | NetRaises e => raise e
  | NetResponse r => ret r
  end.

(** [req.json()] *)
Definition json (r : response) : M value :=
  match json_body r with
  | Some v => ret v
  | None => raise JSONDecodeError
  end.

(** Evaluating a free name of the module: it is looked up among the
    names the module binds (Python's built-ins hold none of the names
    looked up here), and [NameError] is raised when it is not there. *)
Definition lookup_global (globals : list string) (name : string) : M unit :=
  if bool_decide (name ∈ globals) then ret tt else raise (NameError name).

(** The names [horde.py] binds at module level: its imports, one
    assignment and two classes. *)
Definition horde_globals : list string :=
  [ "annotations"; "time"; "torch"; "requests"; "np";
    "List"; "Optional"; "Union"; "utils"; "logger";
    "GenerationResult"; "GenerationSettings"; "InferenceModel";
    "ModelCapabilities"; "model_backend_name"; "HordeException";
    "model_backend" ]%string.

Section Adapter.
Context `{H : Host}.

(** [str(v)]: a string is itself, anything else prints as its repr. *)
Definition py_str (v : value) : string :=
  match v with
  | VStr s => s
  | _ => py_repr v
  end.

Definition join (sep : string) (l : list string) : string :=
  match l with
  | [] => ""
  | x :: rest => fold_left (fun acc y => acc +:+ sep +:+ y) rest x
  end.

(** [str] of a list of pairs, as an f-string prints [gen_servers]. *)
Definition str_pairs (l : list (value * value)) : string :=
  "[" +:+ join ", " ((fun p => "(" +:+ py_repr p.1 +:+ ", " +:+ py_repr p.2 +:+ ")") <$> l)
      +:+ "]".

(** [np.array(rows)] *)
Definition rectangular (rows : list (list token)) : bool :=
  match rows with
  | [] => true
  | r :: rest => forallb (fun x => Nat.eqb (length x) (length r)) rest
  end.

Definition np_array (rows : list (list token)) : M (list (list token)) :=
  if rectangular rows || numpy_ragged then ret rows
  else raise (ValueError "inhomogeneous shape").

(** ** [get_cluster_models] and [__init__] *)

Definition engine_entry (en : value) : M value :=
  t <~ lift (getitem en "name") ;;
  v <~ lift (getitem en "name") ;;
  ret (VDict (<["text" := t]> (<["value" := v]> ∅))).

(** The [try] around [requests.get] has a bare [except:] whose
    handler ends in [return]: [inl] carries the value returned from
    inside the handler, [inr] the response the function goes on
    with.  [emit] is a free name of the module. *)
Definition get_cluster_models (globals : list string) (self_url : string)
    (net : net_result) : M value :=
  log Info "<purple>Retrieving engine list...</purple>" ;;
  r <~ catch (fun _ => true)
         (req <~ requests_get (self_url +:+ "/api/v2/status/models?type=text") [] net ;;
          ret (inr req))
         (fun _ =>
            log_status InitErr "KAI Horde Models" "Failed" ;;
            log Error "Provided KoboldAI Horde URL unreachable" ;;
            lookup_global globals "emit" ;;
            record (EvEmit "from_server"
                      (VDict (<["cmd" := VStr "errmsg"]>
                             (<["data" := VStr "Provided KoboldAI Horde URL unreachable"]> ∅)))
                      None) ;;
            ret (inl VNone)) ;;
  match r with
  | inl v => ret v
  | inr req =>
      if negb (ok req) then
        log_status InitErr "KAI Horde Models" "Failed" ;;
        body <~ json req ;;
        log Error (py_str body) ;;
        lookup_global globals "emit" ;;
        body <~ json req ;;
        record (EvEmit "from_server"
                  (VDict (<["cmd" := VStr "errmsg"]> (<["data" := body]> ∅)))
                  (Some "UI_1"%string)) ;;
        ret VNone
      else
        engines <~ json req ;;
        engines <~ catch (fun _ => true)
                     (ens <~ lift (iterate engines) ;;
                      l <~ mapM engine_entry ens ;;
                      ret (VList l))
                     (fun e => log Error (py_str engines) ;; raise e) ;;
        log Debug (py_str engines) ;;
        log_status InitOk "KAI Horde Models" "OK" ;;
        ret engines
  end.

Definition __init__ (globals : list string) (net : net_result) : M model_backend :=
  let self_url := "https://horde.koboldai.net"%string in
  let self_key := "0000000000"%string in
  self_models <~ get_cluster_models globals self_url net ;;
  ret (mkBackend self_url self_key self_models false).

(** ** [_raw_generate] *)

Definition msg_unavailable : string :=
  "Horde unavailable. Please try again later".
Definition msg_no_servers : string :=
  "KoboldAI API Error: No available KoboldAI servers found in Horde to fulfil this request using the selected models or other properties.".
Definition msg_no_standard_reply : string :=
  "KoboldAI API Error: Failed to get a standard reply from the Horde. Please check the console.".
Definition msg_unexpected_submit (body : string) : string :=
  "Unexpected message received from the Horde: '" +:+ body +:+ "'".
Definition msg_unexpected_status (body : string) : string :=
  "Unexpected message received from the KoboldAI Horde: '" +:+ body +:+ "'".
Definition msg_unexpected_response (status : string) : string :=
  "Unexpected response received from the KoboldAI Horde: '" +:+ status +:+ "'".
Definition msg_faulted : string :=
  "Horde Text generation faulted! Please try again.".

Definition client_agent : string := "KoboldAI:2.0.0:koboldai.org".

Definition num (q : Q) : value := VNum q.
Definition int (z : Z) : value := VNum (inject_Z z).

(** [reqdata] *)
Definition reqdata (max_new : Z) (v : koboldai_vars)
    (gen_settings : GenerationSettings) (batch_count : Z) : value :=
  VDict (list_to_map
    [ ("max_length", int max_new);
      ("max_context_length", int (max_length v));
      ("rep_pen", num (rep_pen gen_settings));
      ("rep_pen_slope", num (rep_pen_slope gen_settings));
      ("rep_pen_range", num (rep_pen_range gen_settings));
      ("temperature", num (temp gen_settings));
      ("top_p", num (top_p gen_settings));
      ("top_k", int (int_of (top_k gen_settings)));
      ("top_a", num (top_a gen_settings));
      ("tfs", num (tfs gen_settings));
      ("typical", num (typical gen_settings));
      ("n", int batch_count) ]%string).

(** [cluster_metadata] *)
Definition cluster_metadata (decoded_prompt : string) (params : value)
    (v : koboldai_vars) : value :=
  VDict (list_to_map
    [ ("prompt", VStr decoded_prompt);
      ("params", params);
      ("models",
        VList (VStr <$> filter (fun x => truthy (VStr x) = true)
                               (cluster_requested_models v)));
      ("trusted_workers", VBool false) ]%string).

Definition status_url (self : model_backend) (request_id : value) : string :=
  url self +:+ "/api/v2/generate/text/status/" +:+ py_str request_id.

(** [while not finished: ...], one scripted answer per iteration;
    returns the last [req_status]. *)
Fixpoint poll_loop (self : model_backend) (request_id : value)
    (cluster_agent_headers : list (string * string))
    (polls : list net_result) : M value :=
  match polls with
  | [] => starve
  | answer :: polls =>
      req <~ catch is_ConnectionError
               (requests_get (status_url self request_id)
                             cluster_agent_headers answer)
               (fun _ =>
                  let errmsg := msg_unavailable in
                  log Error errmsg ;;
                  raise (HordeException errmsg)) ;;
      if negb (ok req) then
        let errmsg := msg_no_standard_reply in
        log Error (text req) ;;
        raise (HordeException errmsg)
      else
        req_status <~ catch (fun e => match e with JSONDecodeError => true | _ => false end)
                        (json req)
                        (fun _ =>
                           let errmsg := msg_unexpected_status (text req) in
                           log Error errmsg ;;
                           raise (HordeException errmsg)) ;;
        has_done <~ lift (contains "done" req_status) ;;
        if negb has_done then
          let errmsg := msg_unexpected_response (py_str req_status) in
          log Error errmsg ;;
          raise (HordeException errmsg)
        else
          finished <~ lift (getitem req_status "done") ;;
          wait_time <~ lift (getitem req_status "wait_time") ;;
          v <~ get_vars ;;
          set_vars (mkVars (lastctx v) (max_length v) (cluster_requested_models v)
                           wait_time (horde_queue_position v) (horde_queue_size v)) ;;
          queue_position <~ lift (getitem req_status "queue_position") ;;
          v <~ get_vars ;;
          set_vars (mkVars (lastctx v) (max_length v) (cluster_requested_models v)
                           (horde_wait_time v) queue_position (horde_queue_size v)) ;;
          waiting <~ lift (getitem req_status "waiting") ;;
          v <~ get_vars ;;
          set_vars (mkVars (lastctx v) (max_length v) (cluster_requested_models v)
                           (horde_wait_time v) (horde_queue_position v) waiting) ;;
          if negb (truthy finished) then
            log Debug (py_str req_status) ;;
            sleep 1 ;;
            poll_loop self request_id cluster_agent_headers polls
          else
            ret req_status
  end.

Definition gen_server (cgen : value) : M (value * value) :=
  worker_name <~ lift (getitem cgen "worker_name") ;;
  worker_id <~ lift (getitem cgen "worker_id") ;;
  ret (worker_name, worker_id).

Definition encode_generation (cgen : value) : M (list token) :=
  t <~ lift (getitem cgen "text") ;;
  ret (tokenizer_encode t).

(** [_raw_generate] up to the request id (lines 135-205): the seed
    warning, the decoded prompt stored as [lastctx], the payload, the
    POST and the handling of its answer. *)
Definition submit_request (self : model_backend)
    (prompt_tokens : list token) (max_new : Z)
    (gen_settings : GenerationSettings) (batch_count : Z) (seed : option Z)
    (submit : net_result) : M value :=
  match seed with
  | Some _ =>
      log Warning "Seed is unsupported on the APIInferenceModel. Seed will be ignored."
  | None => ret tt
  end ;;
  let decoded_prompt := decodenewlines (tokenizer_decode prompt_tokens) in
  v <~ get_vars ;;
  set_vars (mkVars decoded_prompt (max_length v) (cluster_requested_models v)
                   (horde_wait_time v) (horde_queue_position v)
                   (horde_queue_size v)) ;;
  v <~ get_vars ;;
  let params := reqdata max_new v gen_settings batch_count in
  let metadata := cluster_metadata decoded_prompt params v in
  let cluster_headers :=
    [ ("apikey", key self); ("Client-Agent", client_agent) ]%string in
  req <~ catch is_ConnectionError
           (requests_post (url self +:+ "/api/v2/generate/text/async")
                          metadata cluster_headers submit)
           (fun _ =>
              let errmsg := msg_unavailable in
              log Error errmsg ;;
              raise (HordeException errmsg)) ;;
  if status_code req =? 503 then
    let errmsg := msg_no_servers in
    log Error errmsg ;;
    raise (HordeException errmsg)
  else if negb (ok req) then
    let errmsg := msg_no_standard_reply in
    log Error (url_of req) ;;
    log Error errmsg ;;
    log Error (text req) ;;
    raise (HordeException errmsg)
  else
    req_status <~ catch (fun e => match e with JSONDecodeError => true | _ => false end)
                    (json req)
                    (fun _ =>
                       let errmsg := msg_unexpected_submit (text req) in
                       log Error errmsg ;;
                       raise (HordeException errmsg)) ;;
    request_id <~ lift (getitem req_status "id") ;;
    log Debug ("Horde Request ID: " +:+ py_str request_id) ;;
    ret request_id.

(** [_raw_generate] after the polling loop (lines 251-268): the fault
    test, the worker identities, and the result. *)
Definition collect (prompt_tokens : list token) (single : bool)
    (req_status : value) : M GenerationResult :=
  log Debug ("Last Horde Status Message: " +:+ py_str req_status) ;;
  faulted <~ lift (getitem req_status "faulted") ;;
  if truthy faulted then
    raise (HordeException msg_faulted)
  else
    generations <~ lift (getitem req_status "generations") ;;
    cgens <~ lift (iterate generations) ;;
    gen_servers <~ mapM gen_server cgens ;;
    log Info ("Generations by: " +:+ str_pairs gen_servers) ;;
    cgens <~ lift (iterate generations) ;;
    rows <~ mapM encode_generation cgens ;;
    batches <~ np_array rows ;;
    ret (mkResult batches prompt_tokens true single).

(** [submit] answers the POST and [polls] the successive status GETs. *)
Definition _raw_generate (self : model_backend)
    (prompt_tokens : list token) (max_new : Z)
    (gen_settings : GenerationSettings)
    (single : bool) (batch_count : Z) (seed : option Z)
    (submit : net_result) (polls : list net_result)
    : M GenerationResult :=
  request_id <~ submit_request self prompt_tokens max_new gen_settings
                  batch_count seed submit ;;
  let cluster_agent_headers := [ ("Client-Agent", client_agent) ]%string in
  req_status <~ poll_loop self request_id cluster_agent_headers polls ;;
  collect prompt_tokens single req_status.

(** ** Reading responses and traces *)

Definition field (d : value) (k : string) : option value :=
  match d with
  | VDict kv => kv !! k
  | _ => None
  end.

(** The body of a status answer the loop gets through: a success
    status, a JSON object, and the fields [done], [wait_time],
    [queue_position] and [waiting]. *)
Definition status_fields (r : response)
    : option (value * value * value * value * value) :=
  if ok r then
    d ← json_body r;
    done ← field d "done";
    wait_time ← field d "wait_time";
    queue_position ← field d "queue_position";
    waiting ← field d "waiting";
    Some (d, done, wait_time, queue_position, waiting)
  else None.

Definition is_pending (r : response) : bool :=
  match status_fields r with
  | Some (_, done, _, _, _) => negb (truthy done)
  | None => false
  end.

Definition is_done (r : response) : bool :=
  match status_fields r with
  | Some (_, done, _, _, _) => truthy done
  | None => false
  end.

(** The [faulted] flag of a status answer, when it has one. *)
Definition faulted_flag (r : response) : option bool :=
  d ← json_body r; f ← field d "faulted"; Some (truthy f).

(** The entries of [generations], when it is a list. *)
Definition generations_of (r : response) : option (list value) :=
  d ← json_body r;
  g ← field d "generations";
  match g with
  | VList l => Some l
  | _ => None
  end.

Definition is_generation (cgen : value) : bool :=
  bool_decide (is_Some (field cgen "worker_name"))
  && bool_decide (is_Some (field cgen "worker_id"))
  && bool_decide (is_Some (field cgen "text")).

Definition generation_text (cgen : value) : value :=
  default VNone (field cgen "text").

(** A submission answer that yields a request id. *)
Definition accepted_id (r : response) : option value :=
  if status_code r =? 503 then None
  else if ok r then d ← json_body r; field d "id"
  else None.

(** The answers to the discovery GET the adapter cannot work with: an
    exception out of [requests], a non-success status, or a body that
    is not JSON. *)
Definition discovery_failure (net : net_result) : bool :=
  match net with
  | NetRaises _ => true
  | NetResponse r => negb (ok r) || bool_decide (json_body r = None)
  end.

(** The polling skeleton of a trace: the GETs and the sleeps. *)
Inductive poll_event : Type :=
  | PGet (u : string)
  | PSleep (seconds : Z).

Definition polling (evs : list event) : list poll_event :=
  omap (fun e =>
          match e with
          | EvGet u _ => Some (PGet u)
          | EvSleep n => Some (PSleep n)
          | _ => None
          end) evs.

(** The ways the job protocol fails on purpose, and the answers that
    make it do so: [pend] are status answers with the job not done. *)
Inductive failure : Type :=
  | SubmitConnection | Submit503 | SubmitStatus | SubmitNotJson
  | PollConnection | PollStatus | PollNotJson | PollNoDone | JobFaulted.

Inductive exhibits : failure -> net_result -> list net_result -> Prop :=
  | ex_submit_connection polls :
      exhibits SubmitConnection (NetRaises ConnectionError) polls
  | ex_submit_503 r polls :
      status_code r = 503 ->
      exhibits Submit503 (NetResponse r) polls
  | ex_submit_status r polls :
      status_code r <> 503 -> ok r = false ->
      exhibits SubmitStatus (NetResponse r) polls
  | ex_submit_not_json r polls :
      ok r = true -> json_body r = None ->
      exhibits SubmitNotJson (NetResponse r) polls
  | ex_poll_connection r0 pend rest :
      is_Some (accepted_id r0) -> forallb is_pending pend = true ->
      exhibits PollConnection (NetResponse r0)
        ((NetResponse <$> pend) ++ NetRaises ConnectionError :: rest)
  | ex_poll_status r0 pend r rest :
      is_Some (accepted_id r0) -> forallb is_pending pend = true ->
      ok r = false ->
      exhibits PollStatus (NetResponse r0)
        ((NetResponse <$> pend) ++ NetResponse r :: rest)
  | ex_poll_not_json r0 pend r rest :
      is_Some (accepted_id r0) -> forallb is_pending pend = true ->
      ok r = true -> json_body r = None ->
      exhibits PollNotJson (NetResponse r0)
        ((NetResponse <$> pend) ++ NetResponse r :: rest)
  | ex_poll_no_done r0 pend r d rest :
      is_Some (accepted_id r0) -> forallb is_pending pend = true ->
      ok r = true -> json_body r = Some d -> contains "done" d = inr false ->
      exhibits PollNoDone (NetResponse r0)
        ((NetResponse <$> pend) ++ NetResponse r :: rest)
  | ex_job_faulted r0 pend r rest :
      is_Some (accepted_id r0) -> forallb is_pending pend = true ->
      is_done r = true -> faulted_flag r = Some true ->
      exhibits JobFaulted (NetResponse r0)
        ((NetResponse <$> pend) ++ NetResponse r :: rest).

End Adapter.

End Horde.

(* ===================================================================== *)
(** * exllama/class.py: reading a generation off the call log           *)
(* ===================================================================== *)

Module ExLlamaRun.

Import ExLlama.

(** The sequences [_post_token_gen] was called with. *)
Definition hooked (evs : list event) : list (list token) :=
  omap (fun e => match e with EvPostTokenGen s => Some s | _ => None end) evs.

(** The inputs [model.forward] was run on. *)
Definition forwarded (evs : list event) : list (list token) :=
  omap (fun e => match e with EvForward ids => Some ids | _ => None end) evs.

Section Core.
Context `{Eng : Engine}.

(** What a pass of the loop reads of the state. *)
Definition same_core (st1 st2 : state) : Prop :=
  rng st1 = rng st2 /\ sequence st1 = sequence st2 /\ cache st1 = cache st2.

(** [warper.value_is_valid()] for the warper of a sampler id. *)
Definition usable (sid : Z) : bool := value_is_valid (from_id sid).

End Core.

End ExLlamaRun.

(* ===================================================================== *)
(** * horde.py: reading a request off the trace                         *)
(* ===================================================================== *)

Module HordeRun.

Import Horde.

(** The same variables with an empty trace. *)
Definition fresh (w : world) : world := mkWorld (vars w) [].

(** A computation that only appends to the trace: run after any
    trace, it does what it does after the empty one. *)
Definition trace_blind {A} (m : M A) : Prop :=
  forall w, m w = ((m (fresh w)).1,
                   mkWorld (vars (m (fresh w)).2) (trace w ++ trace (m (fresh w)).2)).

(** The variables [_raw_generate] does not write after [lastctx]. *)
Definition same_settings (v v' : koboldai_vars) : Prop :=
  lastctx v' = lastctx v /\ max_length v' = max_length v
  /\ cluster_requested_models v' = cluster_requested_models v.

Definition is_log (e : event) : bool :=
  match e with EvLog _ _ => true | _ => false end.

(** The POSTs of a trace, and the headers of its GETs. *)
Definition posts (evs : list event) : list event :=
  omap (fun e => match e with EvPost _ _ _ => Some e | _ => None end) evs.

Definition get_headers (evs : list event) : list (list (string * string)) :=
  omap (fun e => match e with EvGet _ hs => Some hs | _ => None end) evs.

Definition is_starved {A} (o : outcome A) : bool :=
  match o with Starved => true | _ => false end.

Definition seed_warning : event :=
  EvLog Warning "Seed is unsupported on the APIInferenceModel. Seed will be ignored.".

Section Run.
Context `{H : Host}.

(** What one status answer that is not done leaves in the trace. *)
Definition pending_events (self : model_backend) (rid : value)
    (hs : list (string * string)) (r : response) : list event :=
  [ EvGet (status_url self rid) hs;
    EvLog Debug (py_str (default VNone (json_body r)));
    EvSleep 1 ].

Definition decoded_prompt (p : list token) : string :=
  decodenewlines (tokenizer_decode p).

(** [utils.koboldai_vars] once [lastctx] is stored. *)
Definition with_lastctx (p : list token) (v : koboldai_vars) : koboldai_vars :=
  mkVars (decoded_prompt p) (max_length v) (cluster_requested_models v)
         (horde_wait_time v) (horde_queue_position v) (horde_queue_size v).

(** The POST [_raw_generate] makes. *)
Definition submit_event (self : model_backend) (p : list token) (n : Z)
    (gs : GenerationSettings) (b : Z) (v : koboldai_vars) : event :=
  EvPost (url self +:+ "/api/v2/generate/text/async")
         (cluster_metadata (decoded_prompt p)
            (reqdata n (with_lastctx p v) gs b) (with_lastctx p v))
         [ ("apikey", key self); ("Client-Agent", client_agent) ]%string.

End Run.

End HordeRun.

(* ===================================================================== *)
(** * horde.py: the model menu                                            *)
(* ===================================================================== *)

Module HordeMenu.

Import Horde.
#[local] Open Scope horde_scope.

Section Menu.
Context `{H : Host}.

(** [x['value']] of the comprehension in [is_valid]. *)
Definition entry_value (x : value) : M value := lift (getitem x "value").

(** [is_valid]; [model_path] and [menu_path] are not used.  The list of
    values is built only when the name is not ["CLUSTER"]. *)
Definition is_valid (self : model_backend) (model_name : string) : M bool :=
  log Debug ("Horde Models: " +:+ py_str (models self)) ;;
  if String.eqb model_name "CLUSTER" then ret true
  else
    xs <~ lift (iterate (models self)) ;;
    values <~ mapM entry_value xs ;;
    ret (existsb (is_VStr model_name) values).

(** The names of the engines in the answer of the cluster. *)
Definition engine_names (ens : list value) : list value :=
  omap (fun en => field en "name") ens.

(** The menu entry [get_cluster_models] builds for a name. *)
Definition menu_entry (name : value) : value :=
  VDict (<["text"%string := name]> (<["value"%string := name]> ∅)).

End Menu.
End HordeMenu.

(* ===================================================================== *)
(** * exllama/class.py: validation, configuration and placement           *)
(* ===================================================================== *)

Module ExLlamaHost.

(** ** Values, errors and the platform *)

(** The exceptions of [Py], and [AttributeError], [OverflowError] and
    [MemoryError]. *)
Inductive error : Type :=
  | Exn (e : exn)
  | AttributeError (what : string)
  | OverflowError (what : string)
  | MemoryError.

(** Values the host hands over in [parameters] and keeps in [self.path]
    and [self.model_name]: ints and floats are told apart. *)
Inductive param : Type :=
  | PNone
  | PBool (b : bool)
  | PInt (z : Z)
  | PFloat (q : Q)
  | PStr (s : string)
  | PList (l : list param).

Definition truthy_param (v : param) : bool :=
  match v with
  | PNone => false
  | PBool b => b
  | PInt z => negb (z =? 0)
  | PFloat q => negb (Qeq_bool q 0)
  | PStr s => negb (String.eqb s "")
  | PList l => match l with [] => false | _ => true end
  end.

Record device_map := mkDeviceMap {
  dm_layers : list string;
  dm_lm_head : string;
  dm_norm : string
}.

(** An [ExLlamaConfig] object: the fields the adapter writes, and the
    integer attributes the library read from [config.json] ([attrs],
    looked up by [hasattr] and attribute access). *)
Record config := mkConfig {
  attrs : gmap string Z;
  max_seq_len : Z;
  compress_pos_emb : Q;
  model_path : option string;
  devices : device_map;
  rmsnorm_no_half2 : bool;
  rope_no_half2 : bool;
  matmul_no_half2 : bool;
  silu_no_half2 : bool;
  sdp_thd : Z
}.

(** What [self.model_config] holds: [None], [False] (what
    [_load_config] returns when it finds no directory), a dict, or a
    config object. *)
Inductive slot : Type :=
  | CfgNone
  | CfgFalse
  | CfgDict (d : gmap string Z)
  | CfgObj (c : config).

Definition truthy_slot (s : slot) : bool :=
  match s with
  | CfgNone | CfgFalse => false
  | CfgDict d => negb (bool_decide (d = ∅))
  | CfgObj _ => true
  end.

(** The file system, the ExLlama library, torch, and the [str] methods
    the adapter calls.  [read_json p] is [json.load(open(p, "r"))], with
    [None] when either raises; [ExLlama c] builds the model.
    [maxsize] is [sys.maxsize], the largest index; [list_capacity] is the
    largest number of elements a list can be given on the machine
    (building a longer one ends in [MemoryError]). *)
Class Platform := {
  model_handle : Type;
  read_json : string -> option value;
  glob : string -> list string;
  path_exists : string -> bool;
  ExLlamaConfig : string -> error + config;
  ExLlama : config -> error + model_handle;
  device_count : nat;
  get_device_name : nat -> string;
  torch_hip : option string;
  torch_version : string;
  str_isnumeric : string -> bool;
  str_int : string -> error + Z;
  maxsize : Z;
  list_capacity : Z
}.

(** ** Strings and paths *)

(** [os.path.join(a, b)] (posixpath, two arguments). *)
Definition ends_with_sep (a : string) : bool :=
  match rev (list_ascii_of_string a) with
  | c :: _ => Ascii.eqb c "/"
  | [] => false
  end.

Definition path_join (a b : string) : string :=
  if String.prefix "/" b then b
  else if String.eqb a "" || ends_with_sep a then (a +:+ b)%string
  else (a +:+ "/" +:+ b)%string.

(** [s.replace("/", "_")] *)
Fixpoint replace_slash (s : string) : string :=
  match s with
  | EmptyString => EmptyString
  | String c rest =>
      String (if Ascii.eqb c "/" then "_"%char else c) (replace_slash rest)
  end.

Definition lower_ascii (c : ascii) : ascii :=
  let n := nat_of_ascii c in
  if ((65 <=? n) && (n <=? 90))%nat then ascii_of_nat (n + 32) else c.

(** [s.lower()] on the ASCII letters.  The other letters [str.lower]
    changes do not turn into a letter of ["superhot"], so the test
    below is the one the source makes. *)
Fixpoint lower (s : string) : string :=
  match s with
  | EmptyString => EmptyString
  | String c rest => String (lower_ascii c) (lower rest)
  end.

(** ["superhot" in model_name.lower()] *)
Definition is_superhot (model_name : string) : bool :=
  substring_of "superhot" (lower model_name).

Definition str_nat (n : nat) : string := NilEmpty.string_of_uint (Nat.to_uint n).
Definition str_Z (z : Z) : string := NilEmpty.string_of_int (Z.to_int z).

(** [str(layer_count)] for an int or [None]. *)
Definition str_count (c : option Z) : string :=
  match c with
  | Some z => str_Z z
  | None => "None"%string
  end.

(** ["{}_Layers".format(i)] and [f"cuda:{i}"] *)
Definition layers_key (i : nat) : string := (str_nat i +:+ "_Layers")%string.
Definition cuda (i : nat) : string := ("cuda:" +:+ str_nat i)%string.

(** ** [load_model_gptq_settings] *)

(** [False] for the file is [None].  A [path] that is no [str] makes
    [path + "/config.json"] raise inside the [try], as a file that
    cannot be read does.  The legacy branch also computes a file name
    and a regular-expression match that are never used. *)
Definition load_model_gptq_settings `{Platform} (path : param)
    : error + (bool * option string) :=
  match path with
  | PStr p =>
      match read_json (p +:+ "/config.json")%string with
      | None => inr (false, None)
      | Some js =>
          let gptq_legacy_files := glob (path_join p "4bit*.safetensors") in
          match contains "gptq_bits" js with
          | inl e => inl (Exn e)
          | inr true => inr (true, Some (path_join p "model.safetensors"))
          | inr false =>
              match gptq_legacy_files with
              | f :: _ => inr (true, Some f)
              | [] => inr (false, None)
              end
          end
      end
  | _ => inr (false, None)
  end.

(** ** The adapter object and its methods *)

Record backend `{Platform} := mkBackend {
  model_config : slot;
  model : option model_handle;
  model_name : param;
  path : param;
  layers : list param
}.
Arguments mkBackend {_} _ _ _ _ _.
Arguments model_config {_} _.
Arguments model {_} _.
Arguments model_name {_} _.
Arguments path {_} _.
Arguments layers {_} _.

Declare Scope host_scope.
Delimit Scope host_scope with host.
Notation "x <- m ;; k" :=
  (match m with inl e => inl e | inr x => k end)
  (at level 100, m at next level, right associativity) : host_scope.
#[local] Open Scope host_scope.

Section Methods.
Context `{P : Platform}.

(** [__init__], as far as these methods go ([self.layers] is not set
    before [set_input_parameters]). *)
Definition __init__ : backend := mkBackend CfgNone None (PStr "") PNone [].

(** [unload]: the fields are reset; the tensors of the process are
    emptied and collected, which no field shows. *)
Definition unload (self : backend) : backend :=
  mkBackend CfgNone None (PStr "") PNone (layers self).

Definition superhot_settings (c : config) : config :=
  mkConfig (attrs c) 8192 (Qmake 4 1) (model_path c) (devices c)
           (rmsnorm_no_half2 c) (rope_no_half2 c) (matmul_no_half2 c)
           (silu_no_half2 c) (sdp_thd c).

Definition as_param (p : option string) : param :=
  match p with
  | Some s => PStr s
  | None => PNone
  end.

(** [ExLlamaConfig(os.path.join(dir, "config.json"))] *)
Definition config_in (dir : string) : error + slot :=
  match ExLlamaConfig (path_join dir "config.json") with
  | inl e => inl e
  | inr c => inr (CfgObj c)
  end.

(** [model_path] is a [str] or [None]. *)
Definition _load_config (model_name : string) (model_path : option string)
    : error + slot :=
  let config := CfgFalse in
  config <- (match model_path with
             | Some p => if path_exists p then config_in p else inr config
             | None => inr config
             end) ;;
  let fallback := ("models/" +:+ replace_slash model_name)%string in
  config <- (if negb (truthy_slot config) && path_exists fallback
             then config_in fallback
             else inr config) ;;
  match config with
  | CfgObj c =>
      if is_superhot model_name
      then inr (CfgObj (superhot_settings c))
      else inr config
  | _ => inr config
  end.

(** [is_valid]: the result and the adapter after the call. *)
Definition is_valid (model_name : string) (model_path : option string)
    (self : backend) : (error + bool) * backend :=
  match load_model_gptq_settings (as_param model_path) with
  | inl e => (inl e, self)
  | inr (gptq_model, _) =>
      match _load_config model_name model_path with
      | inl _ => (inr false, self)       (* except: return False *)
      | inr cfg =>
          let self := mkBackend cfg (model self) (ExLlamaHost.model_name self)
                                (path self) (layers self) in
          (inr (truthy_slot cfg && gptq_model), self)
      end
  end.

(** [get_local_model_path]: [self.path or os.path.join("models", ...)]. *)
Definition get_local_model_path (self : backend) : error + param :=
  if truthy_param (path self) then inr (path self)
  else match model_name self with
       | PStr s => inr (PStr (path_join "models" (replace_slash s)))
       | _ => inl (AttributeError "replace")
       end.

Definition set_model_path (gptq_file : option string) (c : config) : config :=
  mkConfig (attrs c) (max_seq_len c) (compress_pos_emb c) gptq_file (devices c)
           (rmsnorm_no_half2 c) (rope_no_half2 c) (matmul_no_half2 c)
           (silu_no_half2 c) (sdp_thd c).

(** [_get_model]: the model and the adapter after the call.  The config
    built when [self.model_config] is not set is dropped. *)
Definition _get_model (location : param) (self : backend)
    : (error + model_handle) * backend :=
  let built :=
    if negb (truthy_slot (model_config self)) then
      match location with
      | PStr l => match ExLlamaConfig (path_join l "config.json") with
                  | inl e => inl e
                  | inr _ => inr tt
                  end
      | _ => inl (Exn (TypeError "expected str, bytes or os.PathLike object"))
      end
    else inr tt in
  match built with
  | inl e => (inl e, self)
  | inr _ =>
      match load_model_gptq_settings location with
      | inl e => (inl e, self)
      | inr (_, gptq_file) =>
          match model_config self with
          | CfgObj c =>
              let c := set_model_path gptq_file c in
              let self := mkBackend (CfgObj c) (model self) (model_name self)
                                    (path self) (layers self) in
              match ExLlama c with
              | inl e => (inl e, self)
              | inr m => (inr m, self)
              end
          | _ => (inl (AttributeError "model_path"), self)
          end
      end
  end.

(** ** [get_requested_parameters] *)

(** [layer_count]: the chain of conditional expressions over
    [self.model_config]. *)
Definition layer_count (cfg : slot) : error + option Z :=
  match cfg with
  | CfgDict d =>
      match d !! "n_layer"%string with
      | Some z => inr (Some z)
      | None => inl (Exn (KeyError "n_layer"))
      end
  | CfgObj c =>
      match attrs c !! "num_layers"%string with
      | Some z => inr (Some z)
      | None =>
          match attrs c !! "n_layer"%string with
          | Some z => inr (Some z)
          | None => inr (attrs c !! "num_hidden_layers"%string)
          end
      end
  | CfgNone | CfgFalse => inr None
  end.

(** The ["check"] entry of a descriptor. *)
Record check := mkCheck {
  check_sum : list string;
  check_value : option Z;
  check_op : string
}.

(** A parameter descriptor.  A key the dict does not have is [None] in
    [d_min], [d_check_message], [d_default] and [d_tooltip]; in [d_max]
    and in the elements of a default, [None] is Python's [None]. *)
Record descriptor := mkDescriptor {
  d_uitype : string;
  d_unit : string;
  d_label : string;
  d_id : string;
  d_min : option Z;
  d_max : option Z;
  d_step : Z;
  d_check : check;
  d_check_message : option string;
  d_default : option (list (option Z));
  d_tooltip : option string;
  d_menu_path : string;
  d_extra_classes : string;
  d_refresh_model_inputs : bool
}.

Definition layers_check (gpu_count : nat) (count : option Z) : check :=
  mkCheck (layers_key <$> seq 0 gpu_count) count "=".

Definition display_entry (gpu_count : nat) (count : option Z) : descriptor :=
  mkDescriptor "Valid Display" "text"
    ("Current Allocated Layers: %1/" +:+ str_count count) "valid_layers"
    None count 1 (layers_check gpu_count count) None None None
    "Layers" "" false.

Definition slider_entry (gpu_count : nat) (count : option Z) (i : nat) : descriptor :=
  mkDescriptor "slider" "int"
    (get_device_name i +:+ " Layers") (layers_key i)
    (Some 0) count 1 (layers_check gpu_count count)
    (Some ("The sum of assigned layers must equal " +:+ str_count count))
    (Some [ if Nat.eqb i 0 then count else Some 0 ])
    (Some ("The number of layers to put on " +:+ get_device_name i +:+ "."))
    "Layers" "" false.

Definition get_requested_parameters (self : backend) : error + list descriptor :=
  let gpu_count := device_count in
  count <- layer_count (model_config self) ;;
  inr (display_entry gpu_count count :: (slider_entry gpu_count count <$> seq 0 gpu_count)).

(** ** [set_input_parameters] *)

(** Methods that change the adapter and may raise part-way. *)
Definition Method (A : Type) : Type := backend -> (error + A) * backend.

Definition sret {A} (a : A) : Method A := fun self => (inr a, self).
Definition sraise {A} (e : error) : Method A := fun self => (inl e, self).
Definition sbind {A B} (m : Method A) (k : A -> Method B) : Method B :=
  fun self =>
    match m self with
    | (inr a, self') => k a self'
    | (inl e, self') => (inl e, self')
    end.
Definition slift {A} (r : error + A) : Method A :=
  match r with
  | inl e => sraise e
  | inr a => sret a
  end.
Definition sget : Method backend := fun self => (inr self, self).
Definition sput (self' : backend) : Method unit := fun _ => (inr tt, self').

Notation "x <~ m ;; k" := (sbind m (fun x => k))
  (at level 100, m at next level, right associativity) : host_scope.
Notation "m ;; k" := (sbind m (fun _ => k))
  (at level 100, right associativity) : host_scope.

(** [parameters[key]] *)
Definition lookup_param (parameters : gmap string param) (key : string)
    : error + param :=
  match parameters !! key with
  | Some v => inr v
  | None => inl (Exn (KeyError key))
  end.

(** The element appended to [layers] for slider [i]. *)
Definition layer_entry (parameters : gmap string param) (i : nat) : error + param :=
  v <- lookup_param parameters (layers_key i) ;;
  match v with
  | PStr s =>
      if str_isnumeric s
      then (z <- str_int s ;; inr (PInt z))
      else inr PNone
  | _ => inr v
  end.

(** The list [layers] built by the first loop. *)
Fixpoint layer_entries (parameters : gmap string param) (idx : list nat)
    : error + list param :=
  match idx with
  | [] => inr []
  | i :: rest =>
      v <- layer_entry parameters i ;;
      vs <- layer_entries parameters rest ;;
      inr (v :: vs)
  end.

(** [l > 0] *)
Definition positive (l : param) : error + bool :=
  match l with
  | PInt z => inr (0 <? z)
  | PBool b => inr b
  | PFloat q => inr (negb (Qle_bool q 0))
  | _ => inl (Exn (TypeError "'>' not supported"))
  end.

(** [l] as the integer that [*] sees: an int, or a bool. *)
Definition int_value (l : param) : option Z :=
  match l with
  | PInt z => Some z
  | PBool b => Some (if b then 1 else 0)
  | _ => None
  end.

(** [[f"cuda:{i}"] * l]: the count has to fit an index ([OverflowError]
    otherwise), a count that is not positive gives the empty list, and
    the list has to be allocated ([MemoryError] otherwise). *)
Definition repeat_device (i : nat) (l : param) : error + list string :=
  match int_value l with
  | Some z =>
      if (maxsize <? z) || (z <? - maxsize - 1)
      then inl (OverflowError "cannot fit 'int' into an index-sized integer")
      else if z <=? 0 then inr []
      else if list_capacity <? z then inl MemoryError
      else inr (replicate (Z.to_nat z) (cuda i))
  | None => inl (Exn (TypeError "can't multiply sequence by non-int"))
  end.

Definition with_config (f : config -> config) : Method unit :=
  fun self =>
    match model_config self with
    | CfgObj c =>
        (inr tt, mkBackend (CfgObj (f c)) (model self) (model_name self)
                           (path self) (layers self))
    | CfgDict _ => (inl (AttributeError "device_map"), self)
    | CfgNone | CfgFalse => (inl (AttributeError "device_map"), self)
    end.

Definition set_layers (ls : list string) (c : config) : config :=
  mkConfig (attrs c) (max_seq_len c) (compress_pos_emb c) (model_path c)
           (mkDeviceMap ls (dm_lm_head (devices c)) (dm_norm (devices c)))
           (rmsnorm_no_half2 c) (rope_no_half2 c) (matmul_no_half2 c)
           (silu_no_half2 c) (sdp_thd c).

(** [self.model_config.device_map.layers.extend(devs)]: the list grows
    in place, which takes room for the longer list. *)
Definition extend_layers (devs : list string) : Method unit :=
  fun self =>
    match model_config self with
    | CfgObj c =>
        let ls := dm_layers (devices c) ++ devs in
        if list_capacity <? Z.of_nat (length ls)
        then (inl MemoryError, self)
        else (inr tt, mkBackend (CfgObj (set_layers ls c)) (model self)
                                (model_name self) (path self) (layers self))
    | CfgDict _ => (inl (AttributeError "device_map"), self)
    | CfgNone | CfgFalse => (inl (AttributeError "device_map"), self)
    end.

Definition set_heads (c : config) : config :=
  mkConfig (attrs c) (max_seq_len c) (compress_pos_emb c) (model_path c)
           (mkDeviceMap (dm_layers (devices c)) "cuda:0" "cuda:0")
           (rmsnorm_no_half2 c) (rope_no_half2 c) (matmul_no_half2 c)
           (silu_no_half2 c) (sdp_thd c).

Definition set_half2 (hip : bool) (c : config) : config :=
  mkConfig (attrs c) (max_seq_len c) (compress_pos_emb c) (model_path c)
           (devices c) hip hip hip hip (sdp_thd c).

Definition set_sdp_thd (z : Z) (c : config) : config :=
  mkConfig (attrs c) (max_seq_len c) (compress_pos_emb c) (model_path c)
           (devices c) (rmsnorm_no_half2 c) (rope_no_half2 c)
           (matmul_no_half2 c) (silu_no_half2 c) z.

(** [for i, l in enumerate(layers): if l > 0: ...extend(...)], from
    index [i] on. *)
Fixpoint place_from (i : nat) (ls : list param) : Method unit :=
  match ls with
  | [] => sret tt
  | l :: rest =>
      pos <~ slift (positive l) ;;
      (if pos : bool then
         devs <~ slift (repeat_device i l) ;;
         extend_layers devs
       else sret tt) ;;
      place_from (S i) rest
  end.

(** [parameters['custom_model_name'] if 'custom_model_name' in parameters
    else parameters['id']] *)
Definition chosen_name (parameters : gmap string param) : error + param :=
  match parameters !! "custom_model_name"%string with
  | Some v => inr v
  | None => lookup_param parameters "id"
  end.

(** [bool(torch.version.hip)] *)
Definition hip_build : bool :=
  match torch_hip with
  | Some v => negb (String.eqb v "")
  | None => false
  end.

Definition set_input_parameters (parameters : gmap string param) : Method unit :=
  let gpu_count := device_count in
  ls <~ slift (layer_entries parameters (seq 0 gpu_count)) ;;
  self <~ sget ;;
  sput (mkBackend (model_config self) (model self) (model_name self) (path self) ls) ;;
  with_config (set_layers []) ;;
  place_from 0 ls ;;
  with_config set_heads ;;
  with_config (set_half2 hip_build) ;;
  (if String.prefix "1." torch_version
   then with_config (set_sdp_thd 0)
   else sret tt) ;;
  name <~ slift (chosen_name parameters) ;;
  self <~ sget ;;
  sput (mkBackend (model_config self) (model self) name (path self) (layers self)) ;;
  self <~ sget ;;
  sput (mkBackend (model_config self) (model self) (model_name self)
                  (default PNone (parameters !! "path"%string)) (layers self)).

(** ** Reading the results *)

Definition superhot_ready (name : string) (c : config) : Prop :=
  is_superhot name = true ->
  max_seq_len c = 8192 /\ compress_pos_emb c = Qmake 4 1.

Definition sliders (ds : list descriptor) : list descriptor := tail ds.

(** The int a slider's default holds ([None] counts as 0). *)
Definition default_layers (d : descriptor) : Z :=
  match d_default d with
  | Some [Some z] => z
  | _ => 0
  end.

(** How many layers a slider value puts on its GPU, for the values the
    placement loop accepts: an int ([bool] included) that, when
    positive, is no larger than [sys.maxsize], or a float that is not
    positive. *)
Definition count_of (l : param) : option nat :=
  match int_value l with
  | Some z => if (0 <? z) && (maxsize <? z) then None else Some (Z.to_nat z)
  | None =>
      match l with
      | PFloat q => if Qle_bool q 0 then Some 0%nat else None
      | _ => None
      end
  end.

(** The layers asked for can be listed after [have] entries: none are
    asked for, or a list holds them all. *)
Definition listable (have : nat) (ns : list nat) : Prop :=
  foldr Nat.add 0%nat ns = 0%nat
  \/ Z.of_nat (have + foldr Nat.add 0%nat ns) <= list_capacity.

(** [n0] entries [cuda:i], then [n1] entries [cuda:(i+1)], ... *)
Fixpoint blocks (i : nat) (ns : list nat) : list string :=
  match ns with
  | [] => []
  | n :: rest => replicate n (cuda i) ++ blocks (S i) rest
  end.

Definition with_cfg (self : backend) (c : config) : backend :=
  mkBackend (CfgObj c) (model self) (model_name self) (path self) (layers self).

(** The configuration after a completed [set_input_parameters]. *)
Definition placed (ns : list nat) (c : config) : config :=
  let c1 := set_half2 hip_build (set_heads (set_layers (blocks 0 ns) c)) in
  if String.prefix "1." torch_version then set_sdp_thd 0 c1 else c1.

End Methods.

End ExLlamaHost.

(* ===================================================================== *)
(** * Small concrete instances                                            *)
(* ===================================================================== *)

Module Fixtures.

Import ExLlama.

(** A seven-token vocabulary with a sentencepiece-like tokenizer:
    [encode] puts the word-boundary marker in front of the text and
    matches the longest vocabulary entry greedily; [decode] of a
    sequence joins the surface forms, turns markers into spaces and
    drops one leading space; [decode] of a bare int gives the surface
    form as it is. *)
Definition toy_vocab : list string :=
  [ "<unk>"; marker +:+ ","; "a"; "b"; "ab"; marker +:+ "a"; marker ]%string.

Definition longer (best : option (Z * string)) (i : Z) (tok : string)
    : option (Z * string) :=
  match best with
  | Some (_, b) => if (String.length b <? String.length tok)%nat
                   then Some (i, tok) else best
  | None => Some (i, tok)
  end.

Fixpoint longest_match (i : Z) (v : list string) (s : string)
    (best : option (Z * string)) : option (Z * string) :=
  match v with
  | [] => best
  | tok :: rest =>
      longest_match (i + 1) rest s
        (if startswith s tok && negb (String.eqb tok "")
         then longer best i tok else best)
  end.

Fixpoint greedy (fuel : nat) (v : list string) (s : string) : list Z :=
  match fuel with
  | O => []
  | S fuel =>
      match s with
      | EmptyString => []
      | String _ tail =>
          match longest_match 0 v s None with
          | Some (i, tok) =>
              i :: greedy fuel v
                     (String.substring (String.length tok)
                        (String.length s - String.length tok) s)
          | None => 0 :: greedy fuel v tail
          end
      end
  end.

Definition toy_encode (text : encode_input unit) (_ : unit) : list Z :=
  match text with
  | TextStr s => let s := (marker +:+ s)%string in greedy (String.length s) toy_vocab s
  | TextOther _ => []
  end.

Definition surface (t : Z) : string :=
  if t <? 0 then ""%string else default ""%string (toy_vocab !! Z.to_nat t).

Fixpoint unmark (fuel : nat) (s : string) : string :=
  match fuel with
  | O => s
  | S fuel =>
      match s with
      | EmptyString => EmptyString
      | String c tail =>
          if startswith s marker
          then String " " (unmark fuel (String.substring 3 (String.length s - 3) s))
          else String c (unmark fuel tail)
      end
  end.

Definition strip_space (s : string) : string :=
  match s with
  | String " " tail => tail
  | _ => s
  end.

Definition toy_decode (ids : token_ids) (_ : unit) : string :=
  match ids with
  | IdsInt t | IdsTensor0 t => surface t
  | IdsTensor l | IdsSeq l =>
      let s := fold_right (fun t acc => (surface t +:+ acc)%string) ""%string l in
      strip_space (unmark (String.length s) s)
  | IdsNone => ""%string
  end.

#[local] Instance toy_tokenizer : Tokenizer := {|
  call_args := unit;
  other_input := unit;
  vocab := toy_vocab;
  original_decode := toy_decode;
  original_encode := toy_encode;
  bos_token_id := 0;
  eos_token_id := 3
|}.

(** An engine whose random state is a counter: each draw yields the
    counter modulo 5 and advances it. *)
#[local] Instance toy_engine : Engine := {|
  tensor := unit;
  cache_t := nat;
  rng_state := Z;
  warper := unit;
  manual_seed := fun s => s;
  prefill := fun _ _ p => length p;
  forward := fun _ c => (tt, S c);
  mask_token := fun t _ => t;
  last_position := fun t => t;
  softmax := fun t => t;
  multinomial := fun _ r => (r mod 5, r + 1);
  from_id := fun _ => tt;
  value_is_valid := fun _ => true;
  is_repetition_penalty := fun _ => false;
  warper_torch := fun _ t _ => t
|}.

Definition toy_state (r : Z) : state := mkState (r : rng_state) [] (0%nat : cache_t) 0 [].

(** A host whose tokenizer encodes a string as its character codes, a
    freshly built adapter, and answers of the cluster in the shape of
    its REST contract. *)
Definition toy_host : Horde.Host := {|
  Horde.py_repr := fun _ => "<value>"%string;
  Horde.tokenizer_decode := fun _ => "prompt"%string;
  Horde.tokenizer_encode := fun v =>
    match v with
    | VStr s => (fun c => Z.of_nat (nat_of_ascii c)) <$> list_ascii_of_string s
    | _ => []
    end;
  Horde.decodenewlines := fun s => s;
  Horde.numpy_ragged := false
|}.

Definition toy_self : Horde.model_backend :=
  Horde.mkBackend "https://horde.koboldai.net" "0000000000" (VList []) false.

Definition toy_settings : Horde.GenerationSettings :=
  Horde.mkSettings (Qmake 11 10) (Qmake 7 10) (Qmake 1024 1) (Qmake 1 2)
                   (Qmake 9 10) (Qmake 40 1) (Qmake 0 1) (Qmake 1 1) (Qmake 1 1).

Definition toy_world : Horde.world :=
  Horde.mkWorld (Horde.mkVars "" 2048 [ "model-a"; "" ]%string VNone VNone VNone) [].

Definition submit_ok : Horde.response :=
  Horde.mkResponse 202 "https://horde.koboldai.net/api/v2/generate/text/async" "{}"
    (Some (VDict (<["id" := VStr "abc"]> ∅))).

Definition generation (t name id : string) : value :=
  VDict (list_to_map
    [ ("text", VStr t); ("worker_name", VStr name); ("worker_id", VStr id) ]%string).

Definition status (done faulted : bool) (position : Z) (gens : list value)
    : Horde.response :=
  Horde.mkResponse 200 "https://horde.koboldai.net/api/v2/generate/text/status/abc" "{}"
    (Some (VDict (list_to_map
      [ ("done", VBool done); ("faulted", VBool faulted);
        ("wait_time", Horde.int (2 * position));
        ("queue_position", Horde.int position);
        ("waiting", Horde.int 1); ("generations", VList gens) ]%string))).

(** A done and faulted status answer without the telemetry fields. *)
Definition status_bare_fault : Horde.response :=
  Horde.mkResponse 200 "https://horde.koboldai.net/api/v2/generate/text/status/abc"
    "{}" (Some (VDict (list_to_map [ ("done", VBool true); ("faulted", VBool true) ]%string))).

(** A status answer whose JSON object has no [done] field. *)
Definition status_without_done : Horde.response :=
  Horde.mkResponse 200 "https://horde.koboldai.net/api/v2/generate/text/status/abc"
    "{}" (Some (VDict (<["message" := VStr "not found"]> ∅))).

(** An answer to the POST with the given status and a body that is not JSON. *)
Definition respond (code : Z) (body : string) : Horde.response :=
  Horde.mkResponse code "https://horde.koboldai.net/api/v2/generate/text/async" body None.

(** Answers to the discovery GET: a model list, and an error object. *)
Definition models_ok : Horde.response :=
  Horde.mkResponse 200 "https://horde.koboldai.net/api/v2/status/models?type=text" "[..]"
    (Some (VList [ VDict (list_to_map [ ("name", VStr "m1"); ("count", Horde.int 2) ]%string) ])).

Definition models_error (code : Z) : Horde.response :=
  Horde.mkResponse code "https://horde.koboldai.net/api/v2/status/models?type=text" "{..}"
    (Some (VDict (<["message" := VStr "maintenance"]> ∅))).

Definition status_abc : string :=
  "https://horde.koboldai.net/api/v2/generate/text/status/abc".

End Fixtures.

Module LoopFixtures.
Import ExLlama.

(** An engine whose scores are one number: warper [sid] adds [sid],
    ids 10 and above are switched off, and the ids ending in 6 are the
    repetition penalty, which subtracts the number of input ids. *)
Definition scoring_engine : Engine := {|
  tensor := Z;
  cache_t := nat;
  rng_state := Z;
  warper := Z;
  manual_seed := fun s => s;
  prefill := fun _ _ p => length p;
  forward := fun ids c => (Z.of_nat c, S c);
  mask_token := fun t _ => t;
  last_position := fun t => t;
  softmax := fun t => t;
  multinomial := fun t r => ((t + r) mod 5, r + 1);
  from_id := fun sid => sid;
  value_is_valid := fun w => w <? 10;
  is_repetition_penalty := fun w => w mod 10 =? 6;
  warper_torch := fun w t ids =>
    match ids with
    | Some l => t - Z.of_nat (length l)
    | None => t + w
    end
|}.

End LoopFixtures.

Module HordeFixtures.

Import Horde Fixtures.

(** Two status answers that are not done and a done one with one
    generation; an engine list with an entry that has no name. *)
Definition toy_polls : list net_result :=
  (NetResponse <$> [ status false false 2 []; status false false 1 [] ])
    ++ NetResponse (status true false 0 [ generation "hi" "w1" "id1" ]) :: [].


End HordeFixtures.

Module HostFixtures.
Import ExLlamaHost.

(** A machine with two GPUs and three model directories: one with a
    [gptq_bits] entry in [config.json], one with a legacy weights file,
    one whose [config.json] holds a number. *)
Definition toy_config : config :=
  mkConfig {[ "num_hidden_layers"%string := 32 ]} 2048 1 None
           (mkDeviceMap ["cpu"%string] "cpu" "cpu") false false false false 8.

Definition toy_read_json (p : string) : option value :=
  if String.eqb p "models/llama-superhot/config.json"
  then Some (VDict {[ "gptq_bits"%string := VNum 4 ]})
  else if String.eqb p "models/legacy/config.json" then Some (VDict ∅)
  else if String.eqb p "models/broken/config.json" then Some (VNum 3)
  else None.

Definition toy_glob (pattern : string) : list string :=
  if String.eqb pattern "models/legacy/4bit*.safetensors"
  then ["models/legacy/4bit-128g.safetensors"%string]
  else [].

Definition toy_path_exists (p : string) : bool :=
  String.eqb p "models/llama-superhot" || String.eqb p "models/legacy"
  || String.eqb p "models/broken".

Definition toy_ExLlamaConfig (p : string) : error + config :=
  match toy_read_json p with
  | Some (VDict _) => inr toy_config
  | _ => inl (Exn (ValueError "config.json"))
  end.

Definition is_digit (c : ascii) : bool :=
  let n := nat_of_ascii c in ((48 <=? n) && (n <=? 57))%nat.

Definition toy_isnumeric (s : string) : bool :=
  negb (String.eqb s "") && forallb is_digit (list_ascii_of_string s).

Definition toy_int (s : string) : error + Z :=
  match NilEmpty.uint_of_string s with
  | Some u => inr (Z.of_nat (Nat.of_uint u))
  | None => inl (Exn (ValueError "invalid literal for int()"))
  end.

Definition toy_platform : Platform :=
  {| model_handle := config;
     read_json := toy_read_json;
     glob := toy_glob;
     path_exists := toy_path_exists;
     ExLlamaConfig := toy_ExLlamaConfig;
     ExLlama := fun c => inr c;
     device_count := 2;
     get_device_name := fun i => ("GPU " +:+ str_nat i)%string;
     torch_hip := None;
     torch_version := "2.0.1";
     str_isnumeric := toy_isnumeric;
     str_int := toy_int;
     maxsize := 9223372036854775807;
     list_capacity := 1152921504606846975 |}.

Definition toy_backend : @backend toy_platform :=
  @mkBackend toy_platform (CfgObj toy_config) None (PStr "legacy") PNone [].

Definition toy_descriptors : list descriptor :=
  match @get_requested_parameters toy_platform toy_backend with
  | inr ds => ds
  | inl _ => []
  end.

Definition toy_int_parameters : gmap string param :=
  {[ "0_Layers"%string := PInt 30; "1_Layers"%string := PInt 2;
     "id"%string := PStr "legacy" ]}.


Definition toy_parameters : gmap string param :=
  {[ "0_Layers"%string := PStr "20"; "1_Layers"%string := PInt 12;
     "id"%string := PStr "llama-superhot";
     "path"%string := PStr "models/llama-superhot" ]}.

End HostFixtures.

(* ===================================================================== *)
(** * Properties of exllama/class.py                                      *)
(* ===================================================================== *)

Module ExLlamaProps.

Import ExLlama.

(** ** The decode wrapper *)

Lemma elem_of_prefix_space_from (v : list string) (i t : Z) :
  t ∈ prefix_space_from i v <->
  exists (n : nat) (tok : string),
    v !! n = Some tok /\ t = i + Z.of_nat n /\ startswith tok marker = true.
Proof.
  revert i. induction v as [|tok rest IH]; intros i; simpl.
  - split; [intros Hin; set_solver | intros (n & tk & Hl & _); by destruct n].
  - destruct (startswith tok marker) eqn:Hs.
    + rewrite elem_of_union, elem_of_singleton, IH. split.
      * intros [-> | (n & tk & Hl & -> & Hm)].
        -- exists 0%nat, tok. split; [done | split; [lia | done]].
        -- exists (S n), tk. split; [done | split; [lia | done]].
      * intros ([|n] & tk & Hl & -> & Hm).
        -- left. lia.
        -- right. exists n, tk. split; [done | split; [lia | done]].
    + rewrite IH. split.
      * intros (n & tk & Hl & -> & Hm).
        exists (S n), tk. split; [done | split; [lia | done]].
      * intros ([|n] & tk & Hl & -> & Hm).
        -- simpl in Hl. congruence.
        -- exists n, tk. split; [done | split; [lia | done]].
Qed.

Lemma has_prefix_space_spec `{Tokenizer} (n : nat) (tok : string) :
  vocab !! n = Some tok ->
  (Z.of_nat n ∈ has_prefix_space <-> startswith tok marker = true).
Proof.
  intros Hl. unfold has_prefix_space. rewrite elem_of_prefix_space_from. split.
  - intros (m & tk & Hm & Heq & Hs).
    assert (m = n) as -> by lia. congruence.
  - intros Hs. exists n, tok. split; [done | split; [lia | done]].
Qed.

(** C9. With the decode wrapper installed, for every vocabulary token
    id [t] (the [n]-th entry [tok] of the vocabulary), decoding the
    scalar [t] and decoding the one-element sequence [[t]] give the
    same string; when the surface form [tok] begins with the
    word-boundary marker that string is the library's decoding of
    [[t]] with one space put in front, and otherwise it is the
    library's decoding of [[t]] as it is. *)
Theorem decode_wrapper_scalar_matches_singleton `{Tokenizer}
    (n : nat) (tok : string) (args : call_args) :
  vocab !! n = Some tok ->
  let t := Z.of_nat n in
  decode_wrapper (IdsInt t) args = decode_wrapper (IdsSeq [t]) args
  /\ (startswith tok marker = true ->
      decode_wrapper (IdsInt t) args
      = (" " +:+ original_decode (IdsSeq [t]) args)%string)
  /\ (startswith tok marker = false ->
      decode_wrapper (IdsInt t) args = original_decode (IdsSeq [t]) args).
Proof.
  intros Hl t. pose proof (has_prefix_space_spec n tok Hl) as Hspec.
  fold t in Hspec. split; [reflexivity |]. unfold decode_wrapper. simpl.
  split; intros Hs.
  - rewrite bool_decide_eq_true_2; [done | by apply Hspec].
  - rewrite bool_decide_eq_false_2; [done |].
    intros Hin. apply Hspec in Hin. congruence.
Qed.

Lemma decode_wrapper_scalar_matches_singleton_witness :
  Fixtures.toy_vocab !! 5%nat = Some (marker +:+ "a")%string
  /\ @decode_wrapper Fixtures.toy_tokenizer (IdsInt 5) tt = " a"%string
  /\ @decode_wrapper Fixtures.toy_tokenizer (IdsSeq [5]) tt = " a"%string.
Proof.
  split; [reflexivity |].
  pose proof (@decode_wrapper_scalar_matches_singleton Fixtures.toy_tokenizer
                5%nat (marker +:+ "a")%string tt eq_refl) as Hw.
  cbv zeta in Hw. change (Z.of_nat 5) with 5 in Hw.
  destruct Hw as (Heq & Hsp & _).
  split.
  - rewrite Hsp; reflexivity.
  - rewrite <- Heq, Hsp; reflexivity.
Defined.

(** ** The encode wrapper *)

Lemma encode_wrapper_str `{Tokenizer} (s : string) (args : call_args) :
  encode_wrapper (TextStr s) args
  = drop 1 (original_encode (TextStr ("," +:+ s)) args).
Proof. reflexivity. Qed.

Lemma encode_wrapper_other `{Tokenizer} (x : other_input) (args : call_args) :
  encode_wrapper (TextOther x) args = original_encode (TextOther x) args.
Proof. reflexivity. Qed.

Lemma prefix_drop {A} (k : nat) (l1 l2 : list A) :
  l1 `prefix_of` l2 -> drop k l1 `prefix_of` drop k l2.
Proof.
  intros [rest ->]. rewrite drop_app.
  apply prefix_app_r. reflexivity.
Qed.

(** C4, as stated, fails: with the toy tokenizer, whose vocabulary
    holds [a], [b] and the merged [ab], the wrapped encoding of
    ["a" + "b"] is the single token [ab] and does not begin with the
    wrapped encoding [a] of ["a"]. *)
Lemma encode_wrapper_not_prefix_stable :
  ~ (@encode_wrapper Fixtures.toy_tokenizer (TextStr "a") tt
       `prefix_of`
     @encode_wrapper Fixtures.toy_tokenizer (TextStr ("a" +:+ "b")) tt).
Proof.
  change (~ ([2] `prefix_of` [4])).
  intros [rest Heq]. simpl in Heq. congruence.
Qed.

(** C4, amended.  With the encode wrapper installed, the wrapped
    encoding of a string [s] is the library's encoding of ["," + s]
    without its first token; for strings [s1], [s2] such that the
    library's encoding of ["," + s1 + s2] begins with its encoding of
    ["," + s1], the wrapped encoding of [s1 + s2] begins with the
    wrapped encoding of [s1]. *)
Theorem encode_wrapper_prefix_stable_when_library_is `{Tokenizer}
    (s1 s2 : string) (args : call_args) :
  original_encode (TextStr ("," +:+ s1)) args
    `prefix_of` original_encode (TextStr ("," +:+ (s1 +:+ s2))) args ->
  encode_wrapper (TextStr s1) args
    = drop 1 (original_encode (TextStr ("," +:+ s1)) args)
  /\ encode_wrapper (TextStr s1) args
       `prefix_of` encode_wrapper (TextStr (s1 +:+ s2)) args.
Proof.
  intros Hpre. split; [reflexivity |].
  rewrite !encode_wrapper_str. by apply prefix_drop.
Qed.

Lemma encode_wrapper_prefix_stable_when_library_is_witness :
  @encode_wrapper Fixtures.toy_tokenizer (TextStr "a") tt = [2]
  /\ @encode_wrapper Fixtures.toy_tokenizer (TextStr "a,") tt = [2; 0]
  /\ @encode_wrapper Fixtures.toy_tokenizer (TextStr "a") tt
       `prefix_of` @encode_wrapper Fixtures.toy_tokenizer (TextStr ("a" +:+ ",")) tt.
Proof.
  split; [reflexivity | split; [reflexivity |]].
  apply (@encode_wrapper_prefix_stable_when_library_is
           Fixtures.toy_tokenizer "a" "," tt).
  exists [0]. reflexivity.
Defined.

(** ** The sampling loop *)

Section Loop.
Context `{Tok : Tokenizer} `{Eng : Engine}.
Variable sampler_order : list Z.

#[local] Abbreviation loop_body := (loop_body sampler_order).
#[local] Abbreviation gen_loop := (gen_loop sampler_order).
#[local] Abbreviation run := (run sampler_order).
#[local] Abbreviation sampled := (sampled sampler_order).
#[local] Abbreviation _raw_generate := (_raw_generate sampler_order).

Lemma loop_body_sequence gen_in st :
  sequence (loop_body gen_in st).2 = sequence st ++ [(loop_body gen_in st).1].
Proof.
  unfold loop_body.
  destruct (forward _ _) as [logits c']. simpl.
  destruct (multinomial _ _) as [tok r']. reflexivity.
Qed.

Lemma loop_body_accepted gen_in st :
  accepted (events (loop_body gen_in st).2)
  = accepted (events st) ++ [(loop_body gen_in st).1].
Proof.
  unfold loop_body.
  destruct (forward _ _) as [logits c']. simpl.
  destruct (multinomial _ _) as [tok r']. simpl.
  unfold accepted. rewrite !omap_app. simpl.
  rewrite !app_nil_r. reflexivity.
Qed.

Lemma loop_body_counter gen_in st :
  generated_tkns (loop_body gen_in st).2 = generated_tkns st + 1.
Proof.
  unfold loop_body.
  destruct (forward _ _) as [logits c']. simpl.
  destruct (multinomial _ _) as [tok r']. reflexivity.
Qed.

Lemma sampled_length n gen_in st : length (sampled n gen_in st) = n.
Proof. revert st. induction n as [|n IH]; intros st; simpl; [done | by rewrite IH]. Qed.

Lemma run_sequence n gen_in st :
  sequence (run n gen_in st) = sequence st ++ sampled n gen_in st.
Proof.
  revert st. induction n as [|n IH]; intros st; simpl.
  - by rewrite app_nil_r.
  - rewrite IH, loop_body_sequence, <- app_assoc. reflexivity.
Qed.

Lemma run_accepted n gen_in st :
  accepted (events (run n gen_in st)) = accepted (events st) ++ sampled n gen_in st.
Proof.
  revert st. induction n as [|n IH]; intros st; simpl.
  - by rewrite app_nil_r.
  - rewrite IH, loop_body_accepted, <- app_assoc. reflexivity.
Qed.

Lemma sampled_take n m gen_in st :
  (m <= n)%nat -> sampled m gen_in st = take m (sampled n gen_in st).
Proof.
  revert m st. induction n as [|n IH]; intros [|m] st Hle; simpl; try done; [lia |].
  f_equal. apply IH. lia.
Qed.

(** Without an end-of-sequence draw the loop makes all its passes. *)
Lemma gen_loop_no_eos n gen_in st :
  Forall (fun t => t <> eos_token_id) (sampled n gen_in st) ->
  gen_loop n gen_in st = run n gen_in st.
Proof.
  revert st. induction n as [|n IH]; intros st Hall; simpl; [done |].
  simpl in Hall. apply Forall_cons in Hall as [Hne Hall].
  destruct (loop_body gen_in st) as [tok st'] eqn:Hb. simpl in *.
  destruct (Z.eqb_spec tok eos_token_id) as [->|_]; [done |].
  by apply IH.
Qed.

(** The loop stops right after the pass that first draws the
    end-of-sequence token. *)
Lemma gen_loop_first_eos n j gen_in st :
  sampled n gen_in st !! j = Some eos_token_id ->
  Forall (fun t => t <> eos_token_id) (take j (sampled n gen_in st)) ->
  gen_loop n gen_in st = run (S j) gen_in st.
Proof.
  revert j st. induction n as [|n IH]; intros j st Hj Hall; simpl in *; [done |].
  destruct (loop_body gen_in st) as [tok st'] eqn:Hb. simpl in *.
  destruct j as [|j]; simpl in *.
  - injection Hj as ->. by rewrite Z.eqb_refl.
  - apply Forall_cons in Hall as [Hne Hall].
    destruct (Z.eqb_spec tok eos_token_id) as [->|_]; [done |].
    by apply IH.
Qed.

Lemma gen_begin_reuse_sequence gen_in st :
  sequence (gen_begin_reuse gen_in st) = gen_in.
Proof. reflexivity. Qed.

Lemma gen_begin_reuse_accepted gen_in st :
  accepted (events (gen_begin_reuse gen_in st)) = accepted (events st).
Proof.
  unfold gen_begin_reuse, emit_event, accepted. simpl.
  rewrite omap_app. simpl. by rewrite app_nil_r.
Qed.

Lemma seeded_accepted seed st :
  accepted (events (seeded seed st)) = accepted (events st).
Proof.
  unfold seeded. destruct seed as [s|]; [|done].
  destruct (truthy_opt_int (Some s)); [|done].
  unfold seed_rng, emit_event, accepted. simpl.
  rewrite omap_app. simpl. by rewrite app_nil_r.
Qed.

(** The result and the final state of [_raw_generate] in terms of the
    state the loop leaves. *)
Lemma raw_generate_unfold prompt_tokens max_new single batch_count seed st :
  let final := gen_loop (Z.to_nat max_new) prompt_tokens
                 (gen_begin_reuse prompt_tokens (seeded seed st)) in
  _raw_generate prompt_tokens max_new single batch_count seed st
  = (mkResult [drop (length prompt_tokens) (sequence final)] prompt_tokens true single,
     mkState (rng final) (sequence final) (cache final) max_new (events final)).
Proof. reflexivity. Qed.

(** C2. For every call of [_raw_generate] with requested count
    [max_new], the shared counter [generated_tkns] equals [max_new]
    on exit, whatever the loop did (all passes made, or an early stop on
    the end-of-sequence token). *)
Theorem raw_generate_reports_max_new
    (prompt_tokens : list token) (max_new : Z) (single : bool)
    (batch_count : Z) (seed : option Z) (st : state) :
  generated_tkns
    (_raw_generate prompt_tokens max_new single batch_count seed st).2
  = max_new.
Proof. rewrite raw_generate_unfold. reflexivity. Qed.

(** Seeding: a seed other than [0] re-seeds the generator before the
    prompt is fed, and [None] leaves it alone. *)
Lemma seeded_nonzero (s : Z) (st : state) :
  s <> 0 ->
  rng (seeded (Some s) st) = manual_seed s
  /\ events (seeded (Some s) st) = events st ++ [EvManualSeed s].
Proof.
  intros Hs. unfold seeded, truthy_opt_int.
  destruct (Z.eqb_spec s 0) as [->|_]; [done |]. simpl. done.
Qed.

(** C3 fails at seed [0]: [if seed:] takes [0] for no seed, so a call
    with [seed = 0] is the call with [seed = None]; the generator is
    not re-seeded and no [torch.manual_seed] call is made. *)
Theorem raw_generate_seed_zero_is_no_seed
    (prompt_tokens : list token) (max_new : Z) (single : bool)
    (batch_count : Z) (st : state) :
  _raw_generate prompt_tokens max_new single batch_count (Some 0) st
  = _raw_generate prompt_tokens max_new single batch_count None st
  /\ rng (seeded (Some 0) st) = rng st
  /\ events (seeded (Some 0) st) = events st.
Proof. repeat split. Qed.

(** C5. For [_raw_generate] with [max_new = N >= 0], let [draws] be the
    tokens the sampler yields over [N] passes from the primed state.
    If no draw is the end-of-sequence token, the returned suffix is all
    [N] draws.  If the [k]-th draw (steps counted from 1; [k <= N],
    which covers [k < N]) is the first end-of-sequence token, the loop
    stops right after that pass: exactly [k] tokens were accepted, the
    suffix is the first [k] draws, it ends in the end-of-sequence token
    and has length [k]. *)
Theorem raw_generate_suffix_length
    (prompt_tokens : list token) (max_new : Z) (single : bool)
    (batch_count : Z) (seed : option Z) (st : state) :
  0 <= max_new ->
  let draws := sampled (Z.to_nat max_new) prompt_tokens
                 (gen_begin_reuse prompt_tokens (seeded seed st)) in
  let res := (_raw_generate prompt_tokens max_new single batch_count seed st).1 in
  let st' := (_raw_generate prompt_tokens max_new single batch_count seed st).2 in
  (Forall (fun t => t <> eos_token_id) draws ->
     out_batches res = [draws]
     /\ Z.of_nat (length draws) = max_new
     /\ accepted (events st') = accepted (events st) ++ draws)
  /\ (forall k : nat,
        (1 <= k)%nat -> Z.of_nat k <= max_new ->
        draws !! (k - 1)%nat = Some eos_token_id ->
        Forall (fun t => t <> eos_token_id) (take (k - 1) draws) ->
        exists suffix,
          out_batches res = [suffix]
          /\ suffix = take k draws
          /\ length suffix = k
          /\ last suffix = Some eos_token_id
          /\ accepted (events st') = accepted (events st) ++ suffix).
Proof.
  intros Hn draws res st'. subst res st'. rewrite raw_generate_unfold. simpl.
  set (start := gen_begin_reuse prompt_tokens (seeded seed st)) in *.
  assert (Hacc : accepted (events start) = accepted (events st)).
  { subst start. by rewrite gen_begin_reuse_accepted, seeded_accepted. }
  split.
  - intros Hall. rewrite (gen_loop_no_eos _ _ _ Hall).
    rewrite run_sequence, run_accepted, Hacc. fold draws.
    subst start. rewrite gen_begin_reuse_sequence, drop_app_length.
    repeat split. subst draws. rewrite sampled_length. lia.
  - intros k Hk Hlt Hat Hbefore.
    assert (Hkn : (k <= Z.to_nat max_new)%nat) by lia.
    rewrite (gen_loop_first_eos _ (k - 1) _ _ Hat Hbefore).
    replace (S (k - 1)) with k by lia.
    rewrite run_sequence, run_accepted, Hacc.
    rewrite (sampled_take (Z.to_nat max_new) k _ _ Hkn). fold draws.
    subst start. rewrite gen_begin_reuse_sequence, drop_app_length.
    exists (take k draws).
    assert (Hlen : length (take k draws) = k).
    { rewrite length_take. subst draws. rewrite sampled_length. lia. }
    repeat split; try done.
    rewrite last_lookup, Hlen.
    replace (Init.Nat.pred k) with (k - 1)%nat by lia.
    rewrite lookup_take_lt by lia. done.
Qed.

End Loop.

(** The loop on the toy engine (draws count up modulo 5, the
    end-of-sequence token is 3): from seed 1 with [max_new = 2] both
    draws are kept; with [max_new = 5] the third draw stops the loop. *)
Lemma raw_generate_suffix_length_witness :
  out_batches (@_raw_generate Fixtures.toy_tokenizer Fixtures.toy_engine
                 [0] [7; 8] 2 false 1 (Some 1) (Fixtures.toy_state 0)).1 = [[1; 2]]
  /\ exists suffix,
       out_batches (@_raw_generate Fixtures.toy_tokenizer Fixtures.toy_engine
                      [0] [7; 8] 5 false 1 (Some 1) (Fixtures.toy_state 0)).1 = [suffix]
       /\ length suffix = 3%nat
       /\ last suffix = Some 3.
Proof.
  split.
  - destruct (@raw_generate_suffix_length Fixtures.toy_tokenizer Fixtures.toy_engine
                [0] [7; 8] 2 false 1 (Some 1) (Fixtures.toy_state 0) ltac:(lia))
      as [Hfull _].
    destruct Hfull as (Hout & _).
    + vm_compute. repeat constructor; discriminate.
    + exact Hout.
  - destruct (@raw_generate_suffix_length Fixtures.toy_tokenizer Fixtures.toy_engine
                [0] [7; 8] 5 false 1 (Some 1) (Fixtures.toy_state 0) ltac:(lia))
      as [_ Hstop].
    destruct (Hstop 3%nat ltac:(lia) ltac:(lia)) as (suffix & Hout & _ & Hlen & Hlast & _).
    + reflexivity.
    + vm_compute. repeat constructor; discriminate.
    + exists suffix. auto.
Defined.

(** Seed [0] on the toy engine: the draws continue from the generator's
    current state 4 ([4; 0]); a re-seeded generator would yield [0; 1]. *)
Example raw_generate_seed_zero_toy :
  out_batches (@_raw_generate Fixtures.toy_tokenizer Fixtures.toy_engine
                 [0] [7; 8] 2 false 1 (Some 0) (Fixtures.toy_state 4)).1 = [[4; 0]]
  /\ out_batches (@_raw_generate Fixtures.toy_tokenizer Fixtures.toy_engine
                    [0] [7; 8] 2 false 1 (Some 5) (Fixtures.toy_state 4)).1 = [[0; 1]].
Proof. split; reflexivity. Qed.

End ExLlamaProps.

(* ===================================================================== *)
(** * Properties of horde.py                                              *)
(* ===================================================================== *)

Module HordeProps.

Import Horde.
#[local] Open Scope horde_scope.

(** One step of evaluation of a monadic term applied to a world. *)
Ltac mstep :=
  cbn [bind ret raise starve catch lift record log log_status sleep
       get_vars set_vars requests_get requests_post json
       fst snd vars trace is_ConnectionError].

Section Protocol.
Context `{H : Host}.

#[local] Abbreviation agent_headers := ([ ("Client-Agent", client_agent) ]%string).

(** ** Monad and value lemmas *)

Lemma bind_returns {A B} (m : M A) (k : A -> M B) w a w' :
  m w = (Returns a, w') -> bind m k w = k a w'.
Proof. unfold bind. by intros ->. Qed.

Lemma field_getitem d k v : field d k = Some v -> getitem d k = inr v.
Proof. destruct d; simpl; try done. by intros ->. Qed.

Lemma polling_app e1 e2 : polling (e1 ++ e2) = polling e1 ++ polling e2.
Proof. unfold polling. apply omap_app. Qed.

Lemma ok_not_503 r : ok r = true -> (status_code r =? 503) = false.
Proof. unfold ok. intros Hok. apply Z.eqb_neq. lia. Qed.

(** ** Reading responses *)

Lemma status_fields_inv r d dn wt qp qs :
  status_fields r = Some (d, dn, wt, qp, qs) ->
  ok r = true /\ json_body r = Some d /\ contains "done" d = inr true /\
  getitem d "done" = inr dn /\ getitem d "wait_time" = inr wt /\
  getitem d "queue_position" = inr qp /\ getitem d "waiting" = inr qs.
Proof.
  unfold status_fields. destruct (ok r); [|done].
  destruct (json_body r) as [d'|]; [|done]. simpl.
  destruct d' as [| | | | |kv]; simpl; try done.
  destruct (kv !! "done"%string) as [dn'|] eqn:Hd; [|done]. simpl.
  destruct (kv !! "wait_time"%string) as [wt'|] eqn:Hw; [|done]. simpl.
  destruct (kv !! "queue_position"%string) as [qp'|] eqn:Hq; [|done]. simpl.
  destruct (kv !! "waiting"%string) as [qs'|] eqn:Hs; [|done]. simpl.
  intros [= <- <- <- <- <-]. simpl. rewrite Hd, Hw, Hq, Hs.
  repeat split; try done.
Qed.

Lemma accepted_id_inv r rid :
  accepted_id r = Some rid ->
  (status_code r =? 503) = false /\ ok r = true /\
  exists d, json_body r = Some d /\ getitem d "id" = inr rid.
Proof.
  unfold accepted_id. destruct (status_code r =? 503); [done|].
  destruct (ok r); [|done]. destruct (json_body r) as [d|]; [|done]. simpl.
  intros Hf. repeat split. exists d. split; [done|].
  destruct d; simpl in *; try done. by rewrite Hf.
Qed.

Lemma faulted_flag_inv r b :
  faulted_flag r = Some b ->
  exists d f, json_body r = Some d /\ field d "faulted" = Some f /\ truthy f = b.
Proof.
  unfold faulted_flag. destruct (json_body r) as [d|]; [|done].
  cbn [mbind option_bind].
  destruct (field d "faulted") as [f|] eqn:Hf; [|done].
  intros [= <-]. by exists d, f.
Qed.

Lemma generations_of_inv r gens :
  generations_of r = Some gens ->
  exists d, json_body r = Some d /\ field d "generations" = Some (VList gens).
Proof.
  unfold generations_of. destruct (json_body r) as [d|]; [|done].
  cbn [mbind option_bind].
  destruct (field d "generations") as [g|] eqn:Hg; [|done].
  destruct g; try done. intros [= <-]. by exists d.
Qed.

Lemma is_generation_inv g :
  is_generation g = true ->
  exists nm id, getitem g "worker_name" = inr nm /\ getitem g "worker_id" = inr id
                /\ getitem g "text" = inr (generation_text g).
Proof.
  unfold is_generation, generation_text.
  intros [[Hn%bool_decide_eq_true Hi%bool_decide_eq_true]%andb_prop
          Ht%bool_decide_eq_true]%andb_prop.
  destruct Hn as [nm Hn], Hi as [id Hi], Ht as [t Ht].
  exists nm, id. rewrite Ht. simpl. repeat split; by apply field_getitem.
Qed.

(** ** Submission *)

Lemma submit_connection self p n gs b seed w :
  exists w', submit_request self p n gs b seed (NetRaises ConnectionError) w
             = (Raises (HordeException msg_unavailable), w').
Proof. unfold submit_request. destruct seed; eexists; mstep; reflexivity. Qed.

Lemma submit_503 self p n gs b seed r w :
  status_code r = 503 ->
  exists w', submit_request self p n gs b seed (NetResponse r) w
             = (Raises (HordeException msg_no_servers), w').
Proof.
  intros Hs. unfold submit_request.
  destruct seed; eexists; mstep; rewrite Hs; cbn [Z.eqb Pos.eqb]; mstep; reflexivity.
Qed.

Lemma submit_status self p n gs b seed r w :
  status_code r <> 503 -> ok r = false ->
  exists w', submit_request self p n gs b seed (NetResponse r) w
             = (Raises (HordeException msg_no_standard_reply), w')
         /\ EvLog Error (text r) ∈ trace w'.
Proof.
  intros Hs Hok. apply Z.eqb_neq in Hs. unfold submit_request.
  destruct seed; eexists; mstep; rewrite Hs, Hok; cbn [negb]; mstep;
    (split; [reflexivity | set_solver]).
Qed.

Lemma submit_not_json self p n gs b seed r w :
  ok r = true -> json_body r = None ->
  exists w', submit_request self p n gs b seed (NetResponse r) w
             = (Raises (HordeException (msg_unexpected_submit (text r))), w').
Proof.
  intros Hok Hj. pose proof (ok_not_503 r Hok) as Hs. unfold submit_request.
  destruct seed; eexists; mstep; rewrite Hs, Hok; cbn [negb]; unfold json;
    rewrite Hj; mstep; reflexivity.
Qed.

Lemma submit_accepted self p n gs b seed r rid w :
  accepted_id r = Some rid ->
  exists w', submit_request self p n gs b seed (NetResponse r) w = (Returns rid, w')
             /\ polling (trace w') = polling (trace w).
Proof.
  intros (Hs & Hok & d & Hj & Hid)%accepted_id_inv. unfold submit_request.
  destruct seed; eexists; mstep; rewrite Hs, Hok; cbn [negb]; unfold json;
    rewrite Hj; mstep; rewrite Hid; mstep; (split; [reflexivity|]); cbn [trace];
    rewrite !polling_app; cbn; by rewrite ?app_nil_r.
Qed.

(** ** The polling loop *)

(** A status answer with the job not done: one GET, the telemetry, one
    log line, one second of sleep, and the loop goes on. *)
Lemma poll_loop_pending self rid hs r rest w :
  is_pending r = true ->
  exists w',
    poll_loop self rid hs (NetResponse r :: rest) w = poll_loop self rid hs rest w'
    /\ exists d, json_body r = Some d /\
       trace w' = trace w ++ [EvGet (status_url self rid) hs;
                              EvLog Debug (py_str d); EvSleep 1].
Proof.
  unfold is_pending.
  destruct (status_fields r) as [[[[[d dn] wt] qp] qs]|] eqn:Hf; [|done].
  intros Hp. apply status_fields_inv in Hf as (Hok & Hj & Hc & Hdn & Hwt & Hqp & Hqs).
  eexists. split.
  - cbn [poll_loop]. mstep. rewrite Hok. cbn [negb]. unfold json. rewrite Hj. mstep.
    rewrite Hc. mstep. cbn [negb]. rewrite Hdn, Hwt, Hqp, Hqs. mstep.
    rewrite Hp. mstep. reflexivity.
  - exists d. split; [done|]. cbn. rewrite <- !app_assoc. reflexivity.
Qed.

Lemma poll_loop_pendings self rid hs pend tail w :
  forallb is_pending pend = true ->
  exists w',
    poll_loop self rid hs ((NetResponse <$> pend) ++ tail) w
    = poll_loop self rid hs tail w'
    /\ polling (trace w')
       = polling (trace w)
         ++ concat ((fun _ => [PGet (status_url self rid); PSleep 1]) <$> pend).
Proof.
  revert w. induction pend as [|r pend IH]; intros w Hall.
  - exists w. split; [done|]. simpl. by rewrite app_nil_r.
  - simpl in Hall. apply andb_prop in Hall as [Hr Hall].
    destruct (poll_loop_pending self rid hs r ((NetResponse <$> pend) ++ tail) w Hr)
      as (w1 & Hstep & d & _ & Htr).
    destruct (IH w1 Hall) as (w2 & Hrest & Htr2).
    exists w2. split.
    + rewrite fmap_cons, <- app_comm_cons, Hstep. exact Hrest.
    + rewrite Htr2, Htr, polling_app, fmap_cons. simpl. by rewrite <- app_assoc.
Qed.

(** A status answer with the job done: one GET, the telemetry, no
    sleep, and the loop returns the answer's body. *)
Lemma poll_loop_done self rid hs r rest w :
  is_done r = true ->
  exists d w',
    json_body r = Some d
    /\ poll_loop self rid hs (NetResponse r :: rest) w = (Returns d, w')
    /\ trace w' = trace w ++ [EvGet (status_url self rid) hs].
Proof.
  unfold is_done.
  destruct (status_fields r) as [[[[[d dn] wt] qp] qs]|] eqn:Hf; [|done].
  intros Hp. apply status_fields_inv in Hf as (Hok & Hj & Hc & Hdn & Hwt & Hqp & Hqs).
  exists d. eexists. split; [done|]. split.
  - cbn [poll_loop]. mstep. rewrite Hok. cbn [negb]. unfold json. rewrite Hj. mstep.
    rewrite Hc. mstep. cbn [negb]. rewrite Hdn, Hwt, Hqp, Hqs. mstep.
    rewrite Hp. mstep. reflexivity.
  - reflexivity.
Qed.

Lemma poll_loop_connection self rid hs rest w :
  exists w', poll_loop self rid hs (NetRaises ConnectionError :: rest) w
             = (Raises (HordeException msg_unavailable), w').
Proof. eexists. cbn [poll_loop]. mstep. reflexivity. Qed.

Lemma poll_loop_status self rid hs r rest w :
  ok r = false ->
  exists w', poll_loop self rid hs (NetResponse r :: rest) w
             = (Raises (HordeException msg_no_standard_reply), w').
Proof.
  intros Hok. eexists. cbn [poll_loop]. mstep. rewrite Hok. cbn [negb]. mstep.
  reflexivity.
Qed.

Lemma poll_loop_not_json self rid hs r rest w :
  ok r = true -> json_body r = None ->
  exists w', poll_loop self rid hs (NetResponse r :: rest) w
             = (Raises (HordeException (msg_unexpected_status (text r))), w').
Proof.
  intros Hok Hj. eexists. cbn [poll_loop]. mstep. rewrite Hok. cbn [negb].
  unfold json. rewrite Hj. mstep. reflexivity.
Qed.

Lemma poll_loop_no_done self rid hs r d rest w :
  ok r = true -> json_body r = Some d -> contains "done" d = inr false ->
  exists w', poll_loop self rid hs (NetResponse r :: rest) w
             = (Raises (HordeException (msg_unexpected_response (py_str d))), w').
Proof.
  intros Hok Hj Hc. eexists. cbn [poll_loop]. mstep. rewrite Hok. cbn [negb].
  unfold json. rewrite Hj. mstep. rewrite Hc. mstep. cbn [negb]. mstep. reflexivity.
Qed.

(** ** Collecting the result *)

Lemma mapM_gen_server gens :
  forallb is_generation gens = true ->
  exists servers, forall w, mapM gen_server gens w = (Returns servers, w).
Proof.
  induction gens as [|g gens IH]; intros Hall.
  - exists []. done.
  - simpl in Hall. apply andb_prop in Hall as [Hg Hall].
    destruct (IH Hall) as (servers & Hs).
    destruct (is_generation_inv g Hg) as (nm & id & Hn & Hi & _).
    assert (Hone : forall w, gen_server g w = (Returns (nm, id), w)).
    { intros w. unfold gen_server. mstep. rewrite Hn. mstep. by rewrite Hi. }
    exists ((nm, id) :: servers). intros w.
    cbn [mapM]. unfold bind. by rewrite Hone, Hs.
Qed.

Lemma mapM_encode_generation gens w :
  forallb is_generation gens = true ->
  mapM encode_generation gens w
  = (Returns ((fun g => tokenizer_encode (generation_text g)) <$> gens), w).
Proof.
  induction gens as [|g gens IH]; intros Hall; [done|].
  simpl in Hall. apply andb_prop in Hall as [Hg Hall].
  destruct (is_generation_inv g Hg) as (nm & id & _ & _ & Ht).
  assert (Hone : forall w, encode_generation g w
                           = (Returns (tokenizer_encode (generation_text g)), w)).
  { intros w'. unfold encode_generation. mstep. by rewrite Ht. }
  cbn [mapM]. unfold bind. by rewrite Hone, (IH Hall).
Qed.

Lemma collect_faulted p single d f w :
  field d "faulted" = Some f -> truthy f = true ->
  exists w', collect p single d w = (Raises (HordeException msg_faulted), w')
             /\ polling (trace w') = polling (trace w).
Proof.
  intros Hf%field_getitem Ht. eexists. unfold collect. mstep. rewrite Hf. mstep.
  rewrite Ht. mstep. split; [reflexivity|]. cbn [trace].
  rewrite polling_app. cbn. by rewrite app_nil_r.
Qed.

Lemma collect_returns p single d f gens w :
  field d "faulted" = Some f -> truthy f = false ->
  field d "generations" = Some (VList gens) ->
  forallb is_generation gens = true ->
  let rows := (fun g => tokenizer_encode (generation_text g)) <$> gens in
  rectangular rows || numpy_ragged = true ->
  exists w', collect p single d w = (Returns (mkResult rows p true single), w')
             /\ polling (trace w') = polling (trace w).
Proof.
  intros Hf%field_getitem Ht Hg%field_getitem Hall rows Hnp.
  destruct (mapM_gen_server gens Hall) as (servers & Hs).
  eexists. unfold collect. mstep. rewrite Hf. mstep. rewrite Ht. mstep.
  rewrite Hg. mstep. cbn [iterate]. mstep.
  rewrite (bind_returns _ _ _ _ _ (Hs _)). mstep.
  rewrite (bind_returns _ _ _ _ _ (mapM_encode_generation gens _ Hall)).
  unfold np_array. fold rows. rewrite Hnp. mstep.
  split; [reflexivity|]. cbn [trace].
  rewrite !polling_app. cbn. by rewrite !app_nil_r.
Qed.

(** ** The whole call *)

Lemma raw_generate_phases self p n gs single b seed submit polls w :
  _raw_generate self p n gs single b seed submit polls w
  = match submit_request self p n gs b seed submit w with
    | (Returns rid, w1) =>
        match poll_loop self rid agent_headers polls w1 with
        | (Returns d, w2) => collect p single d w2
        | (Raises e, w2) => (Raises e, w2)
        | (Starved, w2) => (Starved, w2)
        end
    | (Raises e, w1) => (Raises e, w1)
    | (Starved, w1) => (Starved, w1)
    end.
Proof.
  unfold _raw_generate, bind.
  destruct (submit_request _ _ _ _ _ _ _ _) as [[rid|e|] w1]; reflexivity.
Qed.

(** After an accepted submission and any number of not-done answers,
    the call stands at the next answer, with one GET and one sleep made
    for each answer passed. *)
Lemma raw_generate_polls_after self p n gs single b seed r0 rid pend tail w :
  accepted_id r0 = Some rid -> forallb is_pending pend = true ->
  exists w1,
    _raw_generate self p n gs single b seed (NetResponse r0)
      ((NetResponse <$> pend) ++ tail) w
    = match poll_loop self rid agent_headers tail w1 with
      | (Returns d, w2) => collect p single d w2
      | (Raises e, w2) => (Raises e, w2)
      | (Starved, w2) => (Starved, w2)
      end
    /\ polling (trace w1)
       = polling (trace w)
         ++ concat ((fun _ => [PGet (status_url self rid); PSleep 1]) <$> pend).
Proof.
  intros Hid Hall. rewrite raw_generate_phases.
  destruct (submit_accepted self p n gs b seed r0 rid w Hid) as (w0 & -> & Hp0).
  destruct (poll_loop_pendings self rid agent_headers pend tail w0 Hall)
    as (w1 & -> & Hp1).
  exists w1. split; [reflexivity|]. by rewrite Hp1, Hp0.
Qed.

Lemma raw_generate_faulted self p n gs single b seed r0 rid pend r rest w :
  accepted_id r0 = Some rid ->
  forallb is_pending pend = true ->
  is_done r = true -> faulted_flag r = Some true ->
  (_raw_generate self p n gs single b seed (NetResponse r0)
     ((NetResponse <$> pend) ++ NetResponse r :: rest) w).1
  = Raises (HordeException msg_faulted).
Proof.
  intros Hid Hall Hdone Hflt.
  destruct (raw_generate_polls_after self p n gs single b seed r0 rid pend
              (NetResponse r :: rest) w Hid Hall) as (w1 & -> & _).
  destruct (poll_loop_done self rid agent_headers r rest w1 Hdone)
    as (d & w2 & Hj & -> & _).
  destruct (faulted_flag_inv _ _ Hflt) as (d' & f & Hj' & Hf & Ht).
  assert (d' = d) as -> by congruence.
  by destruct (collect_faulted p single d f w2 Hf Ht) as (w3 & -> & _).
Qed.

(** The run of the job contract with rows [np.array] takes: when the
    submission is accepted, the first three status
    answers report the job as not done and the fourth reports it done
    and not faulted (each with the fields of the status contract, as
    [is_pending] and [is_done] require), [_raw_generate] makes exactly
    four status GETs,
    sleeps one second after each of the first three and not after the
    fourth, and returns a result whose [out_batches] has one row per
    entry of the last answer's [generations], each row the tokenizer's
    encoding of that entry's [text].  ([np.array] takes the rows when
    they have one length, or when numpy builds object arrays.) *)
Theorem raw_generate_four_polls
    (self : model_backend) (p : list token) (n : Z) (gs : GenerationSettings)
    (single : bool) (b : Z) (seed : option Z)
    (r0 r1 r2 r3 r4 : response) (rid : value) (gens : list value)
    (rest : list net_result) (w : world) :
  accepted_id r0 = Some rid ->
  is_pending r1 = true -> is_pending r2 = true -> is_pending r3 = true ->
  is_done r4 = true -> faulted_flag r4 = Some false ->
  generations_of r4 = Some gens -> forallb is_generation gens = true ->
  let rows := (fun g => tokenizer_encode (generation_text g)) <$> gens in
  rectangular rows || numpy_ragged = true ->
  let run := _raw_generate self p n gs single b seed (NetResponse r0)
               ((NetResponse <$> [r1; r2; r3; r4]) ++ rest) w in
  let u := status_url self rid in
  exists res,
    run.1 = Returns res
    /\ out_batches res = rows
    /\ length (out_batches res) = length gens
    /\ polling (trace run.2)
       = polling (trace w)
         ++ [PGet u; PSleep 1; PGet u; PSleep 1; PGet u; PSleep 1; PGet u].
Proof.
  intros Hid H1 H2 H3 H4 Hflt Hgens Hall rows Hnp run u. subst run.
  change ((NetResponse <$> [r1; r2; r3; r4]) ++ rest)
    with ((NetResponse <$> [r1; r2; r3]) ++ NetResponse r4 :: rest).
  destruct (raw_generate_polls_after self p n gs single b seed r0 rid [r1; r2; r3]
              (NetResponse r4 :: rest) w Hid) as (w2 & -> & Hp2).
  { simpl. by rewrite H1, H2, H3. }
  destruct (poll_loop_done self rid agent_headers r4 rest w2 H4)
    as (d & w3 & Hj & -> & Hp3).
  destruct (faulted_flag_inv _ _ Hflt) as (d' & f & Hj' & Hf & Ht).
  destruct (generations_of_inv _ _ Hgens) as (d'' & Hj'' & Hg).
  assert (d' = d) as -> by congruence. assert (d'' = d) as -> by congruence.
  destruct (collect_returns p single d f gens w3 Hf Ht Hg Hall Hnp) as (w4 & -> & Hp4).
  eexists. split; [reflexivity|]. simpl. split; [reflexivity|]. split.
  - subst rows. by rewrite length_fmap.
  - rewrite Hp4, Hp3, polling_app, Hp2. fold u. simpl.
    rewrite <- !app_assoc. reflexivity.
Qed.

Lemma collect_ragged p single d f gens w :
  field d "faulted" = Some f -> truthy f = false ->
  field d "generations" = Some (VList gens) ->
  forallb is_generation gens = true ->
  let rows := (fun g => tokenizer_encode (generation_text g)) <$> gens in
  rectangular rows || numpy_ragged = false ->
  exists w', collect p single d w = (Raises (ValueError "inhomogeneous shape"), w')
             /\ polling (trace w') = polling (trace w).
Proof.
  intros Hf%field_getitem Ht Hg%field_getitem Hall rows Hnp.
  destruct (mapM_gen_server gens Hall) as (servers & Hs).
  eexists. unfold collect. mstep. rewrite Hf. mstep. rewrite Ht. mstep.
  rewrite Hg. mstep. cbn [iterate]. mstep.
  rewrite (bind_returns _ _ _ _ _ (Hs _)). mstep.
  rewrite (bind_returns _ _ _ _ _ (mapM_encode_generation gens _ Hall)).
  unfold np_array. fold rows. rewrite Hnp. mstep.
  split; [reflexivity|]. cbn [trace].
  rewrite !polling_app. cbn. by rewrite !app_nil_r.
Qed.

(** C1. The same four answers (an accepted submission, three status
    answers that are not done, a fourth that is done and not faulted,
    each with the fields of the status contract), with generations
    whose encodings do not all have one length and a numpy that
    builds no array from such rows (1.24 and later): [_raw_generate]
    makes the four status GETs, sleeping one second after each of the
    first three and not after the fourth, and then [np.array] raises
    [ValueError]; no result is returned, so there is no [out_batches]
    with one row per generation. *)
Theorem raw_generate_ragged_rows_raise
    (self : model_backend) (p : list token) (n : Z) (gs : GenerationSettings)
    (single : bool) (b : Z) (seed : option Z)
    (r0 r1 r2 r3 r4 : response) (rid : value) (gens : list value)
    (rest : list net_result) (w : world) :
  accepted_id r0 = Some rid ->
  is_pending r1 = true -> is_pending r2 = true -> is_pending r3 = true ->
  is_done r4 = true -> faulted_flag r4 = Some false ->
  generations_of r4 = Some gens -> forallb is_generation gens = true ->
  let rows := (fun g => tokenizer_encode (generation_text g)) <$> gens in
  rectangular rows = false -> numpy_ragged = false ->
  let run := _raw_generate self p n gs single b seed (NetResponse r0)
               ((NetResponse <$> [r1; r2; r3; r4]) ++ rest) w in
  let u := status_url self rid in
  run.1 = Raises (ValueError "inhomogeneous shape")
  /\ (forall res, run.1 <> Returns res)
  /\ polling (trace run.2)
     = polling (trace w)
       ++ [PGet u; PSleep 1; PGet u; PSleep 1; PGet u; PSleep 1; PGet u].
Proof.
  intros Hid H1 H2 H3 H4 Hflt Hgens Hall rows Hrect Hnp run u. subst run.
  change ((NetResponse <$> [r1; r2; r3; r4]) ++ rest)
    with ((NetResponse <$> [r1; r2; r3]) ++ NetResponse r4 :: rest).
  destruct (raw_generate_polls_after self p n gs single b seed r0 rid [r1; r2; r3]
              (NetResponse r4 :: rest) w Hid) as (w2 & -> & Hp2).
  { simpl. by rewrite H1, H2, H3. }
  destruct (poll_loop_done self rid agent_headers r4 rest w2 H4)
    as (d & w3 & Hj & -> & Hp3).
  destruct (faulted_flag_inv _ _ Hflt) as (d' & f & Hj' & Hf & Ht).
  destruct (generations_of_inv _ _ Hgens) as (d'' & Hj'' & Hg).
  assert (d' = d) as -> by congruence. assert (d'' = d) as -> by congruence.
  destruct (collect_ragged p single d f gens w3 Hf Ht Hg Hall) as (w4 & -> & Hp4).
  { fold rows. by rewrite Hrect, Hnp. }
  split; [reflexivity|]. split; [by intros res [=]|].
  cbn [snd]. rewrite Hp4, Hp3, polling_app, Hp2. fold u. simpl.
  rewrite <- !app_assoc. reflexivity.
Qed.

(** C7. An answer to the submission with status 503 makes
    [_raw_generate] raise the "no available servers" error; any other
    non-success status (500, say) makes it raise the generic "failed to
    get a standard reply" error after writing the response body to the
    error log; the two messages differ. *)
Theorem submit_503_is_distinct
    (self : model_backend) (p : list token) (n : Z) (gs : GenerationSettings)
    (single : bool) (b : Z) (seed : option Z)
    (r : response) (polls : list net_result) (w : world) :
  let run := _raw_generate self p n gs single b seed (NetResponse r) polls w in
  (status_code r = 503 ->
     run.1 = Raises (HordeException msg_no_servers))
  /\ (status_code r <> 503 -> ok r = false ->
       run.1 = Raises (HordeException msg_no_standard_reply)
       /\ EvLog Error (text r) ∈ trace run.2)
  /\ msg_no_servers <> msg_no_standard_reply.
Proof.
  intros run. subst run. rewrite raw_generate_phases. split; [|split].
  - intros Hs. by destruct (submit_503 self p n gs b seed r w Hs) as (w' & ->).
  - intros Hs Hok.
    by destruct (submit_status self p n gs b seed r w Hs Hok) as (w' & -> & Hin).
  - discriminate.
Qed.

(** C8. Whenever a status answer reports the job done and faulted (the
    submission accepted, the answers before it not done, and the answer
    carrying the fields [wait_time], [queue_position] and [waiting] the
    loop reads, as [is_done] requires), [_raw_generate] raises the job
    fault error, whose message is not the transport error's, and
    returns no result. *)
Theorem raw_generate_faulted_job
    (self : model_backend) (p : list token) (n : Z) (gs : GenerationSettings)
    (single : bool) (b : Z) (seed : option Z)
    (r0 : response) (rid : value) (pend : list response) (r : response)
    (rest : list net_result) (w : world) :
  accepted_id r0 = Some rid ->
  forallb is_pending pend = true ->
  is_done r = true -> faulted_flag r = Some true ->
  let run := _raw_generate self p n gs single b seed (NetResponse r0)
               ((NetResponse <$> pend) ++ NetResponse r :: rest) w in
  run.1 = Raises (HordeException msg_faulted)
  /\ (forall res, run.1 <> Returns res)
  /\ HordeException msg_faulted <> HordeException msg_unavailable.
Proof.
  intros Hid Hall Hdone Hflt run. subst run.
  rewrite (raw_generate_faulted self p n gs single b seed r0 rid pend r rest w
             Hid Hall Hdone Hflt).
  split; [reflexivity | split; [intros res|]; discriminate].
Qed.

(** C10. Every failure the job protocol raises on purpose (no
    connection on submit or on a poll, status 503, another non-success
    status on submit or on a poll, a body that is not JSON on submit or
    on a poll, a status answer without [done], a faulted job) is a
    [HordeException]: the class is the same and only the message tells
    the failures apart. *)
Theorem protocol_failures_are_HordeException
    (self : model_backend) (p : list token) (n : Z) (gs : GenerationSettings)
    (single : bool) (b : Z) (seed : option Z)
    (f : failure) (submit : net_result) (polls : list net_result) (w : world) :
  exhibits f submit polls ->
  exists msg,
    (_raw_generate self p n gs single b seed submit polls w).1
    = Raises (HordeException msg).
Proof.
  intros Hex.
  destruct Hex as [polls | r polls Hs | r polls Hs Hok | r polls Hok Hj
                  | r0 pend rest [rid Hid] Hall
                  | r0 pend r rest [rid Hid] Hall Hok
                  | r0 pend r rest [rid Hid] Hall Hok Hj
                  | r0 pend r d rest [rid Hid] Hall Hok Hj Hc
                  | r0 pend r rest [rid Hid] Hall Hdone Hflt].
  - rewrite raw_generate_phases.
    destruct (submit_connection self p n gs b seed w) as (w' & ->). eauto.
  - rewrite raw_generate_phases.
    destruct (submit_503 self p n gs b seed r w Hs) as (w' & ->). eauto.
  - rewrite raw_generate_phases.
    destruct (submit_status self p n gs b seed r w Hs Hok) as (w' & -> & _). eauto.
  - rewrite raw_generate_phases.
    destruct (submit_not_json self p n gs b seed r w Hok Hj) as (w' & ->). eauto.
  - destruct (raw_generate_polls_after self p n gs single b seed r0 rid pend
                (NetRaises ConnectionError :: rest) w Hid Hall) as (w1 & -> & _).
    destruct (poll_loop_connection self rid agent_headers rest w1) as (w2 & ->). eauto.
  - destruct (raw_generate_polls_after self p n gs single b seed r0 rid pend
                (NetResponse r :: rest) w Hid Hall) as (w1 & -> & _).
    destruct (poll_loop_status self rid agent_headers r rest w1 Hok) as (w2 & ->). eauto.
  - destruct (raw_generate_polls_after self p n gs single b seed r0 rid pend
                (NetResponse r :: rest) w Hid Hall) as (w1 & -> & _).
    destruct (poll_loop_not_json self rid agent_headers r rest w1 Hok Hj)
      as (w2 & ->). eauto.
  - destruct (raw_generate_polls_after self p n gs single b seed r0 rid pend
                (NetResponse r :: rest) w Hid Hall) as (w1 & -> & _).
    destruct (poll_loop_no_done self rid agent_headers r d rest w1 Hok Hj Hc)
      as (w2 & ->). eauto.
  - rewrite (raw_generate_faulted self p n gs single b seed r0 rid pend r rest w
               Hid Hall Hdone Hflt). eauto.
Qed.

(** ** Model discovery at construction *)

Lemma emit_unbound : bool_decide ("emit"%string ∈ horde_globals) = false.
Proof. vm_compute. reflexivity. Qed.

Lemma get_cluster_models_failure u net w :
  discovery_failure net = true ->
  exists e w',
    get_cluster_models horde_globals u net w = (Raises e, w')
    /\ (e = NameError "emit" \/ e = JSONDecodeError).
Proof.
  intros Hfail. unfold get_cluster_models. destruct net as [e0|r].
  - eexists _, _. mstep. unfold lookup_global. rewrite emit_unbound. mstep.
    split; [reflexivity | by left].
  - mstep. simpl in Hfail. destruct (ok r) eqn:Hok; cbn [negb].
    + simpl in Hfail. apply bool_decide_eq_true in Hfail.
      unfold json. rewrite Hfail. mstep. eexists _, _. split; [reflexivity | by right].
    + unfold json. destruct (json_body r) as [d|]; mstep.
      * unfold lookup_global. rewrite emit_unbound. mstep.
        eexists _, _. split; [reflexivity | by left].
      * eexists _, _. split; [reflexivity | by right].
Qed.

(** C6. Whenever the discovery GET made at construction fails (an
    exception out of [requests], a non-success status, or a body that is
    not JSON), [__init__] raises and no adapter is returned.  The
    exception is [JSONDecodeError] out of [req.json()], or the
    [NameError] raised by the handlers when they reach [emit], a name
    [horde.py] never binds; their closing [return] is not reached. *)
Theorem init_failure_is_raised (net : net_result) (w : world) :
  discovery_failure net = true ->
  exists e,
    (__init__ horde_globals net w).1 = Raises e
    /\ (e = NameError "emit" \/ e = JSONDecodeError)
    /\ forall self, (__init__ horde_globals net w).1 <> Returns self.
Proof.
  intros Hfail. unfold __init__.
  destruct (get_cluster_models_failure "https://horde.koboldai.net" net w Hfail)
    as (e & w' & Hg & He).
  exists e. unfold bind. rewrite Hg. simpl. repeat split; [done | discriminate].
Qed.

(** Were [emit] bound in the module, the handler of a failed GET would
    reach its [return], [get_cluster_models] would return [None] and
    construction would complete with [self.models = None]. *)
Lemma init_completes_when_emit_is_bound (globals : list string) (e0 : exn) (w : world) :
  "emit"%string ∈ globals ->
  (__init__ globals (NetRaises e0) w).1
  = Returns (mkBackend "https://horde.koboldai.net" "0000000000" VNone false).
Proof.
  intros Hin. unfold __init__, get_cluster_models. mstep.
  unfold lookup_global. rewrite bool_decide_eq_true_2 by done. mstep. reflexivity.
Qed.

End Protocol.

(** ** The theorems at concrete answers *)

Import Fixtures.

Lemma raw_generate_ragged_rows_raise_witness :
  let run := @_raw_generate toy_host toy_self [1; 2] 80 toy_settings false 2 None
               (NetResponse submit_ok)
               ((NetResponse <$> [ status false false 3 []; status false false 2 [];
                                   status false false 1 [];
                                   status true false 0
                                     [ generation "hi" "w1" "id1";
                                       generation "hey" "w2" "id2" ] ]) ++ [])
               toy_world in
  run.1 = Raises (ValueError "inhomogeneous shape")
  /\ (forall res, run.1 <> Returns res)
  /\ polling (trace run.2)
     = [PGet status_abc; PSleep 1; PGet status_abc; PSleep 1;
        PGet status_abc; PSleep 1; PGet status_abc].
Proof.
  intros run.
  apply (@raw_generate_ragged_rows_raise toy_host toy_self [1; 2] 80 toy_settings
           false 2 None submit_ok (status false false 3 []) (status false false 2 [])
           (status false false 1 [])
           (status true false 0 [ generation "hi" "w1" "id1"; generation "hey" "w2" "id2" ])
           (VStr "abc") [ generation "hi" "w1" "id1"; generation "hey" "w2" "id2" ]
           [] toy_world); vm_compute; reflexivity.
Defined.

Lemma raw_generate_four_polls_witness :
  let run := @_raw_generate toy_host toy_self [1; 2] 80 toy_settings false 2 None
               (NetResponse submit_ok)
               ((NetResponse <$> [ status false false 3 []; status false false 2 [];
                                   status false false 1 [];
                                   status true false 0
                                     [ generation "hi" "w1" "id1";
                                       generation "yo" "w2" "id2" ] ]) ++ [])
               toy_world in
  exists res,
    run.1 = Returns res
    /\ out_batches res = [[104; 105]; [121; 111]]
    /\ polling (trace run.2)
       = [PGet status_abc; PSleep 1; PGet status_abc; PSleep 1;
          PGet status_abc; PSleep 1; PGet status_abc].
Proof.
  intros run.
  destruct (@raw_generate_four_polls toy_host toy_self [1; 2] 80 toy_settings false 2 None
              submit_ok (status false false 3 []) (status false false 2 [])
              (status false false 1 [])
              (status true false 0 [ generation "hi" "w1" "id1"; generation "yo" "w2" "id2" ])
              (VStr "abc") [ generation "hi" "w1" "id1"; generation "yo" "w2" "id2" ]
              [] toy_world)
    as (res & Hres & Hrows & _ & Hpoll); try (vm_compute; reflexivity).
  exists res. split; [exact Hres|]. split; [exact Hrows|]. exact Hpoll.
Defined.

Lemma submit_503_is_distinct_witness :
  (@_raw_generate toy_host toy_self [1; 2] 80 toy_settings false 1 None
     (NetResponse (respond 503 "busy")) [] toy_world).1
  = Raises (HordeException msg_no_servers)
  /\ (@_raw_generate toy_host toy_self [1; 2] 80 toy_settings false 1 None
        (NetResponse (respond 500 "Internal Server Error")) [] toy_world).1
     = Raises (HordeException msg_no_standard_reply)
  /\ EvLog Error "Internal Server Error"
     ∈ trace (@_raw_generate toy_host toy_self [1; 2] 80 toy_settings false 1 None
                (NetResponse (respond 500 "Internal Server Error")) [] toy_world).2.
Proof.
  pose proof (@submit_503_is_distinct toy_host toy_self [1; 2] 80 toy_settings false 1 None
                (respond 503 "busy") [] toy_world) as (H503 & _ & _).
  pose proof (@submit_503_is_distinct toy_host toy_self [1; 2] 80 toy_settings false 1 None
                (respond 500 "Internal Server Error") [] toy_world) as (_ & H500 & _).
  split; [exact (H503 eq_refl)|].
  apply H500; [discriminate | reflexivity].
Defined.

Lemma raw_generate_faulted_job_witness :
  (@_raw_generate toy_host toy_self [1; 2] 80 toy_settings false 1 None
     (NetResponse submit_ok)
     ((NetResponse <$> [ status false false 1 [] ])
        ++ NetResponse (status true true 0 []) :: [])
     toy_world).1
  = Raises (HordeException msg_faulted).
Proof.
  apply (@raw_generate_faulted_job toy_host toy_self [1; 2] 80 toy_settings false 1 None
           submit_ok (VStr "abc") [ status false false 1 [] ] (status true true 0 [])
           [] toy_world); vm_compute; reflexivity.
Defined.

Lemma protocol_failures_are_HordeException_witness :
  exists msg,
    (@_raw_generate toy_host toy_self [1; 2] 80 toy_settings false 1 None
       (NetResponse submit_ok)
       ((NetResponse <$> [ status false false 1 [] ])
          ++ NetResponse status_without_done :: [])
       toy_world).1
    = Raises (HordeException msg).
Proof.
  apply (@protocol_failures_are_HordeException toy_host toy_self [1; 2] 80 toy_settings
           false 1 None PollNoDone).
  apply (ex_poll_no_done submit_ok [ status false false 1 [] ] status_without_done
           (VDict (<["message" := VStr "not found"]> ∅)) []).
  - exists (VStr "abc"). vm_compute. reflexivity.
  - vm_compute. reflexivity.
  - reflexivity.
  - reflexivity.
  - vm_compute. reflexivity.
Defined.

(** The nine failures on the toy answers, each with its message; then
    what lies outside them: a status answer without the telemetry
    fields, a script that ends while the job is pending, and an
    exception of [requests] that is no [ConnectionError]. *)
Example protocol_failures_toy :
  let call submit polls :=
    (@_raw_generate toy_host toy_self [1; 2] 80 toy_settings false 1 None
       submit polls toy_world).1 in
  let pending := NetResponse (status false false 1 []) in
  call (NetRaises ConnectionError) [] = Raises (HordeException msg_unavailable)
  /\ call (NetResponse (respond 503 "busy")) [] = Raises (HordeException msg_no_servers)
  /\ call (NetResponse (respond 500 "oops")) []
     = Raises (HordeException msg_no_standard_reply)
  /\ call (NetResponse (respond 200 "<html>")) []
     = Raises (HordeException (msg_unexpected_submit "<html>"))
  /\ call (NetResponse submit_ok) [pending; NetRaises ConnectionError]
     = Raises (HordeException msg_unavailable)
  /\ call (NetResponse submit_ok) [pending; NetResponse (respond 404 "gone")]
     = Raises (HordeException msg_no_standard_reply)
  /\ call (NetResponse submit_ok) [pending; NetResponse (respond 200 "<html>")]
     = Raises (HordeException (msg_unexpected_status "<html>"))
  /\ call (NetResponse submit_ok) [pending; NetResponse status_without_done]
     = Raises (HordeException (msg_unexpected_response "<value>"))
  /\ call (NetResponse submit_ok) [pending; NetResponse (status true true 0 [])]
     = Raises (HordeException msg_faulted)
  /\ call (NetResponse submit_ok) [pending; NetResponse status_bare_fault]
     = Raises (KeyError "wait_time")
  /\ call (NetResponse submit_ok) [pending] = Starved
  /\ call (NetResponse submit_ok) [pending; NetRaises ReadTimeout] = Raises ReadTimeout.
Proof. vm_compute. repeat split. Qed.

(** Construction on the toy answers: a model list is accepted; an
    unreachable cluster and an error status with a JSON body end in the
    [NameError]; a body that is not JSON ends in [JSONDecodeError]. *)
Example init_toy :
  let init net := (@__init__ toy_host horde_globals net toy_world).1 in
  init (NetResponse models_ok)
  = Returns (mkBackend "https://horde.koboldai.net" "0000000000"
               (VList [ VDict (<["text" := VStr "m1"]> (<["value" := VStr "m1"]> ∅)) ])
               false)
  /\ init (NetRaises ConnectionError) = Raises (NameError "emit")
  /\ init (NetResponse (models_error 500)) = Raises (NameError "emit")
  /\ init (NetResponse (respond 500 "oops")) = Raises JSONDecodeError
  /\ init (NetResponse (respond 200 "<html>")) = Raises JSONDecodeError.
Proof. vm_compute. repeat split. Qed.

Lemma init_failure_is_raised_witness :
  exists e,
    (@__init__ toy_host horde_globals (NetRaises ConnectionError) toy_world).1 = Raises e
    /\ (e = NameError "emit" \/ e = JSONDecodeError)
    /\ forall self,
         (@__init__ toy_host horde_globals (NetRaises ConnectionError) toy_world).1
         <> Returns self.
Proof.
  apply (@init_failure_is_raised toy_host (NetRaises ConnectionError) toy_world).
  reflexivity.
Defined.

End HordeProps.

(* ===================================================================== *)
(** * exllama/class.py: further properties of the generation loop       *)
(* ===================================================================== *)

Module ExLlamaLoopProps.

Import ExLlama ExLlamaRun ExLlamaProps.

Section Loop.
Context `{Tok : Tokenizer} `{Eng : Engine}.
Variable sampler_order : list Z.

#[local] Abbreviation loop_body := (loop_body sampler_order).
#[local] Abbreviation gen_loop := (gen_loop sampler_order).
#[local] Abbreviation run := (run sampler_order).
#[local] Abbreviation sampled := (sampled sampler_order).
#[local] Abbreviation _raw_generate := (_raw_generate sampler_order).

(** Any list of draws is free of the end-of-sequence token, or has a first one. *)
Lemma first_eos_or_none (l : list token) :
  Forall (fun t => t <> eos_token_id) l
  \/ exists j, l !! j = Some eos_token_id
               /\ Forall (fun t => t <> eos_token_id) (take j l).
Proof.
  induction l as [|t l IH]; [by left|].
  destruct (decide (t = eos_token_id)) as [->|Hne].
  - right. exists 0%nat. by split.
  - destruct IH as [Hall|(j & Hj & Hall)].
    + left. by constructor.
    + right. exists (S j). split; [done|]. simpl. by constructor.
Qed.

(** The loop is a run of [m <= n] passes; only the last of its draws
    can be the end-of-sequence token, and it is when [m < n]. *)
Lemma gen_loop_is_run n gen_in st :
  exists m, (m <= n)%nat
    /\ gen_loop n gen_in st = run m gen_in st
    /\ sampled m gen_in st = take m (sampled n gen_in st)
    /\ Forall (fun t => t <> eos_token_id) (take (m - 1) (sampled m gen_in st))
    /\ ((m < n)%nat -> last (sampled m gen_in st) = Some eos_token_id).
Proof.
  destruct (first_eos_or_none (sampled n gen_in st)) as [Hall|(j & Hj & Hall)].
  - exists n. split; [lia|]. split; [by apply gen_loop_no_eos|].
    split; [by rewrite firstn_all2 by (rewrite sampled_length; lia)|].
    split; [by apply Forall_take|]. lia.
  - assert (Hlt : (j < n)%nat).
    { apply lookup_lt_Some in Hj. by rewrite sampled_length in Hj. }
    exists (S j). split; [lia|]. split; [by apply gen_loop_first_eos|].
    assert (Htake : sampled (S j) gen_in st = take (S j) (sampled n gen_in st))
      by (apply sampled_take; lia).
    split; [done|]. rewrite Htake.
    split.
    + replace (S j - 1)%nat with j by lia. rewrite take_take.
      by replace (j `min` S j)%nat with j by lia.
    + intros _. rewrite last_lookup, length_take, sampled_length.
      replace (Init.Nat.pred (S j `min` n)) with j by lia.
      by rewrite lookup_take_lt by lia.
Qed.

Lemma loop_body_hooked gen_in st :
  hooked (events (loop_body gen_in st).2)
  = hooked (events st) ++ [sequence st ++ [(loop_body gen_in st).1]].
Proof.
  unfold loop_body.
  destruct (forward _ _) as [logits c']. simpl.
  destruct (multinomial _ _) as [tok r']. simpl.
  unfold hooked. rewrite !omap_app. simpl. by rewrite !app_nil_r.
Qed.

Lemma loop_body_forwarded gen_in st :
  forwarded (events (loop_body gen_in st).2)
  = forwarded (events st) ++ [last_token (sequence st)].
Proof.
  unfold loop_body.
  destruct (forward _ _) as [logits c']. simpl.
  destruct (multinomial _ _) as [tok r']. simpl.
  unfold forwarded. rewrite !omap_app. simpl. by rewrite !app_nil_r.
Qed.

Lemma run_hooked m gen_in st :
  hooked (events (run m gen_in st))
  = hooked (events st)
    ++ ((fun k => sequence st ++ take (S k) (sampled m gen_in st)) <$> seq 0 m).
Proof.
  revert st. induction m as [|m IH]; intros st.
  - simpl. by rewrite app_nil_r.
  - cbn [ExLlama.run ExLlama.sampled]. rewrite IH, loop_body_hooked, loop_body_sequence.
    rewrite <- app_assoc. f_equal. cbn [seq fmap list_fmap]. simpl. f_equal.
    rewrite <- fmap_S_seq, <- list_fmap_compose. apply list_fmap_ext.
    intros i k _. simpl. by rewrite <- app_assoc.
Qed.

Lemma run_forwarded m gen_in st :
  forwarded (events (run m gen_in st))
  = forwarded (events st)
    ++ ((fun k => last_token (sequence st ++ take k (sampled m gen_in st))) <$> seq 0 m).
Proof.
  revert st. induction m as [|m IH]; intros st.
  - simpl. by rewrite app_nil_r.
  - cbn [ExLlama.run ExLlama.sampled]. rewrite IH, loop_body_forwarded, loop_body_sequence.
    rewrite <- app_assoc. f_equal. cbn [seq fmap list_fmap]. simpl.
    rewrite app_nil_r. f_equal.
    rewrite <- fmap_S_seq, <- list_fmap_compose. apply list_fmap_ext.
    intros i k _. simpl. by rewrite <- app_assoc.
Qed.

Lemma seeded_hooked seed st : hooked (events (seeded seed st)) = hooked (events st).
Proof.
  unfold seeded. destruct seed as [s|]; [|done].
  destruct (truthy_opt_int (Some s)); [|done].
  unfold seed_rng, emit_event, hooked. simpl.
  rewrite omap_app. simpl. by rewrite app_nil_r.
Qed.

Lemma seeded_forwarded seed st : forwarded (events (seeded seed st)) = forwarded (events st).
Proof.
  unfold seeded. destruct seed as [s|]; [|done].
  destruct (truthy_opt_int (Some s)); [|done].
  unfold seed_rng, emit_event, forwarded. simpl.
  rewrite omap_app. simpl. by rewrite app_nil_r.
Qed.

Lemma gen_begin_reuse_hooked gen_in st :
  hooked (events (gen_begin_reuse gen_in st)) = hooked (events st).
Proof.
  unfold gen_begin_reuse, emit_event, hooked. simpl.
  rewrite omap_app. simpl. by rewrite app_nil_r.
Qed.

Lemma gen_begin_reuse_forwarded gen_in st :
  forwarded (events (gen_begin_reuse gen_in st)) = forwarded (events st).
Proof.
  unfold gen_begin_reuse, emit_event, forwarded. simpl.
  rewrite omap_app. simpl. by rewrite app_nil_r.
Qed.

(** The call as a run of [m] passes from the primed state. *)
Lemma raw_generate_is_run prompt_tokens max_new single batch_count seed st :
  let start := gen_begin_reuse prompt_tokens (seeded seed st) in
  exists m, (m <= Z.to_nat max_new)%nat
    /\ _raw_generate prompt_tokens max_new single batch_count seed st
       = (mkResult [sampled m prompt_tokens start] prompt_tokens true single,
          mkState (rng (run m prompt_tokens start))
                  (prompt_tokens ++ sampled m prompt_tokens start)
                  (cache (run m prompt_tokens start)) max_new
                  (events (run m prompt_tokens start)))
    /\ Forall (fun t => t <> eos_token_id)
              (take (m - 1) (sampled m prompt_tokens start))
    /\ ((m < Z.to_nat max_new)%nat ->
        last (sampled m prompt_tokens start) = Some eos_token_id).
Proof.
  intros start.
  destruct (gen_loop_is_run (Z.to_nat max_new) prompt_tokens start)
    as (m & Hle & Hrun & _ & Hfree & Hlast).
  exists m. split; [done|]. split; [|by split].
  rewrite raw_generate_unfold. cbv zeta. fold start. rewrite Hrun.
  rewrite run_sequence. subst start. rewrite gen_begin_reuse_sequence.
  by rewrite drop_app_length.
Qed.


(** X12. ExLlama [_raw_generate], for every prompt, token budget, seed and
    initial state: [out_batches] is one row, the generator's sequence is
    the prompt followed by that row, the row has at most [max_new]
    tokens, the end-of-sequence token occurs in it at most once and then
    as its last token, and a row shorter than the budget ends in the
    end-of-sequence token (generation stops early for no other
    reason). *)
Theorem raw_generate_suffix_shape
    (prompt_tokens : list token) (max_new : Z) (single : bool)
    (batch_count : Z) (seed : option Z) (st : state) :
  let res := (_raw_generate prompt_tokens max_new single batch_count seed st).1 in
  let st' := (_raw_generate prompt_tokens max_new single batch_count seed st).2 in
  exists suffix,
    out_batches res = [suffix]
    /\ prompt res = prompt_tokens
    /\ sequence st' = prompt_tokens ++ suffix
    /\ (length suffix <= Z.to_nat max_new)%nat
    /\ (forall i, suffix !! i = Some eos_token_id -> S i = length suffix)
    /\ ((length suffix < Z.to_nat max_new)%nat -> last suffix = Some eos_token_id).
Proof.
  intros res st'. subst res st'.
  destruct (raw_generate_is_run prompt_tokens max_new single batch_count seed st)
    as (m & Hle & -> & Hfree & Hlast).
  set (suffix := sampled m prompt_tokens _) in *.
  assert (Hlen : length suffix = m) by apply sampled_length.
  exists suffix. cbn [fst snd out_batches prompt sequence].
  split; [done|]. split; [done|]. split; [done|]. split; [lia|]. split.
  - intros i Hi. pose proof (lookup_lt_Some _ _ _ Hi) as Hlt.
    destruct (decide (i < m - 1)%nat) as [Hin|Hout]; [|lia].
    rewrite Forall_lookup in Hfree.
    exfalso. apply (Hfree i eos_token_id); [|done].
    by rewrite lookup_take_lt.
  - rewrite Hlen. exact Hlast.
Qed.

(** X13. Every token ExLlama [_raw_generate] returns was handed to the
    generator and streamed: the tokens accepted during the call are the
    returned row, in order; [_post_token_gen] is called once per token,
    with the prompt followed by the tokens generated up to and including
    that one; and the model is run once per token, each time on the last
    token of the sequence so far only. *)
Theorem raw_generate_streams_every_token
    (prompt_tokens : list token) (max_new : Z) (single : bool)
    (batch_count : Z) (seed : option Z) (st : state) :
  let res := (_raw_generate prompt_tokens max_new single batch_count seed st).1 in
  let st' := (_raw_generate prompt_tokens max_new single batch_count seed st).2 in
  exists suffix,
    out_batches res = [suffix]
    /\ accepted (events st') = accepted (events st) ++ suffix
    /\ hooked (events st')
       = hooked (events st)
         ++ ((fun k => prompt_tokens ++ take (S k) suffix) <$> seq 0 (length suffix))
    /\ forwarded (events st')
       = forwarded (events st)
         ++ ((fun k => last_token (prompt_tokens ++ take k suffix))
               <$> seq 0 (length suffix)).
Proof.
  intros res st'. subst res st'.
  destruct (raw_generate_is_run prompt_tokens max_new single batch_count seed st)
    as (m & Hle & -> & _ & _).
  set (start := gen_begin_reuse prompt_tokens (seeded seed st)).
  exists (sampled m prompt_tokens start). cbn [fst snd out_batches events].
  rewrite sampled_length, run_accepted, run_hooked, run_forwarded.
  subst start.
  rewrite gen_begin_reuse_accepted, seeded_accepted, gen_begin_reuse_hooked,
    seeded_hooked, gen_begin_reuse_forwarded, seeded_forwarded,
    gen_begin_reuse_sequence.
  done.
Qed.

Lemma last_token_short (l : list token) : (length (last_token l) <= 1)%nat.
Proof. unfold last_token. rewrite length_drop. lia. Qed.

(** X14. With a token budget of zero or less, ExLlama [_raw_generate] primes
    the generator with the prompt and returns one empty row: the model
    is not run, nothing is streamed, and the token counter is set to the
    budget as given (a negative one included). *)
Theorem raw_generate_nothing_requested
    (prompt_tokens : list token) (max_new : Z) (single : bool)
    (batch_count : Z) (seed : option Z) (st : state) :
  max_new <= 0 ->
  let res := (_raw_generate prompt_tokens max_new single batch_count seed st).1 in
  let st' := (_raw_generate prompt_tokens max_new single batch_count seed st).2 in
  out_batches res = [[]]
  /\ sequence st' = prompt_tokens
  /\ forwarded (events st') = forwarded (events st)
  /\ hooked (events st') = hooked (events st)
  /\ generated_tkns st' = max_new.
Proof.
  intros Hle res st'. subst res st'. rewrite raw_generate_unfold. cbv zeta.
  replace (Z.to_nat max_new) with 0%nat by lia.
  cbn [ExLlama.gen_loop fst snd out_batches sequence events generated_tkns].
  rewrite gen_begin_reuse_sequence, drop_all, gen_begin_reuse_forwarded,
    seeded_forwarded, gen_begin_reuse_hooked, seeded_hooked.
  done.
Qed.


Lemma loop_body_same_core gen_in st1 st2 :
  same_core st1 st2 ->
  (loop_body gen_in st1).1 = (loop_body gen_in st2).1
  /\ same_core (loop_body gen_in st1).2 (loop_body gen_in st2).2.
Proof.
  destruct st1 as [r1 s1 c1 g1 e1], st2 as [r2 s2 c2 g2 e2].
  unfold same_core. simpl. intros (-> & -> & ->).
  unfold loop_body. simpl.
  destruct (forward _ _) as [logits c']. simpl.
  destruct (multinomial _ _) as [tok r']. simpl. done.
Qed.

Lemma gen_loop_same_core n gen_in st1 st2 :
  same_core st1 st2 ->
  same_core (gen_loop n gen_in st1) (gen_loop n gen_in st2).
Proof.
  revert st1 st2. induction n as [|n IH]; intros st1 st2 Hcore; [done|].
  cbn [ExLlama.gen_loop].
  destruct (loop_body_same_core gen_in st1 st2 Hcore) as [Htok Hcore'].
  destruct (loop_body gen_in st1) as [t1 st1'], (loop_body gen_in st2) as [t2 st2'].
  simpl in *. subst t2. destruct (t1 =? eos_token_id); [done|]. by apply IH.
Qed.

(** X15. With a seed other than 0, ExLlama [_raw_generate] is reproducible:
    two calls with the same arguments from states that agree on the
    generator's sequence and cache return the same result and leave the
    same random state, sequence and cache, whatever the random state and
    the counters were before. *)
Theorem raw_generate_reproducible_from_seed
    (prompt_tokens : list token) (max_new : Z) (single : bool)
    (batch_count : Z) (s : Z) (st1 st2 : state) :
  s <> 0 ->
  sequence st1 = sequence st2 -> cache st1 = cache st2 ->
  let r1 := _raw_generate prompt_tokens max_new single batch_count (Some s) st1 in
  let r2 := _raw_generate prompt_tokens max_new single batch_count (Some s) st2 in
  r1.1 = r2.1 /\ rng r1.2 = rng r2.2 /\ sequence r1.2 = sequence r2.2
  /\ cache r1.2 = cache r2.2.
Proof.
  intros Hs Hseq Hcache r1 r2. subst r1 r2. rewrite !raw_generate_unfold. cbv zeta.
  assert (Hcore : same_core (gen_begin_reuse prompt_tokens (seeded (Some s) st1))
                            (gen_begin_reuse prompt_tokens (seeded (Some s) st2))).
  { unfold same_core, gen_begin_reuse, seeded, truthy_opt_int.
    destruct (Z.eqb_spec s 0) as [|_]; [done|]. simpl. by rewrite Hseq, Hcache. }
  destruct (gen_loop_same_core (Z.to_nat max_new) prompt_tokens _ _ Hcore)
    as (Hr & Hsq & Hc).
  cbn [fst snd rng sequence cache]. rewrite Hsq. by repeat split.
Qed.

Lemma apply_warpers_from_app l1 l2 scores ids :
  apply_warpers_from (l1 ++ l2) scores ids
  = apply_warpers_from l2 (apply_warpers_from l1 scores ids) ids.
Proof.
  revert scores. induction l1 as [|sid l1 IH]; intros scores; [done|].
  simpl. destruct (value_is_valid (from_id sid)); simpl; apply IH.
Qed.


(** X16. A pass of the ExLlama generation loop reads the sequence only
    through its last token: the samplers are given the prompt
    ([gen_in]) as input ids, not the tokens generated so far, so two
    states with the same random state, cache and last token draw the
    same token whatever the rest of their sequences. *)
Theorem sampling_ignores_generated_tokens (gen_in : list token) (st1 st2 : state) :
  rng st1 = rng st2 -> cache st1 = cache st2 ->
  last_token (sequence st1) = last_token (sequence st2) ->
  (loop_body gen_in st1).1 = (loop_body gen_in st2).1
  /\ rng (loop_body gen_in st1).2 = rng (loop_body gen_in st2).2
  /\ cache (loop_body gen_in st1).2 = cache (loop_body gen_in st2).2.
Proof.
  destruct st1 as [r1 s1 c1 g1 e1], st2 as [r2 s2 c2 g2 e2]. simpl.
  intros -> -> Hlast. unfold ExLlama.loop_body. simpl. rewrite Hlast.
  destruct (forward _ _) as [logits c']. simpl.
  destruct (multinomial _ _) as [tok r']. simpl. done.
Qed.


(** X17. [_apply_warpers] applies the warpers of the sampler order from left
    to right (the pass over [order1 ++ order2] is the pass over [order2]
    applied to the result of the pass over [order1]) and passes over
    those whose value is not valid: the result is that of the order with
    them removed, and the scores come back unchanged when none is
    valid. *)
Theorem warpers_invalid_are_skipped (order1 order2 : list Z)
    (scores : tensor) (input_ids : list token) :
  ExLlama._apply_warpers (order1 ++ order2) scores input_ids
  = ExLlama._apply_warpers order2
      (ExLlama._apply_warpers order1 scores input_ids) input_ids
  /\ ExLlama._apply_warpers order1 scores input_ids
     = ExLlama._apply_warpers (List.filter usable order1) scores input_ids
  /\ (List.filter usable order1 = [] ->
      ExLlama._apply_warpers order1 scores input_ids = scores).
Proof.
  unfold ExLlama._apply_warpers.
  assert (Hfilter : forall order s,
    apply_warpers_from order s input_ids
    = apply_warpers_from (List.filter usable order) s input_ids).
  { induction order as [|sid order IH]; intros s; [done|].
    cbn [List.filter apply_warpers_from]. unfold usable at 1.
    destruct (value_is_valid (from_id sid)) eqn:Hv; cbn [negb]; [|apply IH].
    cbn [apply_warpers_from]. rewrite Hv. cbn [negb]. apply IH. }
  split; [apply apply_warpers_from_app|]. split; [apply Hfilter|].
  intros Hnone. by rewrite Hfilter, Hnone.
Qed.

(** X18. Only the repetition penalty is given the input ids: with a sampler
    order in which no valid warper is the repetition penalty, the scores
    [_apply_warpers] returns do not depend on them. *)
Theorem warpers_read_ids_only_for_repetition_penalty (order : list Z)
    (scores : tensor) (ids1 ids2 : list token) :
  Forall (fun sid => usable sid = true -> is_repetition_penalty (from_id sid) = false) order ->
  ExLlama._apply_warpers order scores ids1 = ExLlama._apply_warpers order scores ids2.
Proof.
  unfold ExLlama._apply_warpers, usable. intros Hall. revert scores.
  induction Hall as [|sid order Hsid _ IH]; intros scores; [done|].
  cbn [apply_warpers_from].
  destruct (value_is_valid (from_id sid)) eqn:Hv; cbn [negb]; [|apply IH].
  rewrite (Hsid eq_refl). apply IH.
Qed.

End Loop.

Import LoopFixtures.


Lemma sampling_ignores_generated_tokens_witness :
  let st1 := @mkState scoring_engine 3 [7; 8; 9] 4%nat 0 [] in
  let st2 := @mkState scoring_engine 3 [1; 9] 4%nat 2 [EvAccept 9] in
  (@ExLlama.loop_body Fixtures.toy_tokenizer scoring_engine [0; 6] [7] st1).1
  = (@ExLlama.loop_body Fixtures.toy_tokenizer scoring_engine [0; 6] [7] st2).1
  /\ rng (@ExLlama.loop_body Fixtures.toy_tokenizer scoring_engine [0; 6] [7] st1).2
     = rng (@ExLlama.loop_body Fixtures.toy_tokenizer scoring_engine [0; 6] [7] st2).2
  /\ cache (@ExLlama.loop_body Fixtures.toy_tokenizer scoring_engine [0; 6] [7] st1).2
     = cache (@ExLlama.loop_body Fixtures.toy_tokenizer scoring_engine [0; 6] [7] st2).2.
Proof.
  intros st1 st2.
  apply (@sampling_ignores_generated_tokens Fixtures.toy_tokenizer scoring_engine
           [0; 6] [7] st1 st2); reflexivity.
Defined.

Lemma warpers_read_ids_only_for_repetition_penalty_witness :
  @ExLlama._apply_warpers scoring_engine [1; 16; 3] 0 [7; 8]
  = @ExLlama._apply_warpers scoring_engine [1; 16; 3] 0 [].
Proof.
  apply (@warpers_read_ids_only_for_repetition_penalty scoring_engine [1; 16; 3] 0
           [7; 8] []).
  repeat constructor; vm_compute; congruence.
Defined.

Lemma raw_generate_nothing_requested_witness :
  let run := @ExLlama._raw_generate Fixtures.toy_tokenizer scoring_engine [0; 6]
               [7; 8] (-2) false 1 None (@mkState scoring_engine 3 [] 0%nat 5 []) in
  out_batches run.1 = [[]]
  /\ sequence run.2 = [7; 8]
  /\ forwarded (events run.2) = forwarded []
  /\ hooked (events run.2) = hooked []
  /\ generated_tkns run.2 = -2.
Proof.
  apply (@raw_generate_nothing_requested Fixtures.toy_tokenizer scoring_engine [0; 6]
           [7; 8] (-2) false 1 None (@mkState scoring_engine 3 [] 0%nat 5 [])).
  lia.
Defined.

Lemma raw_generate_reproducible_from_seed_witness :
  let r1 := @ExLlama._raw_generate Fixtures.toy_tokenizer scoring_engine [0; 6]
              [7; 8] 4 false 1 (Some 11) (@mkState scoring_engine 3 [] 0%nat 0 []) in
  let r2 := @ExLlama._raw_generate Fixtures.toy_tokenizer scoring_engine [0; 6]
              [7; 8] 4 false 1 (Some 11)
              (@mkState scoring_engine 42 [] 0%nat 9 [EvManualSeed 1]) in
  r1.1 = r2.1 /\ rng r1.2 = rng r2.2 /\ sequence r1.2 = sequence r2.2
  /\ cache r1.2 = cache r2.2.
Proof.
  apply (@raw_generate_reproducible_from_seed Fixtures.toy_tokenizer scoring_engine
           [0; 6] [7; 8] 4 false 1 11
           (@mkState scoring_engine 3 [] 0%nat 0 [])
           (@mkState scoring_engine 42 [] 0%nat 9 [EvManualSeed 1]));
    [lia | reflexivity | reflexivity].
Defined.

End ExLlamaLoopProps.

(* ===================================================================== *)
(** * horde.py: further properties of the submit / poll / collect run   *)
(* ===================================================================== *)

Module HordeRunProps.

Import Horde HordeRun HordeProps.
#[local] Open Scope horde_scope.

Section Run.
Context `{H : Host}.

Lemma blind_ret {A} (a : A) : trace_blind (ret a).
Proof. intros [v t]. unfold ret, fresh. simpl. by rewrite app_nil_r. Qed.

Lemma blind_raise {A} e : trace_blind (@raise A e).
Proof. intros [v t]. unfold raise, fresh. simpl. by rewrite app_nil_r. Qed.

Lemma blind_starve {A} : trace_blind (@starve A).
Proof. intros [v t]. unfold starve, fresh. simpl. by rewrite app_nil_r. Qed.

Lemma blind_record e : trace_blind (record e).
Proof. by intros [v t]. Qed.

Lemma blind_get_vars : trace_blind get_vars.
Proof. intros [v t]. unfold get_vars, fresh. simpl. by rewrite app_nil_r. Qed.

Lemma blind_set_vars v : trace_blind (set_vars v).
Proof. intros [v0 t]. unfold set_vars, fresh. simpl. by rewrite app_nil_r. Qed.

Lemma blind_lift {A} (r : exn + A) : trace_blind (lift r).
Proof. destruct r; [apply blind_raise | apply blind_ret]. Qed.

Lemma blind_bind {A B} (m : M A) (k : A -> M B) :
  trace_blind m -> (forall a, trace_blind (k a)) -> trace_blind (bind m k).
Proof.
  intros Hm Hk w. unfold bind. rewrite (Hm w).
  destruct (m (fresh w)) as [[a|e|] [v1 n1]]; simpl; try done.
  rewrite (Hk a (mkWorld v1 (trace w ++ n1))), (Hk a (mkWorld v1 n1)).
  unfold fresh. simpl. by rewrite app_assoc.
Qed.

Lemma blind_catch {A} c (m : M A) h :
  trace_blind m -> (forall e, trace_blind (h e)) -> trace_blind (catch c m h).
Proof.
  intros Hm Hh w. unfold catch. rewrite (Hm w).
  destruct (m (fresh w)) as [[a|e|] [v1 n1]]; simpl; try done.
  destruct (c e); [|done].
  rewrite (Hh e (mkWorld v1 (trace w ++ n1))), (Hh e (mkWorld v1 n1)).
  unfold fresh. simpl. by rewrite app_assoc.
Qed.

Lemma blind_mapM {A B} (f : A -> M B) l :
  (forall x, trace_blind (f x)) -> trace_blind (mapM f l).
Proof.
  intros Hf. induction l as [|x l IH]; simpl.
  - apply blind_ret.
  - apply blind_bind; [done|]. intros y. apply blind_bind; [done|].
    intros ys. apply blind_ret.
Qed.

Lemma blind_requests_get u hs a : trace_blind (requests_get u hs a).
Proof.
  unfold requests_get. apply blind_bind; [apply blind_record|].
  intros _. destruct a; [apply blind_raise | apply blind_ret].
Qed.

Lemma blind_requests_post u b hs a : trace_blind (requests_post u b hs a).
Proof.
  unfold requests_post. apply blind_bind; [apply blind_record|].
  intros _. destruct a; [apply blind_raise | apply blind_ret].
Qed.

Lemma blind_json r : trace_blind (json r).
Proof. unfold json. destruct (json_body r); [apply blind_ret | apply blind_raise]. Qed.

Lemma blind_log l m : trace_blind (log l m).
Proof. apply blind_record. Qed.

Lemma blind_poll_loop self rid hs polls : trace_blind (poll_loop self rid hs polls).
Proof.
  induction polls as [|a polls IH]; simpl; [apply blind_starve|].
  unfold sleep, log.
  repeat first
    [ progress intros | exact IH
    | apply blind_bind | apply blind_catch | apply blind_requests_get | apply blind_json
    | apply blind_ret | apply blind_raise | apply blind_record
    | apply blind_get_vars | apply blind_set_vars | apply blind_lift
    | match goal with
      | |- trace_blind (if ?b then _ else _) => destruct b
      | |- trace_blind (match ?x with _ => _ end) => destruct x
      end ].
Qed.

Lemma blind_submit self p n gs b seed submit :
  trace_blind (submit_request self p n gs b seed submit).
Proof.
  unfold submit_request, log.
  repeat first
    [ progress intros
    | apply blind_bind | apply blind_catch | apply blind_requests_post | apply blind_json
    | apply blind_ret | apply blind_raise | apply blind_record
    | apply blind_get_vars | apply blind_set_vars | apply blind_lift
    | match goal with
      | |- trace_blind (if ?b then _ else _) => destruct b
      | |- trace_blind (match ?x with _ => _ end) => destruct x
      end ].
Qed.

Lemma blind_collect p s d : trace_blind (collect p s d).
Proof.
  unfold collect, log, np_array, gen_server, encode_generation.
  repeat first
    [ progress intros
    | apply blind_bind | apply blind_mapM
    | apply blind_ret | apply blind_raise | apply blind_record | apply blind_lift
    | match goal with
      | |- trace_blind (if ?b then _ else _) => destruct b
      end ].
Qed.

Lemma blind_raw_generate self p n gs s b seed submit polls :
  trace_blind (_raw_generate self p n gs s b seed submit polls).
Proof.
  unfold _raw_generate.
  apply blind_bind; [apply blind_submit|]. intros rid.
  apply blind_bind; [apply blind_poll_loop|]. intros d. apply blind_collect.
Qed.


Lemma getitem_field d k v : getitem d k = inr v -> field d k = Some v.
Proof.
  destruct d; simpl; try done.
  destruct (kv !! k) eqn:Hk; [|done]. by intros [= ->].
Qed.

Lemma status_fields_intro r d dn wt qp qs :
  ok r = true -> json_body r = Some d ->
  getitem d "done" = inr dn -> getitem d "wait_time" = inr wt ->
  getitem d "queue_position" = inr qp -> getitem d "waiting" = inr qs ->
  status_fields r = Some (d, dn, wt, qp, qs).
Proof.
  intros Hok Hj Hd%getitem_field Hw%getitem_field Hq%getitem_field Hs%getitem_field.
  unfold status_fields. rewrite Hok, Hj. cbn [mbind option_bind].
  rewrite Hd. cbn [mbind option_bind]. rewrite Hw. cbn [mbind option_bind].
  rewrite Hq. cbn [mbind option_bind]. by rewrite Hs.
Qed.

Lemma same_settings_refl v : same_settings v v.
Proof. by repeat split. Qed.

Lemma same_settings_trans v1 v2 v3 :
  same_settings v1 v2 -> same_settings v2 v3 -> same_settings v1 v3.
Proof. unfold same_settings. intros (?&?&?) (?&?&?). repeat split; congruence. Qed.

(** One answer: either the loop goes on (a pending status), or it ends. *)
Lemma poll_loop_step self rid hs a rest w :
  (exists r w1,
      a = NetResponse r /\ is_pending r = true
      /\ poll_loop self rid hs (a :: rest) w = poll_loop self rid hs rest w1
      /\ trace w1 = trace w ++ pending_events self rid hs r
      /\ same_settings (vars w) (vars w1))
  \/ (exists o w1 extra,
        poll_loop self rid hs (a :: rest) w = (o, w1)
        /\ o <> Starved
        /\ trace w1 = trace w ++ EvGet (status_url self rid) hs :: extra
        /\ forallb is_log extra = true
        /\ same_settings (vars w) (vars w1)
        /\ forall d, o = Returns d ->
             extra = []
             /\ exists r dn wt qp qs,
                  a = NetResponse r /\ is_done r = true
                  /\ status_fields r = Some (d, dn, wt, qp, qs)
                  /\ horde_wait_time (vars w1) = wt
                  /\ horde_queue_position (vars w1) = qp
                  /\ horde_queue_size (vars w1) = qs).
Proof.
  cbn [poll_loop]. destruct a as [e|r].
  { right. destruct e; mstep;
      (eexists _, _, _; split; [reflexivity|]; split; [done|];
       split; [cbn [trace]; rewrite <- ?app_assoc; reflexivity|];
       split; [reflexivity|]; split; [apply same_settings_refl|]; done). }
  mstep. destruct (ok r) eqn:Hok; cbn [negb]; mstep.
  2:{ right. eexists _, _, _. split; [reflexivity|]. split; [done|].
      split; [cbn [trace]; rewrite <- ?app_assoc; reflexivity|].
      split; [reflexivity|]. split; [apply same_settings_refl|]. done. }
  unfold json. destruct (json_body r) as [d|] eqn:Hj; mstep.
  2:{ right. eexists _, _, _. split; [reflexivity|]. split; [done|].
      split; [cbn [trace]; rewrite <- ?app_assoc; reflexivity|].
      split; [reflexivity|]. split; [apply same_settings_refl|]. done. }
  destruct (contains "done" d) as [e|[|]] eqn:Hc; mstep; cbn [negb]; mstep.
  1,3: right; eexists _, _, _; (split; [reflexivity|]); (split; [done|]);
       (split; [cbn [trace]; rewrite <- ?app_assoc; reflexivity|]);
       (split; [reflexivity|]); (split; [apply same_settings_refl|]); done.
  destruct (getitem d "done") as [e|dn] eqn:Hdn; mstep.
  { right; eexists _, _, _; (split; [reflexivity|]); (split; [done|]);
       (split; [cbn [trace]; rewrite <- ?app_assoc; reflexivity|]);
       (split; [reflexivity|]); (split; [apply same_settings_refl|]); done. }
  destruct (getitem d "wait_time") as [e|wt] eqn:Hwt; mstep.
  { right; eexists _, _, _; (split; [reflexivity|]); (split; [done|]);
       (split; [cbn [trace]; rewrite <- ?app_assoc; reflexivity|]);
       (split; [reflexivity|]); (split; [apply same_settings_refl|]); done. }
  destruct (getitem d "queue_position") as [e|qp] eqn:Hqp; mstep.
  { right; eexists _, _, _; (split; [reflexivity|]); (split; [done|]);
       (split; [cbn [trace]; rewrite <- ?app_assoc; reflexivity|]);
       (split; [reflexivity|]); (split; [by repeat split|]); done. }
  destruct (getitem d "waiting") as [e|qs] eqn:Hqs; mstep.
  { right; eexists _, _, _; (split; [reflexivity|]); (split; [done|]);
       (split; [cbn [trace]; rewrite <- ?app_assoc; reflexivity|]);
       (split; [reflexivity|]); (split; [by repeat split|]); done. }
  pose proof (status_fields_intro r d dn wt qp qs Hok Hj Hdn Hwt Hqp Hqs) as Hsf.
  destruct (truthy dn) eqn:Htr; cbn [negb]; mstep.
  - right. eexists _, _, _. split; [reflexivity|]. split; [done|].
    split; [cbn [trace]; rewrite <- ?app_assoc; reflexivity|].
    split; [reflexivity|]. split; [by repeat split|].
    intros d' [= <-]. split; [done|]. exists r, dn, wt, qp, qs.
    unfold is_done. rewrite Hsf. by repeat split.
  - left. eexists r, _. split; [done|]. split; [unfold is_pending; by rewrite Hsf, Htr|].
    split; [reflexivity|]. split.
    + cbn [trace]. unfold pending_events. rewrite Hj. simpl.
      rewrite <- !app_assoc. reflexivity.
    + by repeat split.
Qed.

(** The whole loop: some pending answers, then the script ends or one
    answer ends the loop. *)
Lemma poll_loop_run self rid hs polls w :
  exists pend tail,
    forallb is_pending pend = true
    /\ trace (poll_loop self rid hs polls w).2
       = trace w ++ concat (pending_events self rid hs <$> pend) ++ tail
    /\ same_settings (vars w) (vars (poll_loop self rid hs polls w).2)
    /\ (((poll_loop self rid hs polls w).1 = Starved
         /\ polls = NetResponse <$> pend /\ tail = [])
        \/ ((poll_loop self rid hs polls w).1 <> Starved
            /\ exists a rest extra,
                 polls = (NetResponse <$> pend) ++ a :: rest
                 /\ tail = EvGet (status_url self rid) hs :: extra
                 /\ forallb is_log extra = true
                 /\ forall d, (poll_loop self rid hs polls w).1 = Returns d ->
                      extra = []
                      /\ exists r dn wt qp qs,
                           a = NetResponse r /\ is_done r = true
                           /\ status_fields r = Some (d, dn, wt, qp, qs)
                           /\ horde_wait_time (vars (poll_loop self rid hs polls w).2) = wt
                           /\ horde_queue_position (vars (poll_loop self rid hs polls w).2) = qp
                           /\ horde_queue_size (vars (poll_loop self rid hs polls w).2) = qs)).
Proof.
  revert w. induction polls as [|a polls IH]; intros w.
  - exists [], []. simpl. rewrite app_nil_r.
    split; [done|]. split; [done|]. split; [apply same_settings_refl|]. by left.
  - destruct (poll_loop_step self rid hs a polls w)
      as [(r & w1 & -> & Hp & Hstep & Htr & Hset)
         |(o & w1 & extra & Hstep & Hne & Htr & Hlog & Hset & Hret)].
    + destruct (IH w1) as (pend & tail & Hall & Htr1 & Hset1 & Hcases).
      exists (r :: pend), tail. rewrite Hstep.
      split; [simpl; by rewrite Hp|].
      split; [rewrite Htr1, Htr; simpl; by rewrite <- !app_assoc|].
      split; [by eapply same_settings_trans|].
      destruct Hcases as [(Hst & Hpolls & Htail)
                         |(Hns & a' & rest & extra & Hpolls & Htail & Hlog & Hret)].
      * left. split; [done|]. split; [by rewrite Hpolls|done].
      * right. split; [done|]. exists a', rest, extra.
        split; [by rewrite Hpolls|]. split; [done|]. split; [done|]. exact Hret.
    + exists [], (EvGet (status_url self rid) hs :: extra). rewrite Hstep. simpl.
      split; [done|]. split; [done|]. split; [done|]. right. split; [done|].
      exists a, polls, extra. split; [done|]. split; [done|]. split; [done|]. exact Hret.
Qed.




Lemma submit_run self p n gs b seed submit w :
  exists pre post,
    trace (submit_request self p n gs b seed submit w).2
    = trace w ++ pre ++ submit_event self p n gs b (vars w) :: post
    /\ forallb is_log pre = true /\ forallb is_log post = true
    /\ vars (submit_request self p n gs b seed submit w).2 = with_lastctx p (vars w)
    /\ (submit_request self p n gs b seed submit w).1 <> Starved
    /\ forall rid, (submit_request self p n gs b seed submit w).1 = Returns rid ->
         exists r, submit = NetResponse r /\ accepted_id r = Some rid.
Proof.
  unfold submit_request.
  exists (match seed with
          | Some _ => [EvLog Warning
                         "Seed is unsupported on the APIInferenceModel. Seed will be ignored."]
          | None => []
          end).
  destruct seed as [s|]; mstep.
  all: destruct submit as [e|r]; mstep.
  all: try (destruct e; mstep; eexists;
            (split; [cbn [trace]; rewrite <- ?app_assoc; reflexivity|]);
            (split; [reflexivity|]); (split; [reflexivity|]);
            (split; [reflexivity|]); (split; [done|]); done).
  all: destruct (status_code r =? 503) eqn:Hs; mstep.
  all: try (eexists;
            (split; [cbn [trace]; rewrite <- ?app_assoc; reflexivity|]);
            (split; [reflexivity|]); (split; [reflexivity|]);
            (split; [reflexivity|]); (split; [done|]); done).
  all: destruct (ok r) eqn:Hok; cbn [negb]; mstep.
  all: try (eexists;
            (split; [cbn [trace]; rewrite <- ?app_assoc; reflexivity|]);
            (split; [reflexivity|]); (split; [reflexivity|]);
            (split; [reflexivity|]); (split; [done|]); done).
  all: unfold json; destruct (json_body r) as [d|] eqn:Hj; mstep.
  all: try (eexists;
            (split; [cbn [trace]; rewrite <- ?app_assoc; reflexivity|]);
            (split; [reflexivity|]); (split; [reflexivity|]);
            (split; [reflexivity|]); (split; [done|]); done).
  all: destruct (getitem d "id") as [e|rid] eqn:Hid; mstep.
  all: try (eexists;
            (split; [cbn [trace]; rewrite <- ?app_assoc; reflexivity|]);
            (split; [reflexivity|]); (split; [reflexivity|]);
            (split; [reflexivity|]); (split; [done|]); done).
  all: eexists;
       (split; [cbn [trace]; rewrite <- ?app_assoc; reflexivity|]);
       (split; [reflexivity|]); (split; [reflexivity|]);
       (split; [reflexivity|]); (split; [done|]);
       intros rid' [= <-]; exists r; (split; [done|]);
       unfold accepted_id; rewrite Hs, Hok, Hj; cbn [mbind option_bind];
       by apply getitem_field.
Qed.

Lemma mapM_gen_server_run cgens w :
  (mapM gen_server cgens w).2 = w /\ (mapM gen_server cgens w).1 <> Starved.
Proof.
  induction cgens as [|g cgens IH]; [by split|].
  cbn [mapM]. remember (mapM gen_server cgens) as rec eqn:Hrec.
  unfold bind, gen_server. mstep.
  destruct (getitem g "worker_name") as [e|nm]; mstep; [by split|].
  destruct (getitem g "worker_id") as [e|id]; mstep; [by split|].
  destruct (rec w) as [[l|e|] w'] eqn:Hm; simpl in *; destruct IH as [-> Hne];
    by split.
Qed.

Lemma mapM_encode_generation_run cgens w :
  (mapM encode_generation cgens w).2 = w
  /\ (mapM encode_generation cgens w).1 <> Starved
  /\ forall rows, (mapM encode_generation cgens w).1 = Returns rows ->
        rows = (fun g => tokenizer_encode (generation_text g)) <$> cgens
        /\ Forall (fun g => is_Some (field g "text")) cgens.
Proof.
  induction cgens as [|g cgens IH].
  { split; [done|]. split; [done|]. intros rows' [= <-]. by split. }
  cbn [mapM]. remember (mapM encode_generation cgens) as rec eqn:Hrec.
  unfold bind, encode_generation. mstep.
  destruct (getitem g "text") as [e|t] eqn:Ht; mstep; [by repeat split|].
  apply getitem_field in Ht.
  destruct (rec w) as [[l|e|] w'] eqn:Hm;
    simpl in *; destruct IH as (-> & Hne & Hrows); try done.
  split; [done|]. split; [done|]. intros rows' [= <-].
  destruct (Hrows l eq_refl) as [-> Hall].
  split.
  - unfold generation_text at 2. by rewrite Ht.
  - constructor; [by rewrite Ht|done].
Qed.

Lemma bind_raises {A B} (m : M A) (k : A -> M B) w e w' :
  m w = (Raises e, w') -> bind m k w = (Raises e, w').
Proof. unfold bind. by intros ->. Qed.

Lemma collect_run p single d w :
  exists logs,
    trace (collect p single d w).2 = trace w ++ logs
    /\ forallb is_log logs = true
    /\ vars (collect p single d w).2 = vars w
    /\ (collect p single d w).1 <> Starved
    /\ forall res, (collect p single d w).1 = Returns res ->
         exists f g cgens,
           field d "faulted" = Some f /\ truthy f = false
           /\ field d "generations" = Some g /\ iterate g = inr cgens
           /\ Forall (fun c => is_Some (field c "text")) cgens
           /\ res = mkResult ((fun c => tokenizer_encode (generation_text c)) <$> cgens)
                             p true single.
Proof.
  unfold collect. mstep.
  destruct (getitem d "faulted") as [e|f] eqn:Hf; mstep.
  { eexists. split; [reflexivity|].
    repeat split; first [done | discriminate | by intros ? [=]]. }
  destruct (truthy f) eqn:Htf; mstep.
  { eexists. split; [reflexivity|].
    repeat split; first [done | discriminate | by intros ? [=]]. }
  destruct (getitem d "generations") as [e|g] eqn:Hg; mstep.
  { eexists. split; [reflexivity|].
    repeat split; first [done | discriminate | by intros ? [=]]. }
  destruct (iterate g) as [e|cgens] eqn:Hit; mstep.
  { eexists. split; [reflexivity|].
    repeat split; first [done | discriminate | by intros ? [=]]. }
  pose proof (mapM_gen_server_run cgens
                (mkWorld (vars w)
                   (trace w ++ [EvLog Debug ("Last Horde Status Message: " +:+ py_str d)])))
    as [Hw Hne].
  destruct (mapM gen_server cgens _) as [[servers|e|] w1] eqn:Hm; simpl in Hw, Hne;
    subst w1; [| |done].
  2:{ rewrite !(bind_raises _ _ _ _ _ Hm). eexists. split; [cbn [snd trace]; reflexivity|].
      repeat split; first [done | discriminate | by intros ? [=]]. }
  rewrite !(bind_returns _ _ _ _ _ Hm). mstep.
  pose proof (mapM_encode_generation_run cgens
                (mkWorld (vars w)
                   ((trace w ++ [EvLog Debug ("Last Horde Status Message: " +:+ py_str d)])
                      ++ [EvLog Info ("Generations by: " +:+ str_pairs servers)])))
    as (Hw2 & Hne2 & Hrows).
  destruct (mapM encode_generation cgens _) as [[rows|e|] w3] eqn:Hm2;
    simpl in Hw2, Hne2, Hrows; subst w3; [| |done].
  2:{ rewrite !(bind_raises _ _ _ _ _ Hm2). eexists.
      split; [cbn [snd trace]; rewrite <- ?app_assoc; reflexivity|].
      repeat split; first [done | discriminate | by intros ? [=]]. }
  rewrite !(bind_returns _ _ _ _ _ Hm2).
  destruct (Hrows rows eq_refl) as [-> Htexts].
  unfold np_array. destruct (rectangular _ || numpy_ragged); mstep.
  - eexists. split; [rewrite <- ?app_assoc; reflexivity|].
    split; [done|]. split; [done|]. split; [discriminate|].
    intros res [= <-]. exists f, g, cgens.
    split; [by apply getitem_field|]. split; [done|].
    split; [by apply getitem_field|]. by repeat split.
  - eexists. split; [rewrite <- ?app_assoc; reflexivity|].
    repeat split; first [done | discriminate | by intros ? [=]].
Qed.

#[local] Abbreviation agent_headers := ([ ("Client-Agent", client_agent) ]%string).

Lemma raw_generate_run self p n gs single b seed submit polls w :
  let run := _raw_generate self p n gs single b seed submit polls w in
  exists pre post rest_events,
    trace run.2 = trace w ++ pre ++ submit_event self p n gs b (vars w) :: post ++ rest_events
    /\ forallb is_log pre = true /\ forallb is_log post = true
    /\ same_settings (with_lastctx p (vars w)) (vars run.2)
    /\ (((exists e, run.1 = Raises e) /\ rest_events = []
         /\ forall r, submit = NetResponse r -> accepted_id r = None)
        \/ exists r0 rid pend tail logs,
             submit = NetResponse r0 /\ accepted_id r0 = Some rid
             /\ forallb is_pending pend = true
             /\ rest_events
                = concat (pending_events self rid agent_headers <$> pend) ++ tail ++ logs
             /\ forallb is_log logs = true
             /\ ((run.1 = Starved /\ polls = NetResponse <$> pend
                  /\ tail = [] /\ logs = [])
                 \/ (run.1 <> Starved
                     /\ exists a rest extra,
                          polls = (NetResponse <$> pend) ++ a :: rest
                          /\ tail = EvGet (status_url self rid) agent_headers :: extra
                          /\ forallb is_log extra = true
                          /\ forall res, run.1 = Returns res ->
                               extra = []
                               /\ exists r d dn wt qp qs f g cgens,
                                    a = NetResponse r /\ is_done r = true
                                    /\ status_fields r = Some (d, dn, wt, qp, qs)
                                    /\ horde_wait_time (vars run.2) = wt
                                    /\ horde_queue_position (vars run.2) = qp
                                    /\ horde_queue_size (vars run.2) = qs
                                    /\ field d "faulted" = Some f /\ truthy f = false
                                    /\ field d "generations" = Some g
                                    /\ iterate g = inr cgens
                                    /\ Forall (fun c => is_Some (field c "text")) cgens
                                    /\ res = mkResult
                                         ((fun c => tokenizer_encode (generation_text c))
                                            <$> cgens) p true single))).
Proof.
  intros run. subst run. rewrite raw_generate_phases.
  destruct (submit_run self p n gs b seed submit w)
    as (pre & post & Htr0 & Hpre & Hpost & Hv0 & Hns0 & Hacc).
  destruct (submit_request self p n gs b seed submit w) as [[rid|e|] w0] eqn:Hsub;
    simpl in Htr0, Hv0, Hns0, Hacc; [| |done].
  2:{ exists pre, post, []. simpl. rewrite app_nil_r.
      split; [done|]. split; [done|]. split; [done|].
      split; [rewrite Hv0; apply same_settings_refl|].
      left. split; [by exists e|]. split; [done|].
      intros r ->. destruct (accepted_id r) as [rid|] eqn:Hid; [|done].
      destruct (submit_accepted self p n gs b seed r rid w Hid) as (w1 & Hs1 & _).
      congruence. }
  destruct (Hacc rid eq_refl) as (r0 & -> & Hid).
  destruct (poll_loop_run self rid agent_headers polls w0)
    as (pend & tail & Hall & Htr1 & Hset1 & Hcases).
  destruct (poll_loop self rid agent_headers polls w0) as [[d|e|] w1] eqn:Hloop;
    simpl in Htr1, Hset1, Hcases.
  - destruct Hcases as [(Hst & _)|(_ & a & rest & extra & Hpolls & Htail & Hlog & Hret)];
      [done|].
    destruct (Hret d eq_refl) as (-> & r & dn & wt & qp & qs & -> & Hdone & Hsf & Hwt & Hqp & Hqs).
    destruct (collect_run p single d w1) as (logs & Htr2 & Hlogs & Hv2 & Hns2 & Hres).
    exists pre, post, (concat (pending_events self rid agent_headers <$> pend) ++ tail ++ logs).
    split; [rewrite Htr2, Htr1, Htr0; by rewrite <- !app_assoc|].
    split; [done|]. split; [done|].
    split; [rewrite Hv2, <- Hv0; done|].
    right. exists r0, rid, pend, tail, logs.
    split; [done|]. split; [done|]. split; [done|]. split; [done|]. split; [done|].
    right. split; [done|]. exists (NetResponse r), rest, [].
    split; [done|]. split; [done|]. split; [done|].
    intros res Hr. split; [done|].
    destruct (Hres res Hr) as (f & g & cgens & Hf & Htf & Hg & Hit & Htx & ->).
    exists r, d, dn, wt, qp, qs, f, g, cgens. rewrite Hv2.
    by repeat split.
  - destruct Hcases as [(Hst & _)|(_ & a & rest & extra & Hpolls & Htail & Hlog & Hret)];
      [done|].
    exists pre, post, (concat (pending_events self rid agent_headers <$> pend) ++ tail ++ []).
    cbn [fst snd].
    split; [rewrite Htr1, Htr0; rewrite app_nil_r; by rewrite <- !app_assoc|].
    split; [done|]. split; [done|]. split; [by rewrite <- Hv0|].
    right. exists r0, rid, pend, tail, [].
    split; [done|]. split; [done|]. split; [done|]. split; [done|]. split; [done|].
    right. split; [done|]. exists a, rest, extra.
    split; [done|]. split; [done|]. split; [done|]. by intros res [=].
  - destruct Hcases as [(_ & Hpolls & Htail)|(Hns & _)]; [|done].
    exists pre, post, (concat (pending_events self rid agent_headers <$> pend) ++ tail ++ []).
    cbn [fst snd].
    split; [rewrite Htr1, Htr0; rewrite app_nil_r; by rewrite <- !app_assoc|].
    split; [done|]. split; [done|]. split; [by rewrite <- Hv0|].
    right. exists r0, rid, pend, tail, [].
    split; [done|]. split; [done|]. split; [done|]. split; [done|]. split; [done|].
    left. by repeat split.
Qed.


Lemma polling_logs l : forallb is_log l = true -> polling l = [].
Proof.
  induction l as [|e l IH]; [done|]. simpl. intros [He Hl]%andb_prop.
  destruct e; try done. by apply IH.
Qed.

Lemma posts_logs l : forallb is_log l = true -> posts l = [].
Proof.
  induction l as [|e l IH]; [done|]. simpl. intros [He Hl]%andb_prop.
  destruct e; try done. by apply IH.
Qed.

Lemma get_headers_logs l : forallb is_log l = true -> get_headers l = [].
Proof.
  induction l as [|e l IH]; [done|]. simpl. intros [He Hl]%andb_prop.
  destruct e; try done. by apply IH.
Qed.

Lemma posts_app l1 l2 : posts (l1 ++ l2) = posts l1 ++ posts l2.
Proof. apply omap_app. Qed.

Lemma get_headers_app l1 l2 : get_headers (l1 ++ l2) = get_headers l1 ++ get_headers l2.
Proof. apply omap_app. Qed.

Lemma polling_pendings self rid hs pend :
  polling (concat (pending_events self rid hs <$> pend))
  = concat (replicate (length pend) [PGet (status_url self rid); PSleep 1]).
Proof. induction pend as [|r pend IH]; [done|]. simpl. by rewrite <- IH. Qed.

Lemma posts_pendings self rid hs pend :
  posts (concat (pending_events self rid hs <$> pend)) = [].
Proof. induction pend as [|r pend IH]; [done|]. simpl. exact IH. Qed.

Lemma get_headers_pendings self rid hs pend :
  get_headers (concat (pending_events self rid hs <$> pend)) = replicate (length pend) hs.
Proof. induction pend as [|r pend IH]; [done|]. simpl. by rewrite <- IH. Qed.

(** X1. Horde [_raw_generate] returns a result only for a job that was
    accepted and reported done and not faulted: the POST was answered
    with a job id, the status answers before the last read one were all
    well-formed and not done, the last one is done with a falsy
    [faulted], and the result is the encodings of the texts of its
    generations, with the prompt tokens, [is_whole_generation] true and
    the caller's [single_line]. *)
Theorem raw_generate_returns_only_when_done
    (self : model_backend) (p : list token) (n : Z) (gs : GenerationSettings)
    (single : bool) (b : Z) (seed : option Z)
    (submit : net_result) (polls : list net_result) (w : world)
    (res : GenerationResult) :
  (_raw_generate self p n gs single b seed submit polls w).1 = Returns res ->
  exists r0 rid pend r rest g cgens,
    submit = NetResponse r0 /\ accepted_id r0 = Some rid
    /\ polls = (NetResponse <$> pend) ++ NetResponse r :: rest
    /\ forallb is_pending pend = true
    /\ is_done r = true /\ faulted_flag r = Some false
    /\ (json_body r ≫= fun d => field d "generations") = Some g
    /\ iterate g = inr cgens
    /\ res = mkResult ((fun c => tokenizer_encode (generation_text c)) <$> cgens)
                      p true single.
Proof.
  intros Hret.
  destruct (raw_generate_run self p n gs single b seed submit polls w)
    as (pre & post & evs & _ & _ & _ & _ & [((e & He) & _)|Hacc]); [congruence|].
  destruct Hacc as (r0 & rid & pend & tail & logs & -> & Hid & Hall & _ & _ & Hcases).
  destruct Hcases as [(Hst & _)|(_ & a & rest & extra & -> & _ & _ & Hres)]; [congruence|].
  destruct (Hres res Hret) as (_ & r & d & dn & wt & qp & qs & f & g & cgens & -> & Hdone
                               & Hsf & _ & _ & _ & Hf & Htf & Hg & Hit & _ & ->).
  apply status_fields_inv in Hsf as (_ & Hj & _).
  exists r0, rid, pend, r, rest, g, cgens.
  split; [done|]. split; [done|]. split; [done|]. split; [done|]. split; [done|].
  split; [unfold faulted_flag; rewrite Hj; cbn [mbind option_bind]; rewrite Hf;
          cbn [mbind option_bind]; by rewrite Htf|].
  split; [by rewrite Hj|]. done.
Qed.

(** X2. Once a job id is obtained, the status requests and sleeps of Horde
    [_raw_generate], whatever the cluster answers, are k pairs of a GET
    of the job's status URL and a one-second sleep, followed by one last
    GET without a sleep unless the answers ran out; k is smaller than
    the number of answers available (equal to it when they ran out).
    There is never a sleep without a GET before it, nor two GETs without
    a sleep between them. *)
Theorem polling_alternates
    (self : model_backend) (p : list token) (n : Z) (gs : GenerationSettings)
    (single : bool) (b : Z) (seed : option Z)
    (r0 : response) (rid : value) (polls : list net_result) (w : world) :
  accepted_id r0 = Some rid ->
  let run := _raw_generate self p n gs single b seed (NetResponse r0) polls w in
  let u := status_url self rid in
  exists k : nat,
    polling (trace run.2)
    = polling (trace w) ++ concat (replicate k [PGet u; PSleep 1])
        ++ (if is_starved run.1 then [] else [PGet u])
    /\ (if is_starved run.1 then k = length polls else (k < length polls)%nat).
Proof.
  intros Hid run u. subst run u.
  destruct (raw_generate_run self p n gs single b seed (NetResponse r0) polls w)
    as (pre & post & evs & Htr & Hpre & Hpost & _ & [(_ & _ & Hno)|Hacc]).
  { specialize (Hno r0 eq_refl). congruence. }
  destruct Hacc as (r0' & rid' & pend & tail & logs & [= <-] & Hid' & Hall & -> & Hlogs & Hcases).
  assert (rid' = rid) as -> by congruence.
  exists (length pend). rewrite Htr.
  rewrite !polling_app, (polling_logs pre Hpre). cbn [app].
  change (submit_event self p n gs b (vars w) :: post
            ++ concat (pending_events self rid agent_headers <$> pend) ++ tail ++ logs)
    with ([submit_event self p n gs b (vars w)] ++ post
            ++ concat (pending_events self rid agent_headers <$> pend) ++ tail ++ logs).
  rewrite !polling_app, (polling_logs post Hpost), polling_pendings, (polling_logs logs Hlogs).
  cbn [app polling omap submit_event]. rewrite app_nil_r.
  destruct Hcases as [(-> & -> & -> & _)|(Hns & a & rest & extra & -> & -> & Hextra & _)].
  - simpl. split; [done|]. by rewrite length_fmap.
  - destruct (_raw_generate self p n gs single b seed (NetResponse r0) _ w).1; try done.
    + simpl. rewrite (polling_logs extra Hextra).
      split; [done|]. rewrite length_app, length_fmap. simpl. lia.
    + simpl. rewrite (polling_logs extra Hextra).
      split; [done|]. rewrite length_app, length_fmap. simpl. lia.
Qed.

(** X3. When the POST of Horde [_raw_generate] does not yield a job id (it
    raised, or it was answered with an error status, with a body that is
    not JSON or with JSON without an [id]), the call raises and makes no
    status request and no sleep. *)
Theorem no_poll_without_job_id
    (self : model_backend) (p : list token) (n : Z) (gs : GenerationSettings)
    (single : bool) (b : Z) (seed : option Z)
    (submit : net_result) (polls : list net_result) (w : world) :
  (forall r, submit = NetResponse r -> accepted_id r = None) ->
  let run := _raw_generate self p n gs single b seed submit polls w in
  (exists e, run.1 = Raises e)
  /\ polling (trace run.2) = polling (trace w).
Proof.
  intros Hno run. subst run.
  destruct (raw_generate_run self p n gs single b seed submit polls w)
    as (pre & post & evs & Htr & Hpre & Hpost & _ & [(He & -> & _)|Hacc]).
  - split; [done|]. rewrite Htr, app_nil_r.
    change (submit_event self p n gs b (vars w) :: post)
      with ([submit_event self p n gs b (vars w)] ++ post).
    rewrite !polling_app, (polling_logs pre Hpre), (polling_logs post Hpost).
    simpl. by rewrite app_nil_r.
  - destruct Hacc as (r0 & rid & _ & _ & _ & -> & Hid & _).
    rewrite (Hno r0 eq_refl) in Hid. done.
Qed.

(** X4. Every call of Horde [_raw_generate] makes exactly one POST, whatever
    the outcome: to [<url>/api/v2/generate/text/async], with the payload
    built from the decoded prompt, the generation settings and the
    requested models, and with the API key and the client agent as
    headers.  Every status GET carries the client agent as its only
    header: the API key is sent with the submission and with nothing
    else. *)
Theorem one_post_and_key_stays_there
    (self : model_backend) (p : list token) (n : Z) (gs : GenerationSettings)
    (single : bool) (b : Z) (seed : option Z)
    (submit : net_result) (polls : list net_result) (w : world) :
  let run := _raw_generate self p n gs single b seed submit polls w in
  exists new,
    trace run.2 = trace w ++ new
    /\ posts new
       = [ EvPost (url self +:+ "/api/v2/generate/text/async")
             (cluster_metadata (decoded_prompt p)
                (reqdata n (with_lastctx p (vars w)) gs b) (with_lastctx p (vars w)))
             [ ("apikey", key self); ("Client-Agent", client_agent) ]%string ]
    /\ Forall (fun hs => hs = [ ("Client-Agent", client_agent) ]%string) (get_headers new).
Proof.
  intros run. subst run.
  destruct (raw_generate_run self p n gs single b seed submit polls w)
    as (pre & post & evs & Htr & Hpre & Hpost & _ & Hcases).
  exists (pre ++ submit_event self p n gs b (vars w) :: post ++ evs).
  split; [done|].
  change (submit_event self p n gs b (vars w) :: post ++ evs)
    with ([submit_event self p n gs b (vars w)] ++ post ++ evs).
  rewrite !posts_app, !get_headers_app, (posts_logs pre Hpre), (posts_logs post Hpost),
    (get_headers_logs pre Hpre), (get_headers_logs post Hpost).
  cbn [app posts get_headers omap submit_event].
  destruct Hcases as [(_ & -> & _)|Hacc]; [by split|].
  destruct Hacc as (r0 & rid & pend & tail & logs & _ & _ & _ & -> & Hlogs & Hcases).
  rewrite !posts_app, !get_headers_app, posts_pendings, get_headers_pendings,
    (posts_logs logs Hlogs), (get_headers_logs logs Hlogs), !app_nil_r.
  destruct Hcases as [(_ & _ & -> & _)|(_ & a & rest & extra & _ & -> & Hextra & _)].
  - simpl. rewrite ?app_nil_r. split; [done|]. by apply Forall_replicate.
  - change (EvGet (status_url self rid) agent_headers :: extra)
      with ([EvGet (status_url self rid) agent_headers] ++ extra).
    rewrite !posts_app, !get_headers_app, (posts_logs extra Hextra),
      (get_headers_logs extra Hextra). simpl. rewrite ?app_nil_r.
    split; [done|]. apply Forall_app. split; [by apply Forall_replicate|].
    by constructor.
Qed.

(** X5. After Horde [_raw_generate], on every path (a result, an exception,
    or a job still pending), [koboldai_vars.lastctx] is the decoded
    prompt with newlines restored, and the context length and the list
    of requested models are what they were: the context is stored before
    the request is made, so also when the request fails. *)
Theorem lastctx_is_the_decoded_prompt
    (self : model_backend) (p : list token) (n : Z) (gs : GenerationSettings)
    (single : bool) (b : Z) (seed : option Z)
    (submit : net_result) (polls : list net_result) (w : world) :
  let v := vars (_raw_generate self p n gs single b seed submit polls w).2 in
  lastctx v = decodenewlines (tokenizer_decode p)
  /\ max_length v = max_length (vars w)
  /\ cluster_requested_models v = cluster_requested_models (vars w).
Proof.
  intros v. subst v.
  destruct (raw_generate_run self p n gs single b seed submit polls w)
    as (pre & post & evs & _ & _ & _ & (H1 & H2 & H3) & _).
  rewrite H1, H2, H3. done.
Qed.

(** X6. When Horde [_raw_generate] returns, the wait time, queue position
    and queue size it leaves in [koboldai_vars] are the [wait_time],
    [queue_position] and [waiting] fields of the status answer that
    ended the polling (the first answer that is done, every answer
    before it being not done), not those of an earlier answer. *)
Theorem telemetry_is_the_last_status
    (self : model_backend) (p : list token) (n : Z) (gs : GenerationSettings)
    (single : bool) (b : Z) (seed : option Z)
    (submit : net_result) (polls : list net_result) (w : world)
    (res : GenerationResult) :
  let run := _raw_generate self p n gs single b seed submit polls w in
  run.1 = Returns res ->
  exists pend r rest d dn wt qp qs,
    polls = (NetResponse <$> pend) ++ NetResponse r :: rest
    /\ forallb is_pending pend = true
    /\ is_done r = true
    /\ status_fields r = Some (d, dn, wt, qp, qs)
    /\ horde_wait_time (vars run.2) = wt
    /\ horde_queue_position (vars run.2) = qp
    /\ horde_queue_size (vars run.2) = qs.
Proof.
  intros run Hret. subst run.
  destruct (raw_generate_run self p n gs single b seed submit polls w)
    as (pre & post & evs & _ & _ & _ & _ & [((e & He) & _)|Hacc]); [congruence|].
  destruct Hacc as (r0 & rid & pend & tail & logs & -> & Hid & Hall & _ & _ & Hcases).
  destruct Hcases as [(Hst & _)|(_ & a & rest & extra & -> & _ & _ & Hres)]; [congruence|].
  destruct (Hres res Hret) as (_ & r & d & dn & wt & qp & qs & f & g & cgens & -> & Hdone
                               & Hsf & Hwt & Hqp & Hqs & _).
  by exists pend, r, rest, d, dn, wt, qp, qs.
Qed.


Lemma raw_generate_seed_shift self p n gs single b s submit polls w :
  _raw_generate self p n gs single b (Some s) submit polls w
  = _raw_generate self p n gs single b None submit polls
      (mkWorld (vars w) (trace w ++ [seed_warning])).
Proof. reflexivity. Qed.

(** X7. A seed changes nothing in what Horde [_raw_generate] does except for
    one warning: the outcome and the variables left behind are those of
    the call without a seed, and the log is that of the call without a
    seed with the seed warning put in front. *)
Theorem seed_changes_only_the_log
    (self : model_backend) (p : list token) (n : Z) (gs : GenerationSettings)
    (single : bool) (b : Z) (s : Z)
    (submit : net_result) (polls : list net_result) (w : world) :
  let seeded := _raw_generate self p n gs single b (Some s) submit polls w in
  let plain := _raw_generate self p n gs single b None submit polls w in
  seeded.1 = plain.1
  /\ vars seeded.2 = vars plain.2
  /\ exists new,
       trace plain.2 = trace w ++ new
       /\ trace seeded.2 = trace w ++ seed_warning :: new.
Proof.
  intros seeded plain. subst seeded plain.
  rewrite raw_generate_seed_shift.
  rewrite (blind_raw_generate self p n gs single b None submit polls
             (mkWorld (vars w) (trace w ++ [seed_warning]))).
  rewrite (blind_raw_generate self p n gs single b None submit polls w).
  unfold fresh. cbn [fst snd vars trace].
  split; [done|]. split; [done|]. eexists. split; [reflexivity|].
  by rewrite <- app_assoc.
Qed.

(** X8. The polling loop of Horde [_raw_generate] has no bound of its own:
    for any number of well-formed status answers that are not done, the
    call makes one GET and one sleep for each of them and is still
    waiting for the next answer; it gives up on no count and no
    elapsed time. *)
Theorem polling_has_no_bound
    (self : model_backend) (p : list token) (n : Z) (gs : GenerationSettings)
    (single : bool) (b : Z) (seed : option Z)
    (r0 : response) (rid : value) (pend : list response) (w : world) :
  accepted_id r0 = Some rid ->
  forallb is_pending pend = true ->
  let run := _raw_generate self p n gs single b seed (NetResponse r0)
               (NetResponse <$> pend) w in
  run.1 = Starved
  /\ polling (trace run.2)
     = polling (trace w)
       ++ concat (replicate (length pend) [PGet (status_url self rid); PSleep 1]).
Proof.
  intros Hid Hall run. subst run.
  destruct (raw_generate_polls_after self p n gs single b seed r0 rid pend [] w Hid Hall)
    as (w1 & Hrun & Hp).
  rewrite app_nil_r in Hrun. rewrite Hrun. cbn [poll_loop starve fst snd].
  split; [done|]. rewrite Hp. f_equal.
  clear. induction pend as [|r pend IH]; [done|]. simpl. do 2 f_equal. exact IH.
Qed.

End Run.

Import Fixtures HordeFixtures.

Lemma raw_generate_returns_only_when_done_witness :
  exists r0 rid pend r rest g cgens,
    NetResponse submit_ok = NetResponse r0 /\ accepted_id r0 = Some rid
    /\ toy_polls = (NetResponse <$> pend) ++ NetResponse r :: rest
    /\ forallb is_pending pend = true
    /\ is_done r = true /\ faulted_flag r = Some false
    /\ (json_body r ≫= fun d => field d "generations") = Some g
    /\ iterate g = inr cgens
    /\ mkResult [[104; 105]] [1; 2] true false
       = mkResult ((fun c => @tokenizer_encode toy_host (generation_text c)) <$> cgens)
                  [1; 2] true false.
Proof.
  apply (@raw_generate_returns_only_when_done toy_host toy_self [1; 2] 80 toy_settings
           false 1 None (NetResponse submit_ok) toy_polls toy_world
           (mkResult [[104; 105]] [1; 2] true false)).
  vm_compute. reflexivity.
Defined.

Lemma polling_alternates_witness :
  let run := @_raw_generate toy_host toy_self [1; 2] 80 toy_settings false 1 None
               (NetResponse submit_ok) toy_polls toy_world in
  let u := @status_url toy_host toy_self (VStr "abc") in
  exists k : nat,
    polling (trace run.2)
    = polling (trace toy_world) ++ concat (replicate k [PGet u; PSleep 1])
        ++ (if is_starved run.1 then [] else [PGet u])
    /\ (if is_starved run.1 then k = length toy_polls else (k < length toy_polls)%nat).
Proof.
  apply (@polling_alternates toy_host toy_self [1; 2] 80 toy_settings false 1 None
           submit_ok (VStr "abc") toy_polls toy_world).
  vm_compute. reflexivity.
Defined.

Lemma no_poll_without_job_id_witness :
  let run := @_raw_generate toy_host toy_self [1; 2] 80 toy_settings false 1 None
               (NetResponse (respond 200 "<html>")) toy_polls toy_world in
  (exists e, run.1 = Raises e)
  /\ polling (trace run.2) = polling (trace toy_world).
Proof.
  apply (@no_poll_without_job_id toy_host toy_self [1; 2] 80 toy_settings false 1 None
           (NetResponse (respond 200 "<html>")) toy_polls toy_world).
  intros r [= <-]. vm_compute. reflexivity.
Defined.

Lemma telemetry_is_the_last_status_witness :
  let run := @_raw_generate toy_host toy_self [1; 2] 80 toy_settings false 1 None
               (NetResponse submit_ok) toy_polls toy_world in
  exists pend r rest d dn wt qp qs,
    toy_polls = (NetResponse <$> pend) ++ NetResponse r :: rest
    /\ forallb is_pending pend = true
    /\ is_done r = true
    /\ status_fields r = Some (d, dn, wt, qp, qs)
    /\ horde_wait_time (vars run.2) = wt
    /\ horde_queue_position (vars run.2) = qp
    /\ horde_queue_size (vars run.2) = qs.
Proof.
  apply (@telemetry_is_the_last_status toy_host toy_self [1; 2] 80 toy_settings
           false 1 None (NetResponse submit_ok) toy_polls toy_world
           (mkResult [[104; 105]] [1; 2] true false)).
  vm_compute. reflexivity.
Defined.

Lemma polling_has_no_bound_witness :
  let run := @_raw_generate toy_host toy_self [1; 2] 80 toy_settings false 1 None
               (NetResponse submit_ok)
               (NetResponse <$> replicate 5 (status false false 1 [])) toy_world in
  run.1 = Starved
  /\ polling (trace run.2)
     = polling (trace toy_world)
       ++ concat (replicate (length (replicate 5 (status false false 1 [])))
                    [PGet (@status_url toy_host toy_self (VStr "abc")); PSleep 1]).
Proof.
  apply (@polling_has_no_bound toy_host toy_self [1; 2] 80 toy_settings false 1 None
           submit_ok (VStr "abc") (replicate 5 (status false false 1 [])) toy_world);
    vm_compute; reflexivity.
Defined.

End HordeRunProps.

(* ===================================================================== *)
(** * horde.py: the model menu, properties                              *)
(* ===================================================================== *)

Module HordeMenuProps.

Import Horde HordeMenu HordeProps.
#[local] Open Scope horde_scope.

Section Menu.
Context `{H : Host}.

Lemma engine_entry_run en w :
  engine_entry en w
  = (match getitem en "name" with
     | inr name => Returns (menu_entry name)
     | inl e => Raises e
     end, w).
Proof. unfold engine_entry. mstep. destruct (getitem en "name"); reflexivity. Qed.

Lemma mapM_engine_entry_named ens w :
  Forall (fun en => is_Some (field en "name")) ens ->
  mapM engine_entry ens w = (Returns (menu_entry <$> engine_names ens), w).
Proof.
  induction 1 as [|en ens [name Hn] _ IH]; [done|].
  cbn [mapM]. unfold bind at 1. rewrite engine_entry_run, (field_getitem _ _ _ Hn).
  unfold bind at 1. rewrite IH. unfold engine_names. cbn [omap list_omap]. rewrite Hn. reflexivity.
Qed.


Lemma entry_value_of_menu_entry n w :
  entry_value (menu_entry n) w = (Returns n, w).
Proof.
  unfold entry_value, menu_entry. cbn [getitem].
  rewrite lookup_insert_ne by done. by rewrite lookup_insert_eq.
Qed.

Lemma entry_value_menu names w :
  mapM entry_value (menu_entry <$> names) w = (Returns names, w).
Proof.
  induction names as [|n names IH]; [done|].
  rewrite fmap_cons. cbn [mapM]. unfold bind at 1.
  rewrite entry_value_of_menu_entry. unfold bind at 1. rewrite IH. reflexivity.
Qed.

(** Discovery on an answer that lists engines, each with a name. *)
Lemma get_cluster_models_lists globals u r ens w :
  ok r = true -> json_body r = Some (VList ens) ->
  Forall (fun en => is_Some (field en "name")) ens ->
  exists w',
    get_cluster_models globals u (NetResponse r) w
    = (Returns (VList (menu_entry <$> engine_names ens)), w')
    /\ EvLogStatus InitOk "KAI Horde Models" "OK" ∈ trace w'.
Proof.
  intros Hok Hj Hn. eexists. unfold get_cluster_models. mstep.
  rewrite Hok. cbn [negb]. unfold json at 1. rewrite Hj. mstep.
  cbn [iterate]. unfold bind, catch. cbn [lift ret].
  rewrite mapM_engine_entry_named by done. mstep.
  split; [reflexivity|]. set_solver.
Qed.

Lemma is_valid_run self name ens w :
  models self = VList (menu_entry <$> engine_names ens) ->
  (is_valid self name w).1
  = Returns (String.eqb name "CLUSTER" || existsb (is_VStr name) (engine_names ens)).
Proof.
  intros Hm. unfold is_valid. mstep. destruct (String.eqb name "CLUSTER"); [done|].
  rewrite Hm. cbn [iterate]. unfold bind. cbn [lift ret]. rewrite entry_value_menu. done.
Qed.

(** X9. After a discovery that succeeded (a success status and a JSON list
    of engines, each with a name), construction completes with
    [self.models] holding one menu entry per engine, whose text and
    value are both the engine's name, in the order of the answer; and
    [is_valid] then accepts a model name exactly when it is ["CLUSTER"]
    or the name of one of the listed engines. *)
Theorem discovered_engines_are_valid globals r ens w name w2 :
  ok r = true -> json_body r = Some (VList ens) ->
  Forall (fun en => is_Some (field en "name")) ens ->
  exists self w',
    __init__ globals (NetResponse r) w = (Returns self, w')
    /\ models self = VList (menu_entry <$> engine_names ens)
    /\ (is_valid self name w2).1
       = Returns (String.eqb name "CLUSTER"
                  || existsb (is_VStr name) (engine_names ens)).
Proof.
  intros Hok Hj Hn.
  destruct (get_cluster_models_lists globals "https://horde.koboldai.net" r ens w Hok Hj Hn)
    as (w' & Hrun & _).
  eexists _, w'. split; [|split].
  - unfold __init__. unfold bind. rewrite Hrun. reflexivity.
  - reflexivity.
  - by apply is_valid_run.
Qed.

(** X10. ["CLUSTER"] is a valid model name whatever [self.models] holds: the
    list of values is not built for it.  For any other name, an adapter
    whose [models] is [None] makes [is_valid] raise [TypeError] (the
    comprehension ranges over [None]). *)
Theorem is_valid_cluster_always self w :
  (is_valid self "CLUSTER" w).1 = Returns true
  /\ forall name, name <> "CLUSTER"%string -> models self = VNone ->
       exists what, (is_valid self name w).1 = Raises (TypeError what).
Proof.
  split; [done|]. intros name Hne Hm. unfold is_valid. mstep.
  apply String.eqb_neq in Hne. rewrite Hne, Hm. cbn [iterate]. mstep. by eexists.
Qed.


End Menu.

Import Fixtures HordeFixtures.


Lemma discovered_engines_are_valid_witness :
  exists self w',
    @__init__ toy_host horde_globals (NetResponse models_ok) toy_world = (Returns self, w')
    /\ models self
       = VList (menu_entry <$> engine_names
                  [ VDict (list_to_map [ ("name", VStr "m1"); ("count", Horde.int 2) ]%string) ])
    /\ (@is_valid toy_host self "m1" toy_world).1
       = Returns (String.eqb "m1" "CLUSTER"
                  || existsb (is_VStr "m1")
                       (engine_names
                          [ VDict (list_to_map [ ("name", VStr "m1");
                                                 ("count", Horde.int 2) ]%string) ])).
Proof.
  apply (@discovered_engines_are_valid toy_host horde_globals models_ok
           [ VDict (list_to_map [ ("name", VStr "m1"); ("count", Horde.int 2) ]%string) ]
           toy_world "m1" toy_world).
  - reflexivity.
  - reflexivity.
  - repeat constructor. vm_compute. by eexists.
Defined.


End HordeMenuProps.

(* ===================================================================== *)
(** * exllama/class.py: validation, configuration and placement, properties*)
(* ===================================================================== *)

Module ExLlamaHostProps.

Import ExLlamaHost.
#[local] Open Scope host_scope.

(** ** Decimal names *)

Lemma str_nat_inj i j : str_nat i = str_nat j -> i = j.
Proof.
  unfold str_nat. intros Heq.
  apply (f_equal NilEmpty.uint_of_string) in Heq.
  rewrite !NilEmpty.usu in Heq. injection Heq as Heq.
  apply (f_equal Nat.of_uint) in Heq. by rewrite !Unsigned.of_to in Heq.
Qed.

Lemma list_ascii_of_append (x y : string) :
  String.list_ascii_of_string (x +:+ y)
  = String.list_ascii_of_string x ++ String.list_ascii_of_string y.
Proof. induction x as [|c x IH]; simpl; [done|]. by rewrite IH. Qed.

Lemma append_inv_tail (a b s : string) : (a +:+ s = b +:+ s)%string -> a = b.
Proof.
  intros Heq. apply (f_equal String.list_ascii_of_string) in Heq.
  rewrite !list_ascii_of_append in Heq. apply app_inv_tail in Heq.
  apply (f_equal String.string_of_list_ascii) in Heq.
  by rewrite !String.string_of_list_ascii_of_string in Heq.
Qed.

Lemma layers_key_inj i j : layers_key i = layers_key j -> i = j.
Proof. unfold layers_key. intros Heq%append_inv_tail. by apply str_nat_inj. Qed.

Lemma layers_key_not_display i : layers_key i <> "valid_layers"%string.
Proof.
  unfold layers_key. change "valid_layers"%string with ("valid" +:+ "_layers")%string.
  intros Heq. apply (f_equal String.list_ascii_of_string) in Heq.
  rewrite !list_ascii_of_append in Heq.
  apply app_inj_2 in Heq as [_ Heq]; [discriminate | done].
Qed.

Section Host.
Context `{P : Platform}.

(** ** [load_model_gptq_settings] *)

Lemma gptq_settings_cases (path : param) :
  match load_model_gptq_settings path with
  | inr (gptq_model, gptq_file) =>
      gptq_model = bool_decide (is_Some gptq_file)
      /\ forall f, gptq_file = Some f ->
           exists p js, path = PStr p
             /\ read_json (p +:+ "/config.json")%string = Some js
             /\ ((contains "gptq_bits" js = inr true
                  /\ f = path_join p "model.safetensors")
                 \/ (contains "gptq_bits" js = inr false
                     /\ head (glob (path_join p "4bit*.safetensors")) = Some f))
  | inl e =>
      exists p js e', path = PStr p
        /\ read_json (p +:+ "/config.json")%string = Some js
        /\ contains "gptq_bits" js = inl e' /\ e = Exn e'
  end.
Proof.
  unfold load_model_gptq_settings.
  destruct path as [| | | |p|]; try (split; [done | intros ? [=]]).
  destruct (read_json _) as [js|] eqn:Hjs; [|split; [done | intros ? [=]]].
  destruct (contains "gptq_bits" js) as [e'|[|]] eqn:Hc.
  - by exists p, js, e'.
  - split; [done|]. intros f [= <-]. exists p, js. split; [done|]. split; [done|]. by left.
  - destruct (glob _) as [|f0 fs] eqn:Hg; (split; [done|]); intros f [=]. subst f.
    exists p, js. split; [done|]. split; [done|]. right. by rewrite Hg.
Qed.

(** X19. [load_model_gptq_settings]: the flag it returns is true exactly when
    it names a weights file, and a file it names is [model.safetensors]
    under the path or the first match of [4bit*.safetensors]; a path
    that is no string, or whose [config.json] cannot be read, gives
    (False, False); a [config.json] that mentions [gptq_bits] gives
    (True, [<path>/model.safetensors]), whether or not that file
    exists; one that does not gives (True, the first match of
    [4bit*.safetensors]) when there is a match and (False, False) when
    there is none; and the only exception is the [TypeError] of the
    membership test on a [config.json] that holds a number, a boolean
    or [null]. *)
Theorem gptq_settings_flag_names_a_file (path : param) :
  match load_model_gptq_settings path with
  | inr (gptq_model, gptq_file) =>
      gptq_model = bool_decide (is_Some gptq_file)
      /\ forall f, gptq_file = Some f ->
           exists p js, path = PStr p
             /\ read_json (p +:+ "/config.json")%string = Some js
             /\ ((contains "gptq_bits" js = inr true
                  /\ f = path_join p "model.safetensors")
                 \/ (contains "gptq_bits" js = inr false
                     /\ head (glob (path_join p "4bit*.safetensors")) = Some f))
  | inl e =>
      exists p js e', path = PStr p
        /\ read_json (p +:+ "/config.json")%string = Some js
        /\ contains "gptq_bits" js = inl e' /\ e = Exn e'
  end
  /\ ((forall p, path = PStr p -> read_json (p +:+ "/config.json")%string = None) ->
      load_model_gptq_settings path = inr (false, None))
  /\ (forall p js, path = PStr p ->
        read_json (p +:+ "/config.json")%string = Some js ->
        match contains "gptq_bits" js with
        | inl e' => load_model_gptq_settings path = inl (Exn e')
        | inr true =>
            load_model_gptq_settings path
            = inr (true, Some (path_join p "model.safetensors"))
        | inr false =>
            load_model_gptq_settings path
            = match head (glob (path_join p "4bit*.safetensors")) with
              | Some f => inr (true, Some f)
              | None => inr (false, None)
              end
        end).
Proof.
  split; [apply gptq_settings_cases|]. split.
  - intros Hnone. unfold load_model_gptq_settings.
    destruct path as [| | | |p|]; try done. by rewrite (Hnone p eq_refl).
  - intros p js -> Hjs. unfold load_model_gptq_settings. rewrite Hjs.
    destruct (contains "gptq_bits" js) as [e'|[|]]; try done.
    by destruct (glob _).
Qed.

(** ** [_load_config] and [is_valid] *)


Lemma load_config_cases name dir cfg :
  _load_config name dir = inr cfg ->
  cfg = CfgFalse \/ exists c, cfg = CfgObj c /\ superhot_ready name c.
Proof.
  unfold _load_config, config_in, superhot_ready.
  assert (Hfin : forall s : slot,
    match s with
    | CfgObj c => if is_superhot name then inr (CfgObj (superhot_settings c)) else inr s
    | _ => inr s
    end = (inr cfg : error + slot) ->
    (s = CfgFalse \/ exists c, s = CfgObj c) ->
    cfg = CfgFalse \/ exists c, cfg = CfgObj c /\
      (is_superhot name = true -> max_seq_len c = 8192 /\ compress_pos_emb c = Qmake 4 1)).
  { intros s Hs [->|[c ->]].
    - injection Hs as <-. by left.
    - right. destruct (is_superhot name) eqn:Hsh; injection Hs as <-.
      + eexists. split; [done|]. done.
      + eexists. split; [done|]. done. }
  destruct dir as [p|].
  - destruct (path_exists p).
    + destruct (ExLlamaConfig _) as [e|c]; [done|]. simpl.
      intros Hs. apply (Hfin (CfgObj c)); [exact Hs|]. right. by eexists.
    + simpl. destruct (path_exists _).
      * destruct (ExLlamaConfig _) as [e|c]; [done|].
        intros Hs. apply (Hfin (CfgObj c)); [exact Hs|]. right. by eexists.
      * intros Hs. apply (Hfin CfgFalse); [exact Hs|]. by left.
  - simpl. destruct (path_exists _).
    + destruct (ExLlamaConfig _) as [e|c]; [done|].
      intros Hs. apply (Hfin (CfgObj c)); [exact Hs|]. right. by eexists.
    + intros Hs. apply (Hfin CfgFalse); [exact Hs|]. by left.
Qed.

Lemma is_valid_true_inv name dir self self' :
  is_valid name dir self = (inr true, self') ->
  exists p f c,
    dir = Some p
    /\ load_model_gptq_settings (PStr p) = inr (true, Some f)
    /\ superhot_ready name c
    /\ self' = mkBackend (CfgObj c) (model self) (model_name self) (path self) (layers self).
Proof.
  unfold is_valid.
  pose proof (gptq_settings_cases (as_param dir)) as Hg.
  destruct (load_model_gptq_settings (as_param dir)) as [e|[g f]] eqn:Hl; [done|].
  destruct (_load_config name dir) as [e|cfg] eqn:Hc; [done|].
  intros [= Hv <-]. apply andb_prop in Hv as [Hcfg ->].
  destruct Hg as [Hg Hf]. symmetry in Hg. apply bool_decide_eq_true in Hg as [f0 ->].
  destruct (Hf f0 eq_refl) as (p & js & Hp & _).
  destruct dir as [p'|]; [|done]. injection Hp as ->.
  apply load_config_cases in Hc as [->|(c & -> & Hsh)]; [done|].
  by exists p, f0, c.
Qed.

(** X20. When ExLlama [is_valid] returns true, the model path is a directory
    whose [config.json] was read and for which a weights file is named,
    [self.model_config] is a configuration object (for a name that
    contains "superhot" in any letter case: with sequence length 8192
    and compression factor 4), and no other field of the adapter
    changed. *)
Theorem is_valid_true_means_loadable name dir self self' :
  is_valid name dir self = (inr true, self') ->
  exists p f c,
    dir = Some p
    /\ load_model_gptq_settings (PStr p) = inr (true, Some f)
    /\ superhot_ready name c
    /\ self' = mkBackend (CfgObj c) (model self) (model_name self) (path self) (layers self).
Proof. apply is_valid_true_inv. Qed.

(** X21. Without a model path ExLlama [is_valid] answers false, also when
    [models/<name>] exists and its configuration loads (the weights are
    looked for under the model path only); the configuration found is
    stored in [self.model_config] all the same. *)
Theorem is_valid_needs_a_path name self :
  (is_valid name None self).1 = inr false
  /\ forall cfg, _load_config name None = inr cfg ->
       model_config (is_valid name None self).2 = cfg.
Proof.
  unfold is_valid. simpl.
  destruct (_load_config name None) as [e|cfg] eqn:Hc.
  - split; [done|]. intros ? [=].
  - simpl. split; [by rewrite andb_false_r|]. by intros ? [= <-].
Qed.

(** [is_valid] raises only the [TypeError] of ["gptq_bits" in js]
    for a [config.json] that is a number, a boolean or [null]; an error
    of the configuration loader is turned into the answer false, and in
    both cases the adapter is left as it was. *)
Lemma is_valid_failures name dir self :
  (forall e, (is_valid name dir self).1 = inl e ->
     (exists p js e', dir = Some p
        /\ read_json (p +:+ "/config.json")%string = Some js
        /\ contains "gptq_bits" js = inl e' /\ e = Exn e')
     /\ (is_valid name dir self).2 = self)
  /\ (forall e r, load_model_gptq_settings (as_param dir) = inr r ->
        _load_config name dir = inl e ->
        is_valid name dir self = (inr false, self)).
Proof.
  unfold is_valid.
  pose proof (gptq_settings_cases (as_param dir)) as Hg.
  destruct (load_model_gptq_settings (as_param dir)) as [e0|[g f]] eqn:Hl.
  - split; [|intros ? ? [=]]. intros e [= <-]. split; [|done].
    destruct Hg as (p & js & e' & Hp & Hjs & Hc & ->).
    destruct dir as [p'|]; [|done]. injection Hp as ->.
    by exists p, js, e'.
  - split.
    + destruct (_load_config name dir); simpl; intros ? [=].
    + intros e r _ ->. done.
Qed.

(** ** [_get_model] *)

(** X22. [_get_model] on an adapter whose [model_config] is not set ([None]
    after [__init__] and [unload], [False] after a search that found no
    directory) never returns a model, whatever the location: the
    configuration it builds in that case is not kept, so the assignment
    to [self.model_config.model_path] raises, unless building the
    configuration or reading the settings raised before.  The adapter
    is left unchanged. *)
Theorem get_model_needs_a_config location self :
  truthy_slot (model_config self) = false ->
  exists e, _get_model location self = (inl e, self).
Proof.
  unfold _get_model. intros Hf. rewrite Hf. simpl.
  destruct (model_config self) as [| |d|c'] eqn:Hm; [| | |discriminate].
  all: destruct location as [| | | |l|]; try by eexists.
  all: destruct (ExLlamaConfig _) as [e|c]; [by eexists|].
  all: destruct (load_model_gptq_settings (PStr l)) as [e|[g f]]; by eexists.
Qed.

Lemma unload_not_set self : truthy_slot (model_config (unload self)) = false.
Proof. done. Qed.

(** X23. A model directory that [is_valid] accepted loads: on the adapter
    [is_valid] leaves, [_get_model] at that directory stores the weights
    file validation found in the configuration's [model_path] and hands
    that configuration to [ExLlama], whose result (the model, or its
    exception) is the result. *)
Theorem validated_model_is_built name p self self' :
  is_valid name (Some p) self = (inr true, self') ->
  exists f c,
    load_model_gptq_settings (PStr p) = inr (true, Some f)
    /\ model_config self' = CfgObj c
    /\ (_get_model (PStr p) self').1 = ExLlama (set_model_path (Some f) c)
    /\ model_config (_get_model (PStr p) self').2 = CfgObj (set_model_path (Some f) c).
Proof.
  intros (p' & f & c & [= <-] & Hl & _ & ->)%is_valid_true_inv.
  exists f, c. split; [done|]. split; [done|].
  unfold _get_model. cbn [model_config truthy_slot negb]. rewrite Hl.
  cbn [model_config]. destruct (ExLlama _); done.
Qed.

(** ** [get_requested_parameters] *)



Lemma requested_parameters_inv self ds :
  get_requested_parameters self = inr ds ->
  exists count, layer_count (model_config self) = inr count
    /\ ds = display_entry device_count count
            :: (slider_entry device_count count <$> seq 0 device_count).
Proof.
  unfold get_requested_parameters.
  destruct (layer_count _) as [e|count]; [done|]. intros [= <-]. by exists count.
Qed.

(** X24. ExLlama [get_requested_parameters] returns one display entry and one
    slider per GPU; the ids are pairwise different, and the list every
    entry's check sums over is the list of the slider ids, in order. *)
Theorem requested_parameters_ids self ds :
  get_requested_parameters self = inr ds ->
  length ds = S device_count
  /\ NoDup (d_id <$> ds)
  /\ Forall (fun d => check_sum (d_check d) = d_id <$> sliders ds) ds.
Proof.
  intros (count & _ & ->)%requested_parameters_inv.
  assert (Hids : d_id <$> (slider_entry device_count count <$> seq 0 device_count)
                 = layers_key <$> seq 0 device_count).
  { rewrite <- list_fmap_compose. done. }
  split; [|split].
  - simpl. by rewrite length_fmap, length_seq.
  - rewrite fmap_cons, Hids. apply NoDup_cons. split.
    + intros (i & Hi & _)%list_elem_of_fmap. simpl in Hi.
      symmetry in Hi. by apply layers_key_not_display in Hi.
    + apply NoDup_fmap_2; [intros i j; apply layers_key_inj | apply NoDup_seq].
  - unfold sliders. simpl. rewrite Hids. apply Forall_cons. split; [done|].
    apply Forall_fmap, Forall_forall. done.
Qed.

Lemma later_defaults g count k m :
  foldr Z.add 0 (default_layers <$> (slider_entry g count <$> seq (S k) m)) = 0.
Proof.
  revert k. induction m as [|m IH]; intros k; [done|].
  simpl. rewrite IH. done.
Qed.

(** X25. On a machine with at least one GPU and a configuration with a layer
    count, the defaults of the sliders [get_requested_parameters]
    returns add up to the layer count, and the layer count is the value
    the check of every entry asks the sum of the sliders to equal. *)
Theorem default_allocation_meets_the_check self ds n :
  get_requested_parameters self = inr ds ->
  layer_count (model_config self) = inr (Some n) ->
  (0 < device_count)%nat ->
  foldr Z.add 0 (default_layers <$> sliders ds) = n
  /\ Forall (fun d => check_value (d_check d) = Some n) ds.
Proof.
  intros (count & Hc & ->)%requested_parameters_inv Hn Hg.
  rewrite Hc in Hn. injection Hn as ->.
  unfold sliders. simpl. split.
  - destruct device_count as [|g] eqn:Hd; [lia|].
    cbn [seq fmap list_fmap foldr]. rewrite later_defaults.
    unfold default_layers. simpl. lia.
  - apply Forall_cons. split; [done|]. apply Forall_fmap, Forall_forall. done.
Qed.

(** ** [set_input_parameters] *)



Lemma length_blocks i ns : length (blocks i ns) = foldr Nat.add 0%nat ns.
Proof.
  revert i. induction ns as [|n ns IH]; intros i; [done|].
  simpl. by rewrite length_app, length_replicate, IH.
Qed.

Lemma sbind_inr {A B} (m : Method A) (k : A -> Method B) self a self' :
  m self = (inr a, self') -> sbind m k self = k a self'.
Proof. unfold sbind. by intros ->. Qed.

Lemma sbind_inl {A B} (m : Method A) (k : A -> Method B) self e self' :
  m self = (inl e, self') -> sbind m k self = (inl e, self').
Proof. unfold sbind. by intros ->. Qed.

Lemma set_layers_same c : set_layers (dm_layers (devices c)) c = c.
Proof. by destruct c as [? ? ? ? [? ? ?] ? ? ? ? ?]. Qed.

Lemma set_layers_twice l1 l2 c : set_layers l2 (set_layers l1 c) = set_layers l2 c.
Proof. done. Qed.


Lemma place_step_pos i l rest self c devs :
  model_config self = CfgObj c ->
  positive l = inr true ->
  repeat_device i l = inr devs ->
  Z.of_nat (length (dm_layers (devices c) ++ devs)) <= list_capacity ->
  place_from i (l :: rest) self
  = place_from (S i) rest
      (with_cfg self (set_layers (dm_layers (devices c) ++ devs) c)).
Proof.
  intros Hc Hp Hr Hfit. cbn [place_from]. unfold sbind, slift, extend_layers.
  rewrite Hp, Hr. unfold sret. rewrite Hc. cbv zeta.
  destruct (Z.ltb_spec list_capacity
              (Z.of_nat (length (dm_layers (devices c) ++ devs)))); [lia|].
  reflexivity.
Qed.

Lemma place_step_full i l rest self c devs :
  model_config self = CfgObj c ->
  positive l = inr true ->
  repeat_device i l = inr devs ->
  list_capacity < Z.of_nat (length (dm_layers (devices c) ++ devs)) ->
  place_from i (l :: rest) self = (inl MemoryError, self).
Proof.
  intros Hc Hp Hr Hfull. cbn [place_from]. unfold sbind, slift, extend_layers.
  rewrite Hp, Hr. unfold sret. rewrite Hc. cbv zeta.
  destruct (Z.ltb_spec list_capacity
              (Z.of_nat (length (dm_layers (devices c) ++ devs)))); [|lia].
  reflexivity.
Qed.

Lemma place_step_skip i l rest self :
  positive l = inr false ->
  place_from i (l :: rest) self = place_from (S i) rest self.
Proof.
  intros Hp. cbn [place_from]. unfold sbind, slift. rewrite Hp. reflexivity.
Qed.

Lemma place_step_raises i l rest self e :
  positive l = inl e ->
  place_from i (l :: rest) self = (inl e, self).
Proof.
  intros Hp. cbn [place_from]. unfold sbind, slift. rewrite Hp. reflexivity.
Qed.

Lemma place_step_refused i l rest self e :
  positive l = inr true ->
  repeat_device i l = inl e ->
  place_from i (l :: rest) self = (inl e, self).
Proof.
  intros Hp Hr. cbn [place_from]. unfold sbind, slift. rewrite Hp, Hr. reflexivity.
Qed.

(** What the loop does with one slider value, by its count. *)
Lemma repeat_device_int i l z :
  int_value l = Some z -> 0 < z -> z <= maxsize ->
  repeat_device i l
  = if list_capacity <? Z.of_nat (Z.to_nat z) then inl MemoryError
    else inr (replicate (Z.to_nat z) (cuda i)).
Proof.
  intros Hl Hpos Hmax. unfold repeat_device. rewrite Hl.
  destruct (Z.ltb_spec maxsize z); [lia|].
  destruct (Z.ltb_spec z (- maxsize - 1)); [lia|]. cbn [orb].
  destruct (Z.leb_spec z 0); [lia|]. by rewrite Z2Nat.id by lia.
Qed.

Lemma positive_int l z : int_value l = Some z -> positive l = inr (0 <? z).
Proof. destruct l as [|[]| | | |]; simpl; try done; by intros [= <-]. Qed.

Lemma count_of_cases l :
  match count_of l with
  | Some n =>
      (positive l = inr false /\ n = 0%nat)
      \/ (positive l = inr true /\ (0 < n)%nat
          /\ forall i, repeat_device i l
                       = if list_capacity <? Z.of_nat n then inl MemoryError
                         else inr (replicate n (cuda i)))
  | None =>
      (exists e, positive l = inl e)
      \/ (positive l = inr true /\ exists e, forall i, repeat_device i l = inl e)
  end.
Proof.
  unfold count_of. destruct (int_value l) as [z|] eqn:Hl.
  - rewrite (positive_int l z Hl).
    destruct (Z.ltb_spec 0 z) as [Hpos|Hneg]; cbn [andb].
    + destruct (Z.ltb_spec maxsize z) as [Hbig|Hfit].
      * right. split; [done|].
        exists (OverflowError "cannot fit 'int' into an index-sized integer").
        intros i. unfold repeat_device. rewrite Hl.
        destruct (Z.ltb_spec maxsize z); [done|lia].
      * right. split; [done|]. split; [lia|].
        intros i. by apply repeat_device_int.
    + left. split; [done|]. lia.
  - destruct l as [|b|z|q|s|l']; simpl in *; try done; try (left; by eexists).
    destruct (Qle_bool q 0); simpl; [left; done|right]. split; [done|]. by eexists.
Qed.

Lemma place_from_counts i ls ns self c :
  model_config self = CfgObj c ->
  mapM count_of ls = Some ns ->
  listable (length (dm_layers (devices c))) ns ->
  place_from i ls self
  = (inr tt, with_cfg self (set_layers (dm_layers (devices c) ++ blocks i ns) c)).
Proof.
  revert i ns self c. induction ls as [|l ls IH]; intros i ns self c Hc Hns Hfit.
  - injection Hns as <-. simpl. unfold sret, with_cfg.
    rewrite app_nil_r, set_layers_same, <- Hc. by destruct self.
  - simpl in Hns. pose proof (count_of_cases l) as Hl.
    destruct (count_of l) as [n|]; [|done]. simpl in Hns.
    destruct (mapM count_of ls) as [ns'|] eqn:Hls; [|done]. injection Hns as <-.
    cbn [blocks]. destruct Hl as [[Hp ->]|(Hp & Hn & Hr)].
    + rewrite (place_step_skip _ _ _ _ Hp). simpl. by apply IH.
    + unfold listable in Hfit. cbn [foldr] in Hfit.
      destruct Hfit as [Hzero|Hfit]; [lia|].
      specialize (Hr i).
      destruct (Z.ltb_spec list_capacity (Z.of_nat n)) as [|_]; [lia|].
      rewrite (place_step_pos _ _ _ _ _ _ Hc Hp Hr)
        by (rewrite length_app, length_replicate; lia).
      rewrite (IH (S i) ns'
                 (with_cfg self (set_layers (dm_layers (devices c)
                                              ++ replicate n (cuda i)) c))
                 (set_layers (dm_layers (devices c) ++ replicate n (cuda i)) c)
                 eq_refl eq_refl).
      * unfold with_cfg. simpl. by rewrite app_assoc.
      * right. simpl. rewrite length_app, length_replicate. lia.
Qed.

Lemma place_from_completes i ls self c self' :
  model_config self = CfgObj c ->
  place_from i ls self = (inr tt, self') ->
  exists ns, mapM count_of ls = Some ns
             /\ listable (length (dm_layers (devices c))) ns.
Proof.
  revert i self c. induction ls as [|l ls IH]; intros i self c Hc Hrun.
  - exists []. split; [done|]. by left.
  - pose proof (count_of_cases l) as Hl.
    destruct (count_of l) as [n|] eqn:Hn.
    + destruct Hl as [[Hp ->]|(Hp & Hpos & Hr)].
      * rewrite (place_step_skip _ _ _ _ Hp) in Hrun.
        destruct (IH _ _ _ Hc Hrun) as (ns & Hns & Hfit).
        exists (0%nat :: ns). split; [|exact Hfit].
        simpl. by rewrite Hn, Hns.
      * specialize (Hr i).
        destruct (Z.ltb_spec list_capacity (Z.of_nat n)) as [Hbig|Hsmall].
        { by rewrite (place_step_refused _ _ _ _ _ Hp Hr) in Hrun. }
        destruct (Z.lt_ge_cases list_capacity
                    (Z.of_nat (length (dm_layers (devices c) ++ replicate n (cuda i)))))
          as [Hfull|Hroom].
        { by rewrite (place_step_full _ _ _ _ _ _ Hc Hp Hr Hfull) in Hrun. }
        rewrite (place_step_pos _ _ _ _ _ _ Hc Hp Hr) in Hrun by lia.
        destruct (IH (S i)
                    (with_cfg self (set_layers (dm_layers (devices c)
                                                 ++ replicate n (cuda i)) c))
                    (set_layers (dm_layers (devices c) ++ replicate n (cuda i)) c)
                    eq_refl Hrun) as (ns & Hns & Hfit).
        exists (n :: ns). split; [simpl; by rewrite Hn, Hns|].
        right. cbn [foldr]. rewrite length_app, length_replicate in Hroom.
        destruct Hfit as [Hzero|Hfit].
        -- rewrite Hzero. lia.
        -- simpl in Hfit. rewrite length_app, length_replicate in Hfit. lia.
    + destruct Hl as [[e Hp]|[Hp [e Hr]]].
      * by rewrite (place_step_raises _ _ _ _ _ Hp) in Hrun.
      * by rewrite (place_step_refused _ _ _ _ _ Hp (Hr i)) in Hrun.
Qed.

Lemma set_input_parameters_run parameters self c ls ns nm :
  model_config self = CfgObj c ->
  layer_entries parameters (seq 0 device_count) = inr ls ->
  mapM count_of ls = Some ns ->
  listable 0 ns ->
  chosen_name parameters = inr nm ->
  set_input_parameters parameters self
  = (inr tt, mkBackend (CfgObj (placed ns c)) (model self) nm
                       (default PNone (parameters !! "path"%string)) ls).
Proof.
  intros Hc Hls Hns Hfit Hnm. unfold set_input_parameters.
  rewrite Hls, Hnm. unfold sbind, slift, sret, sget, sput, with_config.
  cbn [model_config]. rewrite Hc.
  erewrite place_from_counts; [|reflexivity|exact Hns|exact Hfit].
  unfold with_cfg, placed. cbn [model_config model model_name path layers].
  destruct (String.prefix "1." torch_version); reflexivity.
Qed.

Lemma set_input_parameters_completes parameters self :
  (set_input_parameters parameters self).1 = inr tt ->
  exists c ls ns nm,
    model_config self = CfgObj c
    /\ layer_entries parameters (seq 0 device_count) = inr ls
    /\ mapM count_of ls = Some ns
    /\ listable 0 ns
    /\ chosen_name parameters = inr nm.
Proof.
  unfold set_input_parameters.
  destruct (layer_entries parameters (seq 0 device_count)) as [e|ls] eqn:Hls; [done|].
  unfold sbind at 1 2 3. unfold slift at 1. unfold sret at 1. unfold sget at 1.
  unfold sput at 1. unfold sbind at 1. unfold with_config at 1. cbn [model_config].
  destruct (model_config self) as [| |d|c] eqn:Hc; try done.
  unfold sbind at 1.
  destruct (place_from 0 ls _) as [[e|[]] self2] eqn:Hrun; [done|].
  assert (Hdone := Hrun).
  eapply place_from_completes in Hdone as (ns & Hns & Hfit); [|reflexivity].
  erewrite place_from_counts in Hrun; [|reflexivity|exact Hns|exact Hfit].
  injection Hrun as <-.
  destruct (chosen_name parameters) as [e|nm] eqn:Hnm.
  - unfold sbind, slift, sret, sraise, with_config, with_cfg. cbn [model_config].
    destruct (String.prefix "1." torch_version); done.
  - intros _. by exists c, ls, ns, nm.
Qed.

(** X26. With a configuration object in place, a value for every GPU's
    slider that the placement loop accepts (an int, bool included, no
    larger than [sys.maxsize] when positive, a numeric string that
    [int] converts to one, or a float that is not positive), counts
    that a list can hold together, and a model name, ExLlama
    [set_input_parameters] completes: the device map lists [cuda:0] as
    often as the first slider says, then [cuda:1], and so on (a count
    that is not positive contributes nothing, and what the map held
    before is dropped), so its length is the sum of the counts; head
    and norm go to [cuda:0]; the four no-half2 flags say whether torch
    is a HIP build; the weights path and the attributes read from
    [config.json] are kept; and [self.layers], [self.model_name] and
    [self.path] are set from the parameters. *)
Theorem set_input_parameters_places_layers parameters self c ls ns nm :
  model_config self = CfgObj c ->
  layer_entries parameters (seq 0 device_count) = inr ls ->
  mapM count_of ls = Some ns ->
  Z.of_nat (foldr Nat.add 0%nat ns) <= list_capacity ->
  chosen_name parameters = inr nm ->
  exists self' c',
    set_input_parameters parameters self = (inr tt, self')
    /\ model_config self' = CfgObj c'
    /\ dm_layers (devices c') = blocks 0 ns
    /\ length (dm_layers (devices c')) = foldr Nat.add 0%nat ns
    /\ dm_lm_head (devices c') = "cuda:0"%string
    /\ dm_norm (devices c') = "cuda:0"%string
    /\ [rmsnorm_no_half2 c'; rope_no_half2 c'; matmul_no_half2 c'; silu_no_half2 c']
       = replicate 4 hip_build
    /\ model_path c' = model_path c
    /\ attrs c' = attrs c
    /\ layers self' = ls
    /\ model_name self' = nm
    /\ path self' = default PNone (parameters !! "path"%string)
    /\ model self' = model self.
Proof.
  intros Hc Hls Hns Hfit Hnm.
  eexists _, (placed ns c). split.
  { eapply set_input_parameters_run; try done. by right. }
  cbn [model_config layers model_name path model]. unfold placed.
  destruct (String.prefix "1." torch_version); cbn; rewrite ?length_blocks; done.
Qed.

(** X27. ExLlama [set_input_parameters] completes exactly when
    [self.model_config] is a configuration object; every GPU has a
    slider entry whose value is an int (bool included) that is not
    positive or is no larger than [sys.maxsize], a numeric string that
    [int] converts to such an int, or a float that is not positive; the
    layers asked for are none at all or together no more than a list
    can hold; and [parameters] names the model (under
    [custom_model_name] or [id]).  In every other case ([None], a
    list, a positive float, a count beyond [sys.maxsize] or beyond what
    a list holds, a missing slider, no configuration loaded) it ends in
    an exception. *)
Theorem set_input_parameters_completes_iff parameters self :
  (set_input_parameters parameters self).1 = inr tt
  <-> (exists c, model_config self = CfgObj c)
      /\ (exists ls ns, layer_entries parameters (seq 0 device_count) = inr ls
                        /\ mapM count_of ls = Some ns
                        /\ (foldr Nat.add 0%nat ns = 0%nat
                            \/ Z.of_nat (foldr Nat.add 0%nat ns) <= list_capacity))
      /\ (exists nm, chosen_name parameters = inr nm).
Proof.
  split.
  - intros (c & ls & ns & nm & Hc & Hls & Hns & Hfit & Hnm)%set_input_parameters_completes.
    split; [by exists c|]. split; [|by exists nm]. by exists ls, ns.
  - intros ((c & Hc) & (ls & ns & Hls & Hns & Hfit) & (nm & Hnm)).
    by rewrite (set_input_parameters_run _ _ _ _ _ _ Hc Hls Hns Hfit Hnm).
Qed.



Lemma layer_entries_ints parameters idx zs :
  Forall2 (fun i z => parameters !! layers_key i = Some (PInt z)) idx zs ->
  layer_entries parameters idx = inr (PInt <$> zs).
Proof.
  induction 1 as [|i z idx zs Hz _ IH]; [done|].
  simpl. unfold layer_entry, lookup_param. by rewrite Hz, IH.
Qed.

Lemma mapM_count_of_ints zs :
  Forall (fun z => z <= maxsize) zs ->
  mapM count_of (PInt <$> zs) = Some (Z.to_nat <$> zs).
Proof.
  intros Hall. apply mapM_Some, Forall2_fmap, Forall_Forall2_diag.
  eapply Forall_impl; [exact Hall|]. intros z Hz. cbv beta in Hz. unfold count_of. cbn [int_value].
  destruct (Z.ltb_spec maxsize z); [lia|]. by rewrite andb_false_r.
Qed.

(** X29. The sliders [get_requested_parameters] asks for are the entries
    [set_input_parameters] reads: given, under the ids of the sliders
    requested, ints that are no larger than [sys.maxsize] and that a
    list can hold together, and a model id, [set_input_parameters]
    completes on a loaded configuration. *)
Theorem requested_sliders_are_the_ones_read parameters self c ds zs :
  get_requested_parameters self = inr ds ->
  model_config self = CfgObj c ->
  Forall2 (fun d z => parameters !! d_id d = Some (PInt z)) (sliders ds) zs ->
  Forall (fun z => z <= maxsize) zs ->
  Z.of_nat (foldr Nat.add 0%nat (Z.to_nat <$> zs)) <= list_capacity ->
  is_Some (parameters !! "id"%string) ->
  (set_input_parameters parameters self).1 = inr tt.
Proof.
  intros (count & _ & ->)%requested_parameters_inv Hc Hall Hmax Hfit [nm Hid].
  unfold sliders in Hall. cbn [tail] in Hall. apply Forall2_fmap_l in Hall.
  pose proof (layer_entries_ints parameters (seq 0 device_count) zs Hall) as Hzs.
  assert (Hnm : exists nm', chosen_name parameters = inr nm').
  { unfold chosen_name, lookup_param. rewrite Hid.
    destruct (parameters !! "custom_model_name"%string); by eexists. }
  destruct Hnm as [nm' Hnm].
  rewrite (set_input_parameters_run _ _ _ _ _ _ Hc Hzs (mapM_count_of_ints zs Hmax)
             (or_intror Hfit) Hnm).
  done.
Qed.

(** ** [get_local_model_path] *)

Lemma replace_slash_no_root s : String.prefix "/" (replace_slash s) = false.
Proof.
  destruct s as [|ch s]; [done|]. simpl.
  destruct (Ascii.eqb ch "/") eqn:Hch; [done|].
  destruct (ascii_dec "/" ch) as [<-|Hne]; [done|].
  simpl. rewrite Ascii.eqb_sym in Hch.
  destruct ch as [[] [] [] [] [] [] [] []]; simpl in *; done.
Qed.

(** X30. [get_local_model_path] returns [self.path] when it is set and not
    empty; otherwise, for a string as model name, it is the directory
    [models/<name>] with every slash of the name replaced by an
    underscore: the directory [_load_config] falls back to, so a
    configuration that [_load_config] found without a model path was
    read from [config.json] in that directory. *)
Theorem local_model_path_is_the_fallback self name :
  model_name self = PStr name ->
  (truthy_param (path self) = true -> get_local_model_path self = inr (path self))
  /\ (truthy_param (path self) = false ->
        get_local_model_path self = inr (PStr ("models/" +:+ replace_slash name))
        /\ forall c, _load_config name None = inr (CfgObj c) ->
             path_exists ("models/" +:+ replace_slash name) = true
             /\ exists c0, ExLlamaConfig (path_join ("models/" +:+ replace_slash name)
                                                   "config.json") = inr c0
                           /\ attrs c = attrs c0).
Proof.
  intros Hn. unfold get_local_model_path. rewrite Hn. split; intros ->; [done|].
  split.
  - unfold path_join. by rewrite replace_slash_no_root.
  - intros c. unfold _load_config, config_in. simpl.
    destruct (path_exists _); [|done].
    destruct (ExLlamaConfig _) as [e|c0]; [done|]. intros Hl.
    split; [done|]. exists c0. split; [done|].
    destruct (is_superhot name); by injection Hl as <-.
Qed.

End Host.

Import HostFixtures.

Lemma is_valid_true_means_loadable_witness :
  exists p f c,
    Some "models/llama-superhot"%string = Some p
    /\ @load_model_gptq_settings toy_platform (PStr p) = inr (true, Some f)
    /\ superhot_ready "llama-superhot" c
    /\ (@is_valid toy_platform "llama-superhot" (Some "models/llama-superhot"%string)
          (@__init__ toy_platform)).2
       = @mkBackend toy_platform (CfgObj c) None (PStr "") PNone [].
Proof.
  apply (@is_valid_true_means_loadable toy_platform "llama-superhot"
           (Some "models/llama-superhot"%string) (@__init__ toy_platform)).
  vm_compute. reflexivity.
Defined.

Lemma get_model_needs_a_config_witness :
  exists e, @_get_model toy_platform (PStr "models/llama-superhot")
              (@unload toy_platform toy_backend)
            = (inl e, @unload toy_platform toy_backend).
Proof.
  apply (@get_model_needs_a_config toy_platform (PStr "models/llama-superhot")
           (@unload toy_platform toy_backend)).
  reflexivity.
Defined.

Lemma validated_model_is_built_witness :
  let self' := (@is_valid toy_platform "legacy" (Some "models/legacy"%string)
                  (@__init__ toy_platform)).2 in
  exists f c,
    @load_model_gptq_settings toy_platform (PStr "models/legacy") = inr (true, Some f)
    /\ model_config self' = CfgObj c
    /\ (@_get_model toy_platform (PStr "models/legacy") self').1
       = @ExLlama toy_platform (set_model_path (Some f) c)
    /\ model_config (@_get_model toy_platform (PStr "models/legacy") self').2
       = CfgObj (set_model_path (Some f) c).
Proof.
  apply (@validated_model_is_built toy_platform "legacy" "models/legacy"
           (@__init__ toy_platform)).
  vm_compute. reflexivity.
Defined.

Lemma requested_parameters_ids_witness :
  length toy_descriptors = 3%nat
  /\ NoDup (d_id <$> toy_descriptors)
  /\ Forall (fun d => check_sum (d_check d) = d_id <$> sliders toy_descriptors)
            toy_descriptors.
Proof.
  apply (@requested_parameters_ids toy_platform toy_backend toy_descriptors).
  vm_compute. reflexivity.
Defined.

Lemma default_allocation_meets_the_check_witness :
  foldr Z.add 0 (default_layers <$> sliders toy_descriptors) = 32
  /\ Forall (fun d => check_value (d_check d) = Some 32) toy_descriptors.
Proof.
  apply (@default_allocation_meets_the_check toy_platform toy_backend toy_descriptors 32).
  - vm_compute. reflexivity.
  - vm_compute. reflexivity.
  - simpl. lia.
Defined.

Lemma set_input_parameters_places_layers_witness :
  exists self' c',
    @set_input_parameters toy_platform toy_parameters toy_backend = (inr tt, self')
    /\ model_config self' = CfgObj c'
    /\ dm_layers (devices c') = blocks 0 [20%nat; 12%nat]
    /\ length (dm_layers (devices c')) = foldr Nat.add 0%nat [20%nat; 12%nat]
    /\ dm_lm_head (devices c') = "cuda:0"%string
    /\ dm_norm (devices c') = "cuda:0"%string
    /\ [rmsnorm_no_half2 c'; rope_no_half2 c'; matmul_no_half2 c'; silu_no_half2 c']
       = replicate 4 (@hip_build toy_platform)
    /\ model_path c' = model_path toy_config
    /\ attrs c' = attrs toy_config
    /\ layers self' = [PInt 20; PInt 12]
    /\ model_name self' = PStr "llama-superhot"
    /\ path self' = default PNone (toy_parameters !! "path"%string)
    /\ model self' = model toy_backend.
Proof.
  apply (@set_input_parameters_places_layers toy_platform toy_parameters toy_backend
           toy_config [PInt 20; PInt 12] [20%nat; 12%nat] (PStr "llama-superhot"));
    try (vm_compute; reflexivity).
  vm_compute. discriminate.
Defined.


Lemma requested_sliders_are_the_ones_read_witness :
  (@set_input_parameters toy_platform toy_int_parameters toy_backend).1 = inr tt.
Proof.
  apply (@requested_sliders_are_the_ones_read toy_platform toy_int_parameters toy_backend
           toy_config toy_descriptors [30; 2]).
  - vm_compute. reflexivity.
  - reflexivity.
  - repeat constructor.
  - repeat constructor; vm_compute; discriminate.
  - vm_compute. discriminate.
  - eexists. vm_compute. reflexivity.
Defined.

Lemma local_model_path_is_the_fallback_witness :
  @get_local_model_path toy_platform toy_backend = inr (PStr "models/legacy").
Proof.
  destruct (@local_model_path_is_the_fallback toy_platform toy_backend "legacy" eq_refl)
    as [_ Hunset].
  destruct (Hunset eq_refl) as [Hpath _]. exact Hpath.
Defined.

End ExLlamaHostProps.
